(** * ai-shorts: script validation, configuration store, process executor
      and pipeline orchestration

    A shallow embedding of the TypeScript sources

      - [node/src/generate.ts]  (class [YouTubeShortGenerator])
      - [node/src/config.ts]    ([loadConfig], [reloadConfig])
      - [node/src/index.ts]     (class [PythonOrchestrator])
      - the pipeline driver     (class [FullPipeline])

    together with the properties the specification states about them.

    Conventions of the embedding.
      - A JavaScript value that came out of [JSON.parse] is a [JsValue].
      - A JavaScript number is a [number]: NaN, the two infinities, or a
        finite double given by the rational it denotes.  Comparisons of
        doubles are comparisons of these rationals; decimal text is
        rounded to the nearest double by [toDouble].
      - A string is a [string] whose characters stand for code units
        below 256.
      - [console.log] and friends only print; what is kept of them is
        the conversion to a string of the values that their template
        literals hold, which can throw ([interpolate]).
      - Functions of the engine and of Node that the sources call
        (the ToString conversion, [path.join], [path.resolve],
        [__dirname], [fs.ensureDirSync]) are Section variables. *)

From Stdlib Require Import Bool Arith ZArith QArith Lia List String Ascii.
From Stdlib Require Import DecimalString.
Import ListNotations.
Local Close Scope Q_scope.
Local Open Scope nat_scope.
Local Open Scope list_scope.
Local Open Scope string_scope.

Set Implicit Arguments.
Set Warnings "-register-all".

(* ===================================================================== *)
(** * Numbers *)
(* ===================================================================== *)

Module Num.

Inductive number : Type :=
| NaN
| PosInf
| NegInf
| Fin (q : Q).

Definition of_Z (z : Z) : number := Fin (inject_Z z).
Definition of_nat (n : nat) : number := of_Z (Z.of_nat n).

Definition zero : number := of_Z 0.

(** [a < b] on numbers; any comparison with NaN is false. *)
Definition ltb (a b : number) : bool :=
  match a, b with
  | NaN, _ | _, NaN => false
  | NegInf, NegInf => false
  | NegInf, _ => true
  | _, NegInf => false
  | PosInf, _ => false
  | Fin _, PosInf => true
  | Fin x, Fin y => match Qcompare x y with Lt => true | _ => false end
  end.

(** [a <= b] on numbers. *)
Definition leb (a b : number) : bool :=
  match a, b with
  | NaN, _ | _, NaN => false
  | NegInf, _ => true
  | _, PosInf => true
  | PosInf, _ => false
  | _, NegInf => false
  | Fin x, Fin y => match Qcompare x y with Gt => false | _ => true end
  end.

(** [a > b] and [a >= b] swap the operands. *)
Definition gtb (a b : number) : bool := ltb b a.
Definition geb (a b : number) : bool := leb b a.

(** [a === b] on numbers: NaN differs from itself, [+0 === -0]. *)
Definition eqb (a b : number) : bool :=
  match a, b with
  | PosInf, PosInf | NegInf, NegInf => true
  | Fin x, Fin y => Qeq_bool x y
  | _, _ => false
  end.

(** ToBoolean on a number: false exactly for [0], [-0] and NaN. *)
Definition toBoolean (a : number) : bool :=
  match a with
  | NaN => false
  | Fin q => negb (Qeq_bool q 0)
  | _ => true
  end.

(** ** Rounding to the nearest double *)

(** [n/d] rounded to the nearest integer, a tie going to the even one;
    [0 <= n] and [0 < d]. *)
Definition roundHalfEven (n d : Z) : Z :=
  let k := (n / d)%Z in
  let r := (n mod d)%Z in
  match (2 * r ?= d)%Z with
  | Lt => k
  | Gt => (k + 1)%Z
  | Eq => if Z.even k then k else (k + 1)%Z
  end.

(** [n/d < 2^e] *)
Definition belowPow2 (n d e : Z) : bool :=
  if (0 <=? e)%Z then (n <? d * 2 ^ e)%Z else (n * 2 ^ (- e) <? d)%Z.

(** The double nearest to [n/d], for [0 < n] and [0 < d]: with
    [2^e <= n/d < 2^(e+1)] the spacing of the doubles around [n/d] is
    [2^p] for [p = max (e - 52) (-1074)]; [n/d] is rounded to a multiple
    [m * 2^p] of it, ties to the even [m], and a result of [2^1024] or
    more is Infinity. *)
Definition roundPositive (n d : Z) : number :=
  let e0 := (Z.log2 n - Z.log2 d)%Z in
  let e := if belowPow2 n d e0 then (e0 - 1)%Z else e0 in
  let p := Z.max (e - 52) (-1074) in
  if (0 <=? p)%Z then
    let m := roundHalfEven n (d * 2 ^ p) in
    if (2 ^ 1024 <=? m * 2 ^ p)%Z then PosInf
    else Fin (inject_Z (m * 2 ^ p))
  else
    let m := roundHalfEven (n * 2 ^ (- p)) d in
    Fin (Qred (Qmake m (Z.to_pos (2 ^ (- p))))).

(** The Number value of a decimal, as a literal of the source or the
    text given to [parseFloat] denotes it: the nearest double, ties to
    even, Infinity on overflow, [0] on underflow. *)
Definition toDouble (q : Q) : number :=
  match Qnum q with
  | Z0 => Fin 0
  | Zpos n => roundPositive (Zpos n) (Zpos (Qden q))
  | Zneg n =>
      match roundPositive (Zpos n) (Zpos (Qden q)) with
      | Fin x => Fin (Qopp x)
      | PosInf => NegInf
      | other => other
      end
  end.

End Num.
Export Num.

(* ===================================================================== *)
(** * Values, exceptions, completions *)
(* ===================================================================== *)

(** The values [JSON.parse] produces (and [undefined], the result of
    reading a property that is not there).  An object is the list of its
    own properties; a read returns the first binding of the key. *)
Inductive JsValue : Type :=
| JUndefined
| JNull
| JBool (b : bool)
| JNum (n : number)
| JStr (s : string)
| JArr (elems : list JsValue)
| JObj (props : list (string * JsValue)).

(** What a [throw] carries. *)
Inductive Exn : Type :=
| Error (message : string)
    (** [new Error(message)], thrown by the sources themselves *)
| TypeError
    (** raised by the engine: a property read on [null] or [undefined], a
        call of something that is not a function, a non-string path *)
| SyntaxError
    (** raised by [JSON.parse] on text that is not JSON *)
| SystemError (syscall code : string)
    (** an error object made by Node ([spawn ... ENOENT], a failed write);
        it has the fields [syscall] and [code] *).

(** How the evaluation of a statement or of an awaited call ends. *)
Inductive Result (A : Type) : Type :=
| Returned (a : A)
| Threw (e : Exn)
| Pending.
    (** an [await] on a promise that is never settled *)

Arguments Returned {A} a.
Arguments Threw {A} e.
Arguments Pending {A}.

Definition bind {A B : Type} (r : Result A) (k : A -> Result B) : Result B :=
  match r with
  | Returned a => k a
  | Threw e => Threw e
  | Pending => Pending
  end.

Declare Scope js_scope.
Delimit Scope js_scope with js.
Notation "x <- c ;; k" := (bind c (fun x => k))
  (at level 61, c at next level, right associativity) : js_scope.
Notation "c ;;; k" := (bind c (fun _ => k))
  (at level 61, right associativity) : js_scope.
Local Open Scope js_scope.

(** [typeof v] *)
Definition typeof (v : JsValue) : string :=
  match v with
  | JUndefined => "undefined"
  | JNull => "object"
  | JBool _ => "boolean"
  | JNum _ => "number"
  | JStr _ => "string"
  | JArr _ => "object"
  | JObj _ => "object"
  end.

(** ToBoolean: [!v] is [negb (truthy v)]. *)
Definition truthy (v : JsValue) : bool :=
  match v with
  | JUndefined | JNull => false
  | JBool b => b
  | JNum n => Num.toBoolean n
  | JStr s => negb (String.eqb s "")
  | JArr _ | JObj _ => true
  end.

Fixpoint lookup (k : string) (props : list (string * JsValue)) : JsValue :=
  match props with
  | [] => JUndefined
  | (k', v) :: rest => if String.eqb k k' then v else lookup k rest
  end.

(** The property read [v.k], for the field names the sources use
    ([title], [duration_seconds], [scenes], [start], [end], [voice],
    [overlay], [id], [default_scene], [example_script], [video], ...).
    None of them is a member of a built-in prototype, so on a primitive
    or an array the read gives [undefined]; on [null] and [undefined] it
    raises a TypeError. *)
Definition get (v : JsValue) (k : string) : Result JsValue :=
  match v with
  | JUndefined | JNull => Threw TypeError
  | JObj props => Returned (lookup k props)
  | _ => Returned JUndefined
  end.

(** [Array.isArray(v)] *)
Definition isArray (v : JsValue) : bool :=
  match v with JArr _ => true | _ => false end.

(** [a[i]] on the elements of an array: [undefined] out of range. *)
Definition index (elems : list JsValue) (i : nat) : JsValue :=
  nth i elems JUndefined.

(** The relational operators on operands of type number.  The sources
    apply them only behind [typeof ... === 'number'] guards
    (lemma [forEach_numbers] covers the one use that is not guarded on
    the spot); the coercions the engine performs on other operands are
    not represented, and the comparison is then false. *)
Definition lessThan (a b : JsValue) : bool :=
  match a, b with JNum x, JNum y => Num.ltb x y | _, _ => false end.
Definition lessEq (a b : JsValue) : bool :=
  match a, b with JNum x, JNum y => Num.leb x y | _, _ => false end.
Definition greaterThan (a b : JsValue) : bool := lessThan b a.
Definition greaterEq (a b : JsValue) : bool := lessEq b a.

(** [a === b].  Two objects or arrays taken from different places of one
    parsed document are different objects. *)
Definition strictEq (a b : JsValue) : bool :=
  match a, b with
  | JUndefined, JUndefined => true
  | JNull, JNull => true
  | JBool x, JBool y => Bool.eqb x y
  | JNum x, JNum y => Num.eqb x y
  | JStr x, JStr y => String.eqb x y
  | _, _ => false
  end.

(** Whether the ToString conversion of a parsed value throws.  A
    primitive always converts.  A parsed object converts through
    [Object.prototype.toString] unless it has an own property named
    [toString]: that property is no function, [valueOf] gives no
    primitive either, and the conversion ends in a TypeError.  A parsed
    array converts through [join], which converts every element that is
    not [null] or [undefined]. *)
Fixpoint toStringThrows (v : JsValue) : bool :=
  match v with
  | JObj props => existsb (fun kv => String.eqb (fst kv) "toString") props
  | JArr elems =>
      (fix any (l : list JsValue) : bool :=
         match l with
         | [] => false
         | x :: rest => toStringThrows x || any rest
         end) elems
  | _ => false
  end.

(** The conversion of [v] inside a template literal that is only
    printed, [`... ${v} ...`], and the one of [v + "s"], which throws on
    the same values: what matters is whether it throws. *)
Definition interpolate (v : JsValue) : Result unit :=
  if toStringThrows v then Threw TypeError else Returned tt.

(* ===================================================================== *)
(** * generate.ts: [validateScript] *)
(* ===================================================================== *)

Section Validator.

(** The engine's ToString conversion, applied by template literals
    ([`${v}`]) and, on a number, by [Number.prototype.toString]. *)
Variable ToString : JsValue -> string.

(** The body of the [forEach] callback of [validateScript].  A property
    the source reads several times in a row is read once here: reads of
    parsed data have no effect.  [script.duration_seconds] is read ahead
    of the three timing tests, since every way through them reads it,
    for the test on [end] or for the message. *)
Definition validateScene (script scene : JsValue) (index : nat) : Result unit :=
  start <- get scene "start" ;;
  end_ <- get scene "end" ;;
  if negb (String.eqb (typeof start) "number")
     || negb (String.eqb (typeof end_) "number")
  then Threw (Error ("Scene " ++ ToString (JNum (Num.of_nat index))
                     ++ ": start and end must be numbers"))
  else
  duration <- get script "duration_seconds" ;;
  if lessThan start (JNum Num.zero) || greaterThan end_ duration
     || greaterEq start end_
  then Threw (Error ("Scene " ++ ToString (JNum (Num.of_nat index))
                     ++ ": invalid timing (start: " ++ ToString start
                     ++ ", end: " ++ ToString end_
                     ++ ") - must be within 0-" ++ ToString duration
                     ++ " seconds"))
  else
  voice <- get scene "voice" ;;
  if negb (truthy voice) || negb (String.eqb (typeof voice) "string")
  then Threw (Error ("Scene " ++ ToString (JNum (Num.of_nat index))
                     ++ ": voice must be a non-empty string"))
  else
  overlay <- get scene "overlay" ;;
  if negb (truthy overlay) || negb (String.eqb (typeof overlay) "string")
  then Threw (Error ("Scene " ++ ToString (JNum (Num.of_nat index))
                     ++ ": overlay must be a non-empty string"))
  else Returned tt.

(** [elems.forEach(callback)], from position [index] on. *)
Fixpoint forEach (callback : JsValue -> nat -> Result unit)
         (elems : list JsValue) (index : nat) : Result unit :=
  match elems with
  | [] => Returned tt
  | scene :: rest => callback scene index ;;; forEach callback rest (S index)
  end.

(** [for (let i = ...; i < scenes.length; i++)] with [n] iterations
    left, that is [n = scenes.length - i]. *)
Fixpoint overlapLoop (scenes : list JsValue) (i n : nat) : Result unit :=
  match n with
  | O => Returned tt
  | S n' =>
      start <- get (index scenes i) "start" ;;
      prevEnd <- get (index scenes (i - 1)) "end" ;;
      if lessThan start prevEnd
      then Threw (Error ("Scene " ++ ToString (JNum (Num.of_nat i))
                         ++ " overlaps with previous scene"))
      else overlapLoop scenes (S i) n'
  end.

Definition validateScript (script : JsValue) : Result unit :=
  title <- get script "title" ;;
  if negb (truthy title) || negb (String.eqb (typeof title) "string")
  then Threw (Error "Invalid or missing title")
  else
  duration <- get script "duration_seconds" ;;
  if negb (String.eqb (typeof duration) "number")
     || lessEq duration (JNum Num.zero)
  then Threw (Error "Duration must be a positive number")
  else
  scenes <- get script "scenes" ;;
  match scenes with
  | JArr elems =>
      if Nat.eqb (List.length elems) 0
      then Threw (Error "Scenes must be a non-empty array")
      else
        forEach (validateScene script) elems 0 ;;;
        overlapLoop elems 1 (List.length elems - 1)
  | _ => Threw (Error "Scenes must be a non-empty array")
  end.

End Validator.

(* ===================================================================== *)
(** * Strings: [trim], the duration pattern, [parseFloat] *)
(* ===================================================================== *)

(** WhiteSpace and LineTerminator code units below 256: TAB, LF, VT, FF,
    CR, SP and NBSP. *)
Definition isWhiteSpace (c : ascii) : bool :=
  let n := nat_of_ascii c in
  ((9 <=? n)%nat && (n <=? 13)%nat) || (n =? 32)%nat || (n =? 160)%nat.

Fixpoint trimStart (s : string) : string :=
  match s with
  | String c rest => if isWhiteSpace c then trimStart rest else s
  | EmptyString => EmptyString
  end.

Fixpoint trimEnd (s : string) : string :=
  match s with
  | String c rest =>
      match trimEnd rest with
      | EmptyString => if isWhiteSpace c then EmptyString else String c EmptyString
      | kept => String c kept
      end
  | EmptyString => EmptyString
  end.

(** [s.trim()] *)
Definition trim (s : string) : string := trimEnd (trimStart s).

(** [\d] *)
Definition isDigit (c : ascii) : bool :=
  let n := nat_of_ascii c in (48 <=? n)%nat && (n <=? 57)%nat.

(** The character class [[\d.]] *)
Definition isDigitOrDot (c : ascii) : bool :=
  isDigit c || Ascii.eqb c "."%char.

(** [s] with the literal [p] removed from its front, when it is there. *)
Fixpoint stripPrefix (p s : string) : option string :=
  match p, s with
  | EmptyString, _ => Some s
  | String a p', String b s' => if Ascii.eqb a b then stripPrefix p' s' else None
  | String _ _, EmptyString => None
  end.

(** The tail [[\d.]*] followed by [ seconds] of the pattern, matched at
    the front of [s] the way a backtracking matcher does: the class takes
    a character whenever it can and gives it back only if the rest then
    fails.  The result is the text the class took. *)
Fixpoint classStarThenSeconds (s : string) : option string :=
  let giveUp := match stripPrefix " seconds" s with
                | Some _ => Some EmptyString
                | None => None
                end in
  match s with
  | String c rest =>
      if isDigitOrDot c then
        match classStarThenSeconds rest with
        | Some taken => Some (String c taken)
        | None => giveUp
        end
      else giveUp
  | EmptyString => giveUp
  end.

(** [/Duration: ([\d.]+) seconds/] matched at the front of [s]; the
    result is capture group 1. *)
Definition matchHere (s : string) : option string :=
  match stripPrefix "Duration: " s with
  | Some (String c rest) =>
      if isDigitOrDot c then
        match classStarThenSeconds rest with
        | Some taken => Some (String c taken)
        | None => None
        end
      else None
  | _ => None
  end.

(** [text.match(/Duration: ([\d.]+) seconds/)]: the leftmost match;
    [None] is [null], [Some g] a match array whose element 1 is [g]. *)
Fixpoint durationMatch (text : string) : option string :=
  match matchHere text with
  | Some g => Some g
  | None =>
      match text with
      | String _ rest => durationMatch rest
      | EmptyString => None
      end
  end.

(** The longest prefix of [s] made of characters satisfying [p], and what
    follows it. *)
Fixpoint span (p : ascii -> bool) (s : string) : string * string :=
  match s with
  | String c rest =>
      if p c then let '(a, b) := span p rest in (String c a, b)
      else (EmptyString, s)
  | EmptyString => (EmptyString, EmptyString)
  end.

Definition digitValue (c : ascii) : Z := Z.of_nat (nat_of_ascii c - 48).

(** The value of a run of decimal digits, continuing from [acc]. *)
Fixpoint digitsValue (acc : Z) (ds : string) : Z :=
  match ds with
  | String c rest => digitsValue (10 * acc + digitValue c) rest
  | EmptyString => acc
  end.

(** [m * 10^k] *)
Definition scale10 (m k : Z) : Q :=
  if (0 <=? k)%Z then inject_Z (m * 10 ^ k)
  else Qmake m (Z.to_pos (10 ^ (- k))).

(** ExponentPart at the front of [s]: [e] or [E], an optional sign and
    at least one digit.  Absent or incomplete, it counts as [0]. *)
Definition exponentPart (s : string) : Z :=
  match s with
  | String c rest =>
      if Ascii.eqb c "e"%char || Ascii.eqb c "E"%char then
        let '(neg, rest') :=
          match rest with
          | String "-"%char r => (true, r)
          | String "+"%char r => (false, r)
          | _ => (false, rest)
          end in
        let '(ds, _) := span isDigit rest' in
        match ds with
        | EmptyString => 0%Z
        | _ => if neg then (- digitsValue 0 ds)%Z else digitsValue 0 ds
        end
      else 0%Z
  | EmptyString => 0%Z
  end.

(** [parseFloat(s)]: leading white space is skipped, then the longest
    prefix that is a StrDecimalLiteral is read — a sign, [Infinity], or
    digits with an optional fraction and exponent — and what follows is
    ignored.  The result is the double nearest to the decimal read;
    without such a prefix it is NaN. *)
Definition parseFloat (s : string) : number :=
  let s0 := trimStart s in
  let '(neg, s1) :=
    match s0 with
    | String "-"%char r => (true, r)
    | String "+"%char r => (false, r)
    | _ => (false, s0)
    end in
  match stripPrefix "Infinity" s1 with
  | Some _ => if neg then NegInf else PosInf
  | None =>
      let '(intDigits, afterInt) := span isDigit s1 in
      let '(fracDigits, afterFrac) :=
        match afterInt with
        | String "."%char r => span isDigit r
        | _ => (EmptyString, afterInt)
        end in
      match intDigits, fracDigits with
      | EmptyString, EmptyString => NaN
      | _, _ =>
          let mantissa := digitsValue (digitsValue 0 intDigits) fracDigits in
          let exponent :=
            (exponentPart afterFrac - Z.of_nat (String.length fracDigits))%Z in
          toDouble (scale10 (if neg then - mantissa else mantissa)%Z exponent)
      end
  end.

(** Lines 50-51 of [runFullPipeline]:
    [durationMatch ? parseFloat(durationMatch[1]) : 30.0] *)
Definition audioDuration (audioDurationResult : string) : number :=
  match durationMatch audioDurationResult with
  | Some group1 => parseFloat group1
  | None => Num.of_Z 30
  end.

(* ===================================================================== *)
(** * index.ts: the promise of [executePythonScript] *)
(* ===================================================================== *)

(** What a child process reports to its listeners, in order of arrival. *)
Inductive ProcEvent : Type :=
| StdoutData (data : string)       (** ['data'] on [stdout] *)
| StderrData (data : string)       (** ['data'] on [stderr] *)
| CloseEvent (code : option Z)     (** ['close']; [None] is the code [null] of a killed process *)
| ErrorEvent (error : Exn).        (** ['error']: the process could not be started *)

Inductive Settlement : Type :=
| Resolved (value : string)
| Rejected (reason : Exn).

(** The variables the listeners close over, and the state of the promise. *)
Record Listener : Type := mkListener {
  stdout : string;
  stderr : string;
  promise : option Settlement
}.

Definition listening : Listener :=
  {| stdout := ""; stderr := ""; promise := None |}.

(** [resolve] and [reject] act on a promise that is not settled yet and
    are ignored afterwards. *)
Definition resolve (value : string) (l : Listener) : Listener :=
  match promise l with
  | None => {| stdout := stdout l; stderr := stderr l; promise := Some (Resolved value) |}
  | Some _ => l
  end.

Definition reject (reason : Exn) (l : Listener) : Listener :=
  match promise l with
  | None => {| stdout := stdout l; stderr := stderr l; promise := Some (Rejected reason) |}
  | Some _ => l
  end.

(** [code === 0] *)
Definition isZero (code : option Z) : bool :=
  match code with Some 0%Z => true | _ => false end.

(** The four listeners of [executePythonScript]. *)
Definition onEvent (l : Listener) (ev : ProcEvent) : Listener :=
  match ev with
  | StdoutData data =>
      {| stdout := stdout l ++ data; stderr := stderr l; promise := promise l |}
  | StderrData data =>
      {| stdout := stdout l; stderr := stderr l ++ data; promise := promise l |}
  | CloseEvent code =>
      if isZero code then resolve (trim (stdout l)) l
      else reject (Error ("Python script failed: " ++ stderr l)) l
  | ErrorEvent error => reject error l
  end.

(** The promise after the child has reported [events]. *)
Definition execute (events : list ProcEvent) : option Settlement :=
  promise (fold_left onEvent events listening).

(** [await p] *)
Definition await (p : option Settlement) : Result string :=
  match p with
  | Some (Resolved value) => Returned value
  | Some (Rejected reason) => Threw reason
  | None => Pending
  end.

(* ===================================================================== *)
(** * The generator and the pipeline as state-passing tasks *)
(* ===================================================================== *)

(** [spawn(command, argv, {cwd})] *)
Record Invocation : Type := mkInvocation {
  command : string;
  argv : list string;
  cwd : string
}.

(** What the objects hold after construction and what the outside world
    answers. *)
Record Env : Type := mkEnv {
  config : JsValue;
    (** [FullPipeline.config], the value [loadConfig] returned *)
  scenesData : JsValue;
    (** [YouTubeShortGenerator.scenesData], the parsed [scenes.json] *)
  child : nat -> Invocation -> list ProcEvent;
    (** the events of the child started by the [n]-th [spawn] *)
  writeJson : string -> JsValue -> Result unit
    (** the outcome of [fs.writeJson(file, value)] *)
}.

(** What the methods change. *)
Record World : Type := mkWorld {
  model : JsValue;                      (** [YouTubeShortGenerator.model] *)
  spawned : list Invocation;            (** children started, oldest first *)
  written : list (string * JsValue)     (** files written, oldest first *)
}.

(** The world right after the constructors have run. *)
Definition constructed : World :=
  {| model := JNull; spawned := []; written := [] |}.

Definition Task (A : Type) : Type := World -> Result A * World.

Definition ret {A : Type} (a : A) : Task A := fun w => (Returned a, w).
Definition throw {A : Type} (e : Exn) : Task A := fun w => (Threw e, w).
Definition lift {A : Type} (r : Result A) : Task A := fun w => (r, w).

Definition andThen {A B : Type} (t : Task A) (k : A -> Task B) : Task B :=
  fun w =>
    match t w with
    | (Returned a, w') => k a w'
    | (Threw e, w') => (Threw e, w')
    | (Pending, w') => (Pending, w')
    end.

Declare Scope task_scope.
Delimit Scope task_scope with task.
Notation "x <- c ;; k" := (andThen c (fun x => k))
  (at level 61, c at next level, right associativity) : task_scope.
Notation "c ;;; k" := (andThen c (fun _ => k))
  (at level 61, right associativity) : task_scope.

(** A task that only adds to the list of children. *)
Definition extends {A : Type} (t : Task A) : Prop :=
  forall w, exists later, spawned (snd (t w)) = (spawned w ++ later)%list.

(** The message of the error [generateScript] throws without a model. *)
Definition notInitialized : string :=
  "Model not initialized. Call initializeModel() first.".

(** [!inputVideo] for an optional string argument *)
Definition absent (inputVideo : option string) : bool :=
  match inputVideo with
  | None => true
  | Some s => String.eqb s ""
  end.

Section Runtime.

Variable ToString : JsValue -> string.
Variable path_join : string -> string -> string.
Variable path_resolve : string -> string.
Variable dirname : string.   (** [__dirname], the same for all sources *)

Variable env : Env.

Local Open Scope task_scope.

(** ** [YouTubeShortGenerator] *)

Definition generator_outputPath : string := path_join dirname "../../output".

Definition initializeModel : Task unit :=
  fun w => (Returned tt,
            {| model := JObj [("mock", JBool true)];
               spawned := spawned w; written := written w |}).

(** [elems.find(scene => scene.id === this.scenesData.default_scene)] *)
Fixpoint find (elems : list JsValue) : Result JsValue :=
  match elems with
  | [] => Returned JUndefined
  | scene :: rest =>
      bind (get scene "id") (fun id =>
      bind (get (scenesData env) "default_scene") (fun wanted =>
      if strictEq id wanted then Returned scene else find rest))
  end.

Definition generateScript : Task JsValue :=
  fun w =>
    if negb (truthy (model w))
    then (Threw (Error "Model not initialized. Call initializeModel() first."), w)
    else
      lift
        (bind (get (scenesData env) "scenes") (fun scenes =>
         match scenes with
         | JArr elems =>
             bind (find elems) (fun found =>
             let defaultScene := if truthy found then found else index elems 0 in
             bind (get defaultScene "example_script") (fun script =>
             bind (get defaultScene "name") (fun name =>
             bind (interpolate name) (fun _ =>
             bind (get script "title") (fun _ =>
             bind (validateScript ToString script) (fun _ =>
             Returned script))))))
         | _ => Threw TypeError
         end)) w.

Definition saveScript (script : JsValue) : Task string :=
  let outputFile := path_join generator_outputPath "script.json" in
  fun w =>
    match writeJson env outputFile script with
    | Returned _ =>
        (Returned outputFile,
         {| model := model w; spawned := spawned w;
            written := (written w ++ [(outputFile, script)])%list |})
    | Threw e => (Threw e, w)
    | Pending => (Pending, w)
    end.

(** The mock model has no [dispose] method, so nothing is released. *)
Definition cleanup : Task unit :=
  fun w =>
    if truthy (model w)
    then
      match get (model w) "dispose" with
      | Returned dispose =>
          if String.eqb (typeof dispose) "function" then (Returned tt, w)
          else (Returned tt, w)
      | _ => (Returned tt, w)
      end
    else (Returned tt, w).

Definition generateAndSave : Task string :=
  initializeModel ;;;
  script <- generateScript ;;
  outputFile <- saveScript script ;;
  ret outputFile.

(** ** [PythonOrchestrator] *)

Definition pythonPath : string := path_join dirname "../../python".
Definition outputPath : string := path_join dirname "../../output".

(** [executePythonScript(scriptName, args = [])]; [None] is a call
    without the second argument. *)
Definition executePythonScript (scriptName : string)
           (args : option (list string)) : Task string :=
  fun w =>
    let args := match args with Some given => given | None => [] end in
    let scriptPath := path_join pythonPath scriptName in
    let started := {| command := "python"; argv := scriptPath :: args;
                      cwd := pythonPath |} in
    (await (execute (child env (List.length (spawned w)) started)),
     {| model := model w; spawned := (spawned w ++ [started])%list;
        written := written w |}).

(** The child [executePythonScript(scriptName, args)] starts. *)
Definition spawnOf (scriptName : string) (args : list string) : Invocation :=
  {| command := "python"; argv := path_join pythonPath scriptName :: args;
     cwd := pythonPath |}.

(** [path.resolve(p)] rejects an argument that is not a string. *)
Definition resolvePath (p : JsValue) : Result string :=
  match p with
  | JStr s => Returned (path_resolve s)
  | _ => Threw TypeError
  end.

Definition prepareBackgroundVideo (inputVideo : JsValue) (outputVideo : string)
           (duration : number) : Task string :=
  inputPath <- lift (resolvePath inputVideo) ;;
  let outputPath := path_join outputPath outputVideo in
  executePythonScript "prepare_video.py"
    (Some [inputPath; outputPath; ToString (JNum duration)]).

(** ** [FullPipeline] *)

(** The configuration summary [runFullPipeline] prints: the property
    reads and the conversions of its five template literals, in order.
    [duration_seconds] is converted, by [+ "s"], unless it is
    ["auto"]. *)
Definition readSummary (inputVideo : JsValue) : Result unit :=
  bind (get (config env) "script") (fun script =>
  bind (get script "topic") (fun topic =>
  bind (interpolate topic) (fun _ =>
  bind (get (config env) "tts") (fun tts =>
  bind (get tts "voice") (fun voice =>
  bind (interpolate voice) (fun _ =>
  bind (get tts "rate") (fun rate =>
  bind (interpolate rate) (fun _ =>
  bind (interpolate inputVideo) (fun _ =>
  bind (get script "duration_seconds") (fun duration =>
  if strictEq duration (JStr "auto") then Returned tt
  else interpolate duration)))))))))).

(** The input video [runFullPipeline] works with: its argument, or
    [config.video.background_video] when the argument is missing or
    empty. *)
Definition chosenVideo (inputVideo : option string) : Result JsValue :=
  if absent inputVideo
  then bind (get (config env) "video") (fun video => get video "background_video")
  else Returned (match inputVideo with
                 | Some s => JStr s
                 | None => JUndefined
                 end).

Definition runFullPipeline (inputVideo : option string) : Task unit :=
  inputVideo <- (if absent inputVideo
                 then lift (bind (get (config env) "video") (fun video =>
                            get video "background_video"))
                 else ret (match inputVideo with
                           | Some s => JStr s
                           | None => JUndefined
                           end)) ;;
  lift (readSummary inputVideo) ;;;
  initializeModel ;;;
  script <- generateScript ;;
  saveScript script ;;;
  cleanup ;;;
  executePythonScript "synth.py"
    (Some ["../output/script.json"; "../output/speech_all.wav"]) ;;;
  audioDurationResult <-
    executePythonScript "audio_utils.py" (Some ["../output/speech_all.wav"]) ;;
  let audioDuration := audioDuration audioDurationResult in
  prepareBackgroundVideo inputVideo "background.mp4" audioDuration ;;;
  executePythonScript "assemble.py"
    (Some ["../output/script.json"; "../output/background.mp4";
           "../output/speech_all.wav"; "../output/short.mp4"]) ;;;
  ret tt.

Definition runStep (step : string) (inputVideo : option string) : Task unit :=
  if String.eqb step "generate" then
    initializeModel ;;;
    script <- generateScript ;;
    saveScript script ;;;
    cleanup ;;;
    ret tt
  else if String.eqb step "synth" then
    executePythonScript "synth.py" None ;;;
    ret tt
  else if String.eqb step "prepare-video" then
    if absent inputVideo
    then throw (Error "Input video path required for prepare-video step")
    else
      prepareBackgroundVideo
        (match inputVideo with Some s => JStr s | None => JUndefined end)
        "background.mp4" (Num.of_Z 30) ;;;
      ret tt
  else if String.eqb step "assemble" then
    executePythonScript "assemble.py"
      (Some ["../output/script.json"; "../output/background.mp4";
             "../output/speech_all.wav"; "../output/short.mp4"]) ;;;
    ret tt
  else
    throw (Error ("Unknown step: " ++ step
                  ++ ". Available steps: generate, synth, prepare-video, assemble")).

(** ** Sequences of calls on one generator *)

Inductive GeneratorCall : Type :=
| CallInitializeModel
| CallGenerateScript
| CallSaveScript (script : JsValue)
| CallCleanup
| CallGenerateAndSave.

Definition call (c : GeneratorCall) (w : World) : World :=
  match c with
  | CallInitializeModel => snd (initializeModel w)
  | CallGenerateScript => snd (generateScript w)
  | CallSaveScript script => snd (saveScript script w)
  | CallCleanup => snd (cleanup w)
  | CallGenerateAndSave => snd (generateAndSave w)
  end.

Definition calls (cs : list GeneratorCall) (w : World) : World :=
  fold_left (fun w c => call c w) cs w.

(** A call that runs [initializeModel]. *)
Definition initializes (c : GeneratorCall) : bool :=
  match c with
  | CallInitializeModel | CallGenerateAndSave => true
  | _ => false
  end.

End Runtime.

(* ===================================================================== *)
(** * config.ts: the memoised configuration *)
(* ===================================================================== *)

Module ConfigStore.

(** What the file system and [JSON.parse] make of a path. *)
Inductive FileState : Type :=
| Absent                  (** [fs.existsSync(path)] is false *)
| Unreadable (e : Exn)    (** the path exists, [fs.readFileSync] throws [e] *)
| Malformed               (** the text is read, [JSON.parse] throws *)
| Parsed (v : JsValue).   (** the text is read and parses to [v] *)

(** A value as a variable holds it: a primitive, or a reference to an
    object that was created at some address.  Two references are the
    same instance exactly when their addresses agree. *)
Inductive Handle : Type :=
| Prim (v : JsValue)
| Object (address : nat) (content : JsValue).

Definition content_of (h : Handle) : JsValue :=
  match h with Prim v => v | Object _ v => v end.

(** ToBoolean of a handle: a reference is always truthy. *)
Definition holds (h : Handle) : bool :=
  match h with
  | Prim v => truthy v
  | Object _ _ => true
  end.

(** [a === b] *)
Definition identical (a b : Handle) : bool :=
  match a, b with
  | Prim x, Prim y => strictEq x y
  | Object i _, Object j _ => Nat.eqb i j
  | _, _ => false
  end.

Record Store : Type := mkStore {
  cachedConfig : Handle;     (** the module variable [cachedConfig] *)
  nextAddress : nat;         (** where the next object is created *)
  reads : list string        (** paths given to [fs.readFileSync], oldest first *)
}.

(** The module right after it is loaded: [cachedConfig = null]. *)
Definition initial : Store :=
  {| cachedConfig := Prim JNull; nextAddress := 0; reads := [] |}.

(** A new object for an object or array value; a primitive as it is. *)
Definition allocate (v : JsValue) (st : Store) : Handle * Store :=
  match v with
  | JArr _ | JObj _ =>
      (Object (nextAddress st) v,
       {| cachedConfig := cachedConfig st; nextAddress := S (nextAddress st);
          reads := reads st |})
  | _ => (Prim v, st)
  end.

Definition JN (z : Z) : JsValue := JNum (Num.of_Z z).

(** The object literal of [getDefaultConfig]. *)
Definition defaultConfig : JsValue :=
  JObj [
    ("script", JObj [
      ("topic", JStr "interesting life stories from Reddit");
      ("style", JStr "engaging, dramatic storytelling");
      ("duration_seconds", JStr "auto");
      ("hook_duration", JN 8);
      ("development_duration", JN 10);
      ("climax_duration", JN 12);
      ("max_words_per_scene", JN 50)]);
    ("tts", JObj [
      ("provider", JStr "edge-tts");
      ("voice", JStr "en-US-ChristopherNeural");
      ("rate", JStr "+0%");
      ("volume", JStr "+0%");
      ("pitch", JStr "+0Hz");
      ("available_voices", JObj [
        ("male", JArr [JStr "en-US-ChristopherNeural"; JStr "en-US-EricNeural";
                       JStr "en-US-GuyNeural"; JStr "en-US-RogerNeural"]);
        ("female", JArr [JStr "en-US-JennyNeural"; JStr "en-US-AriaNeural";
                         JStr "en-US-MichelleNeural"])]);
      ("speed_presets", JObj [
        ("very_slow", JStr "-50%");
        ("slow", JStr "-25%");
        ("normal", JStr "+0%");
        ("fast", JStr "+25%");
        ("very_fast", JStr "+50%")])]);
    ("video", JObj [
      ("background_video", JStr "minecraft_runner.mp4");
      ("resolution", JObj [("width", JN 1080); ("height", JN 1920)]);
      ("fps", JN 30);
      ("format", JStr "mp4");
      ("codec", JStr "libx264");
      ("audio_codec", JStr "aac");
      ("crf", JN 23);
      ("preset", JStr "fast")]);
    ("llm", JObj [
      ("model", JStr "llama3.2");
      ("temperature", JNum (Num.toDouble (8 # 10)%Q));
      ("max_tokens", JN 500);
      ("use_gpu", JBool true)]);
    ("output", JObj [
      ("directory", JStr "./output");
      ("script_file", JStr "script.json");
      ("audio_file", JStr "speech_all.wav");
      ("background_file", JStr "background.mp4");
      ("final_video", JStr "short.mp4")]);
    ("text_overlay", JObj [
      ("enabled", JBool false);
      ("font", JStr "arial.ttf");
      ("font_size", JN 48);
      ("font_color", JStr "white");
      ("position", JStr "bottom");
      ("background_color", JStr "black@0.7");
      ("border_width", JN 5)])].

(** [getDefaultConfig()]: every call builds a new object. *)
Definition getDefaultConfig (st : Store) : Handle * Store :=
  allocate defaultConfig st.

Definition setCached (h : Handle) (st : Store) : Store :=
  {| cachedConfig := h; nextAddress := nextAddress st; reads := reads st |}.

Definition noteRead (path : string) (st : Store) : Store :=
  {| cachedConfig := cachedConfig st; nextAddress := nextAddress st;
     reads := (reads st ++ [path])%list |}.

Section Paths.

Variable path_join : string -> string -> string.
Variable dirname : string.   (** [__dirname] *)
Variable cwd : string.       (** [process.cwd()] *)

(** The file system at the time of a call. *)
Variable fs : string -> FileState.

Definition possiblePaths : list string :=
  [ path_join dirname "../../config.json";
    path_join cwd "config.json";
    "config.json" ].

(** The [for] loop over the candidate paths.  [None]: the loop ran
    to its end; [Some r]: it was left by a [return] or a [throw]. *)
Fixpoint forPaths (paths : list string) (st : Store)
  : option (Result Handle * Store) :=
  match paths with
  | [] => None
  | configPath :: rest =>
      match fs configPath with
      | Absent => forPaths rest st
      | Unreadable e => Some (Threw e, noteRead configPath st)
      | Malformed => Some (Threw SyntaxError, noteRead configPath st)
      | Parsed v =>
          let '(parsed, st1) := allocate v (noteRead configPath st) in
          Some (Returned parsed, setCached parsed st1)
      end
  end.

(** The body of the [try] block. *)
Definition tryBlock (st : Store) : Result Handle * Store :=
  match forPaths possiblePaths st with
  | Some exited => exited
  | None =>
      let '(defaults, st1) := getDefaultConfig st in
      (Returned defaults, setCached defaults st1)
  end.

Definition loadConfig (st : Store) : Result Handle * Store :=
  if holds (cachedConfig st) then (Returned (cachedConfig st), st)
  else
    match tryBlock st with
    | (Threw _, st1) =>
        (* catch (error) { ...; return getDefaultConfig(); } *)
        let '(defaults, st2) := getDefaultConfig st1 in
        (Returned defaults, st2)
    | completed => completed
    end.

Definition reloadConfig (st : Store) : Result Handle * Store :=
  loadConfig (setCached (Prim JNull) st).

Definition getConfig (st : Store) : Result Handle * Store :=
  loadConfig st.

(** The first candidate the file system knows, with what it holds. *)
Fixpoint firstExisting (paths : list string) : option (string * FileState) :=
  match paths with
  | [] => None
  | configPath :: rest =>
      match fs configPath with
      | Absent => firstExisting rest
      | found => Some (configPath, found)
      end
  end.

End Paths.

End ConfigStore.

(* ===================================================================== *)
(** * The script data model of generate.ts *)
(* ===================================================================== *)

(** [interface ScriptScene] *)
Record ScriptScene : Type := mkScene {
  start : number;
  end_ : number;
  voice : string;
  overlay : string
}.

(** [interface YouTubeShortScript] *)
Record YouTubeShortScript : Type := mkScript {
  title : string;
  duration_seconds : number;
  scenes : list ScriptScene
}.

(** The objects of these two types, as values. *)
Definition sceneValue (sc : ScriptScene) : JsValue :=
  JObj [("start", JNum (start sc)); ("end", JNum (end_ sc));
        ("voice", JStr (voice sc)); ("overlay", JStr (overlay sc))].

Definition scriptValue (s : YouTubeShortScript) : JsValue :=
  JObj [("title", JStr (title s));
        ("duration_seconds", JNum (duration_seconds s));
        ("scenes", JArr (map sceneValue (scenes s)))].

Definition noScene : ScriptScene :=
  {| start := NaN; end_ := NaN; voice := ""; overlay := "" |}.

(** [scenes[i]] of a script *)
Definition sceneAt (s : YouTubeShortScript) (i : nat) : ScriptScene :=
  nth i (scenes s) noScene.

(** [0 <= start < end <= duration_seconds] *)
Definition timingOk (duration : number) (sc : ScriptScene) : Prop :=
  Num.leb Num.zero (start sc) = true /\
  Num.ltb (start sc) (end_ sc) = true /\
  Num.leb (end_ sc) duration = true.

(** [scenes[i].start >= scenes[i-1].end] for every [i > 0] *)
Definition ordered (s : YouTubeShortScript) : Prop :=
  forall i, 1 <= i < List.length (scenes s) ->
    Num.geb (start (sceneAt s i)) (end_ (sceneAt s (i - 1))) = true.

(** [voice] and [overlay] are not empty. *)
Definition labelled (sc : ScriptScene) : Prop :=
  voice sc <> "" /\ overlay sc <> "".

(** The Script invariants of the data model: a title, a positive
    duration, at least one scene, every scene within the duration, and
    no scene starting before its predecessor has ended. *)
Definition invariants (s : YouTubeShortScript) : Prop :=
  title s <> "" /\
  Num.ltb Num.zero (duration_seconds s) = true /\
  scenes s <> [] /\
  Forall (timingOk (duration_seconds s)) (scenes s) /\
  ordered s.

(** A scene that gets through the callback of [forEach]: none of its
    three timing tests fires, and it has a voice and an overlay. *)
Definition sceneAccepted (duration : number) (sc : ScriptScene) : Prop :=
  Num.ltb (start sc) Num.zero = false /\
  Num.gtb (end_ sc) duration = false /\
  Num.geb (start sc) (end_ sc) = false /\
  labelled sc.

(** A script whose title, duration, scene list and single scenes get
    through steps 1 to 4 of [validateScript]. *)
Definition accepted (s : YouTubeShortScript) : Prop :=
  title s <> "" /\
  Num.leb (duration_seconds s) Num.zero = false /\
  scenes s <> [] /\
  Forall (sceneAccepted (duration_seconds s)) (scenes s).

(** Scene [i] starts before scene [i-1] has ended. *)
Definition overlapsAt (s : YouTubeShortScript) (i : nat) : Prop :=
  Num.ltb (start (sceneAt s i)) (end_ (sceneAt s (i - 1))) = true.

(** The captured output of a child: the chunks of one stream, joined. *)
Fixpoint stdoutOf (events : list ProcEvent) : string :=
  match events with
  | [] => ""
  | StdoutData data :: rest => data ++ stdoutOf rest
  | _ :: rest => stdoutOf rest
  end.

Fixpoint stderrOf (events : list ProcEvent) : string :=
  match events with
  | [] => ""
  | StderrData data :: rest => data ++ stderrOf rest
  | _ :: rest => stderrOf rest
  end.

(** An event that only delivers output. *)
Definition isData (ev : ProcEvent) : bool :=
  match ev with
  | StdoutData _ | StderrData _ => true
  | _ => false
  end.

(** The names [runStep] accepts. *)
Definition validSteps : list string :=
  ["generate"; "synth"; "prepare-video"; "assemble"].

(* ===================================================================== *)
(** * Sample data and a sample runtime *)
(* ===================================================================== *)

Module Sample.

(** ToString on the values the samples print: [undefined], [null],
    booleans, strings, NaN, the infinities and integers.  Fractional
    numbers, arrays and objects come out as [?]. *)
Definition display (v : JsValue) : string :=
  match v with
  | JUndefined => "undefined"
  | JNull => "null"
  | JBool true => "true"
  | JBool false => "false"
  | JStr s => s
  | JNum NaN => "NaN"
  | JNum PosInf => "Infinity"
  | JNum NegInf => "-Infinity"
  | JNum (Fin (Qmake n 1)) => NilZero.string_of_int (Z.to_int n)
  | _ => "?"
  end.

Definition join (a b : string) : string := a ++ "/" ++ b.
Definition absolute (p : string) : string := "/work/" ++ p.
Definition dir : string := "/app/node/src".

(** The two end-to-end scripts of the specification. *)
Definition contiguous : YouTubeShortScript :=
  {| title := "X"; duration_seconds := Num.of_Z 20;
     scenes := [ {| start := Num.of_Z 0; end_ := Num.of_Z 10; voice := "a"; overlay := "b" |};
                 {| start := Num.of_Z 10; end_ := Num.of_Z 20; voice := "a"; overlay := "c" |} ] |}.

Definition overlapping : YouTubeShortScript :=
  {| title := "X"; duration_seconds := Num.of_Z 20;
     scenes := [ {| start := Num.of_Z 0; end_ := Num.of_Z 10; voice := "a"; overlay := "b" |};
                 {| start := Num.of_Z 5; end_ := Num.of_Z 20; voice := "a"; overlay := "c" |} ] |}.

(** A script whose timing is in order and whose only scene has no voice. *)
Definition voiceless : YouTubeShortScript :=
  {| title := "X"; duration_seconds := Num.of_Z 20;
     scenes := [ {| start := Num.of_Z 0; end_ := Num.of_Z 10; voice := ""; overlay := "b" |} ] |}.

(** A scenes catalog with one entry, the contiguous script. *)
Definition catalog : JsValue :=
  JObj [("scenes", JArr [JObj [("id", JStr "story"); ("name", JStr "Story");
                               ("example_script", scriptValue contiguous)]]);
        ("default_scene", JStr "story")].

(** Every child prints a duration line and exits with code 0; every
    write succeeds. *)
Definition env : Env :=
  {| config := ConfigStore.defaultConfig;
     scenesData := catalog;
     child := fun _ _ => [StdoutData "Duration: 45 seconds"; CloseEvent (Some 0%Z)];
     writeJson := fun _ _ => Returned tt |}.

(** A file system without any configuration file, and one whose first
    candidate holds text that is not JSON. *)
Definition cwd : string := "/app".

Definition noFiles : string -> ConfigStore.FileState :=
  fun _ => ConfigStore.Absent.

Definition brokenFile : string -> ConfigStore.FileState :=
  fun path => if String.eqb path "config.json"
              then ConfigStore.Malformed else ConfigStore.Absent.

Definition goodFile : string -> ConfigStore.FileState :=
  fun path => if String.eqb path "config.json"
              then ConfigStore.Parsed (JObj [("video", JObj [])])
              else ConfigStore.Absent.

End Sample.

(** Calls of [loadConfig] one after the other, each at its own state of
    the file system; the results in the order of the calls. *)
Fixpoint loadConfigs (path_join : string -> string -> string) (dirname cwd : string)
         (fss : list (string -> ConfigStore.FileState)) (st : ConfigStore.Store)
  : list (Result ConfigStore.Handle) * ConfigStore.Store :=
  match fss with
  | [] => ([], st)
  | fs :: rest =>
      let '(r, st1) := ConfigStore.loadConfig path_join dirname cwd fs st in
      let '(rs, st2) := loadConfigs path_join dirname cwd rest st1 in
      (r :: rs, st2)
  end.

(* ===================================================================== *)
(** * generate.ts: construction of the generator *)
(* ===================================================================== *)

(** The fields the constructor of [YouTubeShortGenerator] sets; [model]
    starts as [null] and lives in the [World]. *)
Record GeneratorFields : Type := mkGeneratorFields {
  field_config : ConfigStore.Handle;
  field_outputPath : string;
  field_scenesData : JsValue
}.

Section Construction.

Variable path_join : string -> string -> string.
Variable dirname : string.
Variable cwd : string.

(** The file system at the time of the call, and what
    [fs.ensureDirSync(dir)] does. *)
Variable fs : string -> ConfigStore.FileState.
Variable ensureDirSync : string -> Result unit.

(** The [try] block of [loadScenesData].  [None]: the block ran to its
    end, there was no file to return. *)
Definition scenesTry : Result (option JsValue) :=
  let scenesPath := path_join dirname "../../scenes.json" in
  match fs scenesPath with
  | ConfigStore.Absent => Returned None
  | ConfigStore.Unreadable e => Threw e
  | ConfigStore.Malformed => Threw SyntaxError
  | ConfigStore.Parsed v => Returned (Some v)
  end.

(** [loadScenesData()]: the [catch] only warns, and whatever did not
    return ends in the [throw] after it. *)
Definition loadScenesData : Result JsValue :=
  match scenesTry with
  | Returned (Some scenesData) => Returned scenesData
  | _ => Threw (Error "scenes.json file is required but not found")
  end.

(** [new YouTubeShortGenerator()] *)
Definition newGenerator (st : ConfigStore.Store)
  : Result GeneratorFields * ConfigStore.Store :=
  match ConfigStore.loadConfig path_join dirname cwd fs st with
  | (Returned loaded, st1) =>
      let outputPath := path_join dirname "../../output" in
      match ensureDirSync outputPath with
      | Returned _ =>
          match loadScenesData with
          | Returned scenesData =>
              (Returned {| field_config := loaded;
                           field_outputPath := outputPath;
                           field_scenesData := scenesData |}, st1)
          | Threw e => (Threw e, st1)
          | Pending => (Pending, st1)
          end
      | Threw e => (Threw e, st1)
      | Pending => (Pending, st1)
      end
  | (Threw e, st1) => (Threw e, st1)
  | (Pending, st1) => (Pending, st1)
  end.

End Construction.

(* ===================================================================== *)
(** * index.ts: the other methods of [PythonOrchestrator] and [main] *)
(* ===================================================================== *)

(** [try { body } catch (error) { console.error(...) }]: a throw of the
    body ends there. *)
Definition tryCatchLog (body : Task unit) : Task unit :=
  fun w =>
    match body w with
    | (Threw _, w') => (Returned tt, w')
    | completed => completed
    end.

(** What the example run of index.ts comes to, given how the promises
    of its steps end, first step first: the number of steps started and
    the way [main] ends.  A step is started when all steps before it
    have resolved; a rejection is caught and ends the run; a promise
    that is never settled leaves [main] waiting. *)
Fixpoint stepsRun (outcomes : list (Result string)) : nat * Result unit :=
  match outcomes with
  | [] => (0, Returned tt)
  | Returned _ :: rest => let '(k, ending) := stepsRun rest in (S k, ending)
  | Threw _ :: _ => (1, Returned tt)
  | Pending :: _ => (1, Pending)
  end.

Section Orchestrator.

Variable ToString : JsValue -> string.
Variable path_join : string -> string -> string.
Variable path_resolve : string -> string.
Variable dirname : string.
Variable env : Env.

(** What [fs.ensureDirSync(dir)] does. *)
Variable ensureDirSync : string -> Result unit.

Local Open Scope task_scope.

Definition generateTTS (text outputFileName : string) : Task string :=
  let outputPath := path_join (outputPath path_join dirname) outputFileName in
  executePythonScript path_join dirname env "tts_generator.py"
    (Some [text; outputPath]).

Definition processAudio (inputFile outputFile : string) : Task string :=
  let inputPath := path_join (outputPath path_join dirname) inputFile in
  let outputPath := path_join (outputPath path_join dirname) outputFile in
  executePythonScript path_join dirname env "audio_processor.py"
    (Some [inputPath; outputPath]).

(** [assembleVideo(scriptFile = 'script.json', backgroundVideo =
    'background.mp4', audioFile = 'speech_all.wav', outputVideo =
    'short.mp4')]; [None] is an argument left out. *)
Definition assembleVideo (scriptFile backgroundVideo audioFile outputVideo : option string)
  : Task string :=
  let scriptFile := match scriptFile with Some f => f | None => "script.json" end in
  let backgroundVideo :=
    match backgroundVideo with Some f => f | None => "background.mp4" end in
  let audioFile := match audioFile with Some f => f | None => "speech_all.wav" end in
  let outputVideo := match outputVideo with Some f => f | None => "short.mp4" end in
  let scriptPath := path_join (outputPath path_join dirname) scriptFile in
  let backgroundPath := path_join (outputPath path_join dirname) backgroundVideo in
  let audioPath := path_join (outputPath path_join dirname) audioFile in
  let outputPath := path_join (outputPath path_join dirname) outputVideo in
  executePythonScript path_join dirname env "assemble.py"
    (Some [scriptPath; backgroundPath; audioPath; outputPath]).

(** [new PythonOrchestrator()]: the two paths are set and the output
    directory is made, which can fail. *)
Definition newOrchestrator : Result unit :=
  ensureDirSync (outputPath path_join dirname).

(** [main()] of index.ts, the example run.  The orchestrator is
    constructed ahead of the [try]. *)
Definition index_main : Task unit :=
  lift newOrchestrator ;;;
  tryCatchLog
    (let text := "Hello, this is a test of the TTS system!" in
     generateTTS text "test_audio.wav" ;;;
     processAudio "test_audio.wav" "processed_audio.wav" ;;;
     prepareBackgroundVideo ToString path_join path_resolve dirname env
       (JStr "minecraft_runner.mp4") "background.mp4" (Num.of_Z 30) ;;;
     assembleVideo (Some "script.json") (Some "background.mp4")
                   (Some "speech_all.wav") (Some "short.mp4") ;;;
     ret tt).

(** The four children [main()] of index.ts starts when nothing fails. *)
Definition index_plan : list Invocation :=
  let out := outputPath path_join dirname in
  [ spawnOf path_join dirname "tts_generator.py"
      ["Hello, this is a test of the TTS system!"; path_join out "test_audio.wav"];
    spawnOf path_join dirname "audio_processor.py"
      [path_join out "test_audio.wav"; path_join out "processed_audio.wav"];
    spawnOf path_join dirname "prepare_video.py"
      [path_resolve "minecraft_runner.mp4"; path_join out "background.mp4";
       ToString (JNum (Num.of_Z 30))];
    spawnOf path_join dirname "assemble.py"
      [path_join out "script.json"; path_join out "background.mp4";
       path_join out "speech_all.wav"; path_join out "short.mp4"] ].

End Orchestrator.

(** What a scene is known to hold once the callback has returned. *)
Definition sceneChecked (d : number) (scene : JsValue) : Prop :=
  exists st en v o,
    get scene "start" = Returned (JNum st) /\
    get scene "end" = Returned (JNum en) /\
    Num.ltb st Num.zero = false /\
    Num.gtb en d = false /\
    Num.geb st en = false /\
    get scene "voice" = Returned (JStr v) /\ v <> "" /\
    get scene "overlay" = Returned (JStr o) /\ o <> "".


(** An occurrence of the duration pattern in a text: [Duration: ], a
    non-empty run [g] of digits and dots, [ seconds]. *)
Definition occursIn (text g : string) : Prop :=
  g <> "" /\
  (forall c, In c (list_ascii_of_string g) -> isDigitOrDot c = true) /\
  exists before rest, text = before ++ "Duration: " ++ g ++ " seconds" ++ rest.

(** More sample data. *)
Module Case.

(** A script whose second scene ends after the script does and has no
    overlay, and whose third scene overlaps the second. *)
Definition lateScene : YouTubeShortScript :=
  {| title := "X"; duration_seconds := Num.of_Z 20;
     scenes := [ {| start := Num.of_Z 0; end_ := Num.of_Z 10; voice := "a"; overlay := "b" |};
                 {| start := Num.of_Z 10; end_ := Num.of_Z 25; voice := "a"; overlay := "" |};
                 {| start := Num.of_Z 5; end_ := Num.of_Z 20; voice := "a"; overlay := "c" |} ] |}.

(** A script whose second scene has neither voice nor overlay. *)
Definition silentScene : YouTubeShortScript :=
  {| title := "X"; duration_seconds := Num.of_Z 20;
     scenes := [ {| start := Num.of_Z 0; end_ := Num.of_Z 10; voice := "a"; overlay := "b" |};
                 {| start := Num.of_Z 10; end_ := Num.of_Z 20; voice := ""; overlay := "" |} ] |}.

(** A parsed script without a title, and one with an empty scene list. *)
Definition untitled : JsValue :=
  JObj [("duration_seconds", JNum (Num.of_Z 20))].

Definition noScenes : JsValue :=
  JObj [("title", JStr "X"); ("duration_seconds", JNum (Num.of_Z 20));
        ("scenes", JArr [])].



(** A catalog without scenes, and one whose only scene has an
    overlapping script. *)
Definition emptyCatalog : JsValue :=
  JObj [("scenes", JArr []); ("default_scene", JStr "story")].

Definition overlapCatalog : JsValue :=
  JObj [("scenes", JArr [JObj [("id", JStr "story"); ("name", JStr "Story");
                               ("example_script", scriptValue Sample.overlapping)]]);
        ("default_scene", JStr "story")].

Definition withCatalog (catalog : JsValue) : Env :=
  {| config := config Sample.env; scenesData := catalog;
     child := child Sample.env; writeJson := writeJson Sample.env |}.

(** The sample environment with another configuration. *)
Definition withConfig (c : JsValue) : Env :=
  {| config := c; scenesData := scenesData Sample.env;
     child := child Sample.env; writeJson := writeJson Sample.env |}.

(** A configuration with the sections the summary reads and a [video]
    section that names no background video. *)
Definition noBackground : JsValue :=
  JObj [("script", JObj [("topic", JStr "t")]);
        ("tts", JObj [("voice", JStr "v")]);
        ("video", JObj [])].

(** The sample environment in which the first child exits with code 1. *)
Definition failingSynth : Env :=
  {| config := config Sample.env; scenesData := scenesData Sample.env;
     child := fun n _ =>
                match n with
                | O => [StderrData "no voice"; CloseEvent (Some 1%Z)]
                | _ => [StdoutData "Duration: 45 seconds"; CloseEvent (Some 0%Z)]
                end;
     writeJson := writeJson Sample.env |}.

(** A file system with a broken file at the second candidate and a good
    one at the third. *)
Definition shadowed : string -> ConfigStore.FileState :=
  fun path => if String.eqb path "/app/config.json" then ConfigStore.Malformed
              else if String.eqb path "config.json"
                   then ConfigStore.Parsed (JObj [("video", JObj [])])
                   else ConfigStore.Absent.

(** A catalog whose only scene has an object with a [toString] entry
    as its [name]: a name that cannot be converted to a string. *)
Definition oddName : JsValue :=
  JObj [("scenes", JArr [JObj [("id", JStr "story");
                               ("name", JObj [("toString", JNum (Num.of_Z 1))]);
                               ("example_script", scriptValue Sample.contiguous)]]);
        ("default_scene", JStr "story")].

(** A run of [n] zeros. *)
Fixpoint zeros (n : nat) : string :=
  match n with
  | O => ""
  | S k => String "0"%char (zeros k)
  end.

(** A file system whose only configuration file holds [null]. *)
Definition nullFile : string -> ConfigStore.FileState :=
  fun path => if String.eqb path "config.json"
              then ConfigStore.Parsed JNull else ConfigStore.Absent.

(** A file system with a good [scenes.json] and a broken [config.json]. *)
Definition scenesOnly : string -> ConfigStore.FileState :=
  fun path => if String.eqb path "/app/node/src/../../scenes.json"
              then ConfigStore.Parsed Sample.catalog
              else if String.eqb path "config.json" then ConfigStore.Malformed
                   else ConfigStore.Absent.

End Case.

(* ===================================================================== *)
(** * Properties of the number comparisons *)
(* ===================================================================== *)

Lemma ltb_leb_false (a b : number) :
  Num.ltb a b = true -> Num.leb b a = false.
Proof.
  destruct a as [| | |x], b as [| | |y]; simpl; try congruence.
  rewrite <- (Qcompare_antisym x y).
  destruct (Qcompare x y); simpl; congruence.
Qed.

Lemma leb_ltb_false (a b : number) :
  Num.leb a b = true -> Num.ltb b a = false.
Proof.
  destruct a as [| | |x], b as [| | |y]; simpl; try congruence.
  rewrite <- (Qcompare_antisym x y).
  destruct (Qcompare x y); simpl; congruence.
Qed.

Lemma eqb_ltb_false (a b : number) :
  Num.eqb a b = true -> Num.ltb a b = false.
Proof.
  destruct a as [| | |x], b as [| | |y]; simpl; try congruence.
  intros H. apply Qeq_bool_iff in H. apply Qeq_alt in H.
  rewrite H. reflexivity.
Qed.

Lemma timingOk_accepted (d : number) (sc : ScriptScene) :
  timingOk d sc -> labelled sc -> sceneAccepted d sc.
Proof.
  intros (H0 & Hlt & Hd) Hl. unfold sceneAccepted, Num.gtb, Num.geb.
  repeat split; auto using leb_ltb_false, ltb_leb_false; apply Hl.
Qed.

(* ===================================================================== *)
(** * Properties of [validateScript] *)
(* ===================================================================== *)

Section ValidatorFacts.

Variable ToString : JsValue -> string.

Lemma nonempty_truthy (s : string) : s <> "" -> truthy (JStr s) = true.
Proof.
  intros H. simpl. destruct (String.eqb_spec s ""); [contradiction | reflexivity].
Qed.

(** An accepted scene passes the callback, at any position. *)
Lemma validateScene_accepted (s : YouTubeShortScript) (sc : ScriptScene) (k : nat) :
  sceneAccepted (duration_seconds s) sc ->
  validateScene ToString (scriptValue s) (sceneValue sc) k = Returned tt.
Proof.
  intros (Hs & He & Hse & Hv & Ho).
  unfold validateScene, sceneValue, scriptValue; simpl.
  unfold greaterThan, greaterEq, Num.gtb, Num.geb in *; simpl.
  rewrite Hs, He, Hse; simpl.
  destruct (String.eqb_spec (voice sc) ""); [contradiction|]; simpl.
  destruct (String.eqb_spec (overlay sc) ""); [contradiction|]; simpl.
  reflexivity.
Qed.

Lemma forEach_accepted (s : YouTubeShortScript) (l : list ScriptScene) (k : nat) :
  Forall (sceneAccepted (duration_seconds s)) l ->
  forEach (validateScene ToString (scriptValue s)) (map sceneValue l) k = Returned tt.
Proof.
  intros H. revert k. induction H as [|sc l Hsc _ IH]; intros k; simpl.
  - reflexivity.
  - rewrite validateScene_accepted by assumption. simpl. apply IH.
Qed.

Lemma get_title (s : YouTubeShortScript) :
  get (scriptValue s) "title" = Returned (JStr (title s)).
Proof. reflexivity. Qed.

Lemma get_duration (s : YouTubeShortScript) :
  get (scriptValue s) "duration_seconds" = Returned (JNum (duration_seconds s)).
Proof. reflexivity. Qed.

Lemma get_scenes (s : YouTubeShortScript) :
  get (scriptValue s) "scenes" = Returned (JArr (map sceneValue (scenes s))).
Proof. reflexivity. Qed.

(** Steps 1 to 4 pass on an accepted script: what [validateScript]
    returns is what the overlap loop returns. *)
Lemma validateScript_accepted (s : YouTubeShortScript) :
  accepted s ->
  validateScript ToString (scriptValue s)
  = overlapLoop ToString (map sceneValue (scenes s)) 1 (List.length (scenes s) - 1).
Proof.
  intros (Ht & Hd & Hne & Hall).
  unfold validateScript.
  rewrite get_title, get_duration, get_scenes. cbn [bind].
  rewrite (nonempty_truthy Ht). cbn [typeof lessEq negb orb String.eqb Ascii.eqb Bool.eqb].
  rewrite Hd. rewrite length_map.
  destruct (scenes s) as [|sc l] eqn:E; [contradiction|].
  cbn [List.length Nat.eqb].
  rewrite <- E, forEach_accepted by (rewrite E; exact Hall).
  reflexivity.
Qed.

(** ** The overlap loop *)

Lemma index_scene (l : list ScriptScene) (i : nat) :
  i < List.length l ->
  index (map sceneValue l) i = sceneValue (nth i l noScene).
Proof.
  intros H. unfold index.
  rewrite (nth_indep _ JUndefined (sceneValue noScene)) by (rewrite length_map; exact H).
  apply map_nth.
Qed.

(** One turn of the loop on a script: the comparison it makes. *)
Lemma overlapLoop_step (s : YouTubeShortScript) (i n : nat) :
  1 <= i < List.length (scenes s) ->
  overlapLoop ToString (map sceneValue (scenes s)) i (S n)
  = if Num.ltb (start (sceneAt s i)) (end_ (sceneAt s (i - 1)))
    then Threw (Error ("Scene " ++ ToString (JNum (Num.of_nat i))
                       ++ " overlaps with previous scene"))
    else overlapLoop ToString (map sceneValue (scenes s)) (S i) n.
Proof.
  intros Hi. cbn [overlapLoop].
  rewrite !index_scene by lia. reflexivity.
Qed.

(** No overlap from [i] on: the loop runs to its end. *)
Lemma overlapLoop_clear (s : YouTubeShortScript) (n i : nat) :
  1 <= i -> i + n = List.length (scenes s) ->
  (forall j, i <= j < List.length (scenes s) -> ~ overlapsAt s j) ->
  overlapLoop ToString (map sceneValue (scenes s)) i n = Returned tt.
Proof.
  revert i. induction n as [|n IH]; intros i Hi Hlen Hclear.
  - reflexivity.
  - rewrite overlapLoop_step by lia.
    destruct (Num.ltb (start (sceneAt s i)) (end_ (sceneAt s (i - 1)))) eqn:E.
    + exfalso. apply (Hclear i); [lia | exact E].
    + apply IH; try lia. intros j Hj. apply Hclear. lia.
Qed.

(** The first overlap at or after [i] is at [k]: the loop throws there. *)
Lemma overlapLoop_first (s : YouTubeShortScript) (k n i : nat) :
  1 <= i <= k -> k < List.length (scenes s) ->
  i + n = List.length (scenes s) ->
  (forall j, i <= j < k -> ~ overlapsAt s j) ->
  overlapsAt s k ->
  overlapLoop ToString (map sceneValue (scenes s)) i n
  = Threw (Error ("Scene " ++ ToString (JNum (Num.of_nat k))
                  ++ " overlaps with previous scene")).
Proof.
  revert i. induction n as [|n IH]; intros i Hi Hk Hlen Hclear Hover.
  - lia.
  - rewrite overlapLoop_step by lia.
    destruct (Nat.eq_dec i k) as [->|Hne].
    + unfold overlapsAt in Hover. rewrite Hover. reflexivity.
    + destruct (Num.ltb (start (sceneAt s i)) (end_ (sceneAt s (i - 1)))) eqn:E.
      * exfalso. apply (Hclear i); [lia | exact E].
      * apply IH; try lia; auto. intros j Hj. apply Hclear. lia.
Qed.

(** ** The claims on [validateScript] *)

(** C1, as amended.  A script that satisfies the Script invariants of the
    data model (a non-empty title, a positive duration, a non-empty scene
    list, every scene with [0 <= start < end <= duration_seconds], and
    [scenes[i].start >= scenes[i-1].end] for every [i > 0]) and whose
    scenes all have a non-empty voice and a non-empty overlay is
    validated: [validateScript] returns without throwing. *)
Theorem validateScript_returns (s : YouTubeShortScript) :
  invariants s ->
  Forall labelled (scenes s) ->
  validateScript ToString (scriptValue s) = Returned tt.
Proof.
  intros (Ht & Hd & Hne & Htime & Hord) Hlab.
  assert (Hacc : accepted s).
  { repeat split; auto using ltb_leb_false.
    rewrite Forall_forall in *. intros sc Hin.
    apply timingOk_accepted; auto. }
  rewrite (validateScript_accepted Hacc).
  apply overlapLoop_clear.
  - lia.
  - destruct (scenes s); [contradiction | simpl; lia].
  - intros j Hj Hover. unfold overlapsAt in Hover.
    assert (Hge := Hord j ltac:(lia)). unfold Num.geb in Hge.
    apply leb_ltb_false in Hge. congruence.
Qed.

(** C3.  Let the title, the duration, the scene list and every single
    scene of a script pass their checks.  If scene [i] (with [i >= 1])
    starts before scene [i-1] ends and no earlier pair does, then
    [validateScript] throws the overlap error naming index [i]; and if
    every scene starts exactly where its predecessor ends, it throws
    nothing and returns. *)
Theorem validateScript_overlap (s : YouTubeShortScript) :
  accepted s ->
  (forall i, 1 <= i < List.length (scenes s) ->
     overlapsAt s i ->
     (forall j, 1 <= j < i -> ~ overlapsAt s j) ->
     validateScript ToString (scriptValue s)
     = Threw (Error ("Scene " ++ ToString (JNum (Num.of_nat i))
                     ++ " overlaps with previous scene")))
  /\
  ((forall i, 1 <= i < List.length (scenes s) ->
      Num.eqb (start (sceneAt s i)) (end_ (sceneAt s (i - 1))) = true) ->
   validateScript ToString (scriptValue s) = Returned tt).
Proof.
  intros Hacc. rewrite (validateScript_accepted Hacc).
  assert (Hlen : 1 + (List.length (scenes s) - 1) = List.length (scenes s)).
  { destruct Hacc as (_ & _ & Hne & _).
    destruct (scenes s); [contradiction | simpl; lia]. }
  split.
  - intros i Hi Hover Hfirst.
    apply overlapLoop_first; auto; lia.
  - intros Heq. apply overlapLoop_clear; auto.
    intros j Hj Hover. unfold overlapsAt in Hover.
    rewrite (eqb_ltb_false _ _ (Heq j ltac:(lia))) in Hover. discriminate.
Qed.

(** C4.  A script whose title is a non-empty string and whose
    [duration_seconds] is a number [<= 0] is rejected with the error
    "Duration must be a positive number", whatever its other fields hold:
    the statement does not mention [scenes], which may be missing, not an
    array, empty, or full of malformed scenes. *)
Theorem validateScript_invalid_duration (script : JsValue) (t : string) (d : number) :
  get script "title" = Returned (JStr t) ->
  t <> "" ->
  get script "duration_seconds" = Returned (JNum d) ->
  Num.leb d Num.zero = true ->
  validateScript ToString script = Threw (Error "Duration must be a positive number").
Proof.
  intros Ht Hne Hd Hle. unfold validateScript.
  rewrite Ht. cbn [bind]. rewrite (nonempty_truthy Hne).
  cbn [typeof negb orb String.eqb Ascii.eqb Bool.eqb].
  rewrite Hd. cbn [bind typeof lessEq negb orb String.eqb Ascii.eqb Bool.eqb].
  rewrite Hle. reflexivity.
Qed.

(** A duration that is not a number at all is rejected the same way. *)
Lemma validateScript_duration_not_number (script : JsValue) (t : string) (d : JsValue) :
  get script "title" = Returned (JStr t) ->
  t <> "" ->
  get script "duration_seconds" = Returned d ->
  typeof d <> "number" ->
  validateScript ToString script = Threw (Error "Duration must be a positive number").
Proof.
  intros Ht Hne Hd Hty. unfold validateScript.
  rewrite Ht. cbn [bind]. rewrite (nonempty_truthy Hne).
  cbn [typeof negb orb String.eqb Ascii.eqb Bool.eqb].
  rewrite Hd. cbn [bind].
  destruct (String.eqb_spec (typeof d) "number"); [contradiction | reflexivity].
Qed.

End ValidatorFacts.

(** Whatever passes [forEach] has numbers for [start] and [end], so the
    overlap loop compares numbers only. *)
Lemma forEach_numbers (ToString : JsValue -> string) (script : JsValue)
      (elems : list JsValue) (k : nat) :
  forEach (validateScene ToString script) elems k = Returned tt ->
  Forall (fun scene => exists s e,
            get scene "start" = Returned (JNum s) /\
            get scene "end" = Returned (JNum e)) elems.
Proof.
  revert k. induction elems as [|scene rest IH]; intros k H.
  - constructor.
  - cbn [forEach] in H.
    destruct (validateScene ToString script scene k) as [[]| |] eqn:E;
      cbn [bind] in H; try discriminate.
    constructor; [| eapply IH; exact H].
    unfold validateScene in E.
    destruct (get scene "start") as [st| |]; cbn [bind] in E; try discriminate.
    destruct (get scene "end") as [en| |]; cbn [bind] in E; try discriminate.
    destruct st; try discriminate E; destruct en; try discriminate E.
    eauto.
Qed.

Lemma contiguous_invariants : invariants Sample.contiguous.
Proof.
  unfold invariants, Sample.contiguous; simpl.
  split; [discriminate|]. split; [reflexivity|]. split; [discriminate|].
  split.
  - repeat constructor.
  - intros i Hi. simpl in Hi.
    assert (i = 1) as -> by lia. reflexivity.
Defined.

Lemma contiguous_labelled : Forall labelled (scenes Sample.contiguous).
Proof. repeat constructor; simpl; discriminate. Defined.

Lemma validateScript_returns_witness :
  invariants Sample.contiguous /\
  Forall labelled (scenes Sample.contiguous) /\
  validateScript Sample.display (scriptValue Sample.contiguous) = Returned tt.
Proof.
  split; [exact contiguous_invariants|].
  split; [exact contiguous_labelled|].
  apply (validateScript_returns Sample.display
           contiguous_invariants contiguous_labelled).
Defined.

(** C1, as stated, fails: this script satisfies every Script invariant of
    the data model, and [validateScript] throws on it, because its scene
    has an empty [voice]. *)
Lemma validateScript_invariants_not_enough :
  invariants Sample.voiceless /\
  forall ToString : JsValue -> string,
    validateScript ToString (scriptValue Sample.voiceless)
    = Threw (Error ("Scene " ++ ToString (JNum (Num.of_nat 0))
                    ++ ": voice must be a non-empty string")).
Proof.
  split.
  - unfold invariants, Sample.voiceless; simpl.
    split; [discriminate|]. split; [reflexivity|]. split; [discriminate|].
    split.
    + repeat constructor.
    + intros i Hi. simpl in Hi. lia.
  - intros ToString. reflexivity.
Qed.

Lemma overlapping_accepted : accepted Sample.overlapping.
Proof.
  unfold accepted, Sample.overlapping; simpl.
  split; [discriminate|]. split; [reflexivity|]. split; [discriminate|].
  repeat constructor; simpl; discriminate.
Defined.

Lemma contiguous_accepted : accepted Sample.contiguous.
Proof.
  unfold accepted, Sample.contiguous; simpl.
  split; [discriminate|]. split; [reflexivity|]. split; [discriminate|].
  repeat constructor; simpl; discriminate.
Defined.

Lemma validateScript_overlap_witness :
  accepted Sample.overlapping /\
  validateScript Sample.display (scriptValue Sample.overlapping)
  = Threw (Error "Scene 1 overlaps with previous scene") /\
  accepted Sample.contiguous /\
  validateScript Sample.display (scriptValue Sample.contiguous) = Returned tt.
Proof.
  split; [exact overlapping_accepted|].
  split.
  - apply (proj1 (validateScript_overlap Sample.display overlapping_accepted) 1).
    + simpl. lia.
    + reflexivity.
    + intros j Hj. lia.
  - split; [exact contiguous_accepted|].
    apply (proj2 (validateScript_overlap Sample.display contiguous_accepted)).
    intros i Hi. simpl in Hi. assert (i = 1) as -> by lia. reflexivity.
Defined.

Lemma validateScript_invalid_duration_witness :
  get (JObj [("title", JStr "X"); ("duration_seconds", JNum (Num.of_Z (-5)));
             ("scenes", JStr "not an array")]) "title" = Returned (JStr "X") /\
  "X" <> "" /\
  get (JObj [("title", JStr "X"); ("duration_seconds", JNum (Num.of_Z (-5)));
             ("scenes", JStr "not an array")]) "duration_seconds"
  = Returned (JNum (Num.of_Z (-5))) /\
  Num.leb (Num.of_Z (-5)) Num.zero = true /\
  validateScript Sample.display
    (JObj [("title", JStr "X"); ("duration_seconds", JNum (Num.of_Z (-5)));
           ("scenes", JStr "not an array")])
  = Threw (Error "Duration must be a positive number").
Proof.
  split; [reflexivity|]. split; [discriminate|].
  split; [reflexivity|]. split; [reflexivity|].
  apply (validateScript_invalid_duration Sample.display _ (t := "X") (d := Num.of_Z (-5)));
    [reflexivity | discriminate | reflexivity | reflexivity].
Defined.

(* ===================================================================== *)
(** * Properties of the duration probe *)
(* ===================================================================== *)

Lemma append_assoc (a b c : string) : (a ++ b) ++ c = a ++ (b ++ c).
Proof. induction a as [|x a IH]; simpl; [reflexivity | now rewrite IH]. Qed.

Lemma append_empty (a : string) : a ++ "" = a.
Proof. induction a as [|x a IH]; simpl; [reflexivity | now rewrite IH]. Qed.

Lemma classStarThenSeconds_run (g rest : string) :
  (forall c, In c (list_ascii_of_string g) -> isDigitOrDot c = true) ->
  classStarThenSeconds (g ++ " seconds" ++ rest) = Some g.
Proof.
  induction g as [|c g IH]; intros Hclass.
  - reflexivity.
  - change (String c g ++ " seconds" ++ rest) with (String c (g ++ " seconds" ++ rest)).
    cbn [classStarThenSeconds].
    rewrite (Hclass c) by (simpl; auto).
    rewrite IH by (intros c' Hc'; apply Hclass; simpl; auto).
    reflexivity.
Qed.

(** The pattern at the front of the text: the group is the whole run of
    digits and dots between [Duration: ] and [ seconds]. *)
Lemma durationMatch_front (g rest : string) :
  g <> "" ->
  (forall c, In c (list_ascii_of_string g) -> isDigitOrDot c = true) ->
  durationMatch ("Duration: " ++ g ++ " seconds" ++ rest) = Some g.
Proof.
  intros Hne Hclass.
  destruct g as [|c g]; [contradiction|].
  assert (Hm : matchHere ("Duration: " ++ String c g ++ " seconds" ++ rest)
               = Some (String c g)).
  { unfold matchHere.
    change (stripPrefix "Duration: " ("Duration: " ++ String c g ++ " seconds" ++ rest))
      with (Some (String c (g ++ " seconds" ++ rest))).
    cbv beta iota.
    rewrite (Hclass c) by (simpl; auto).
    rewrite classStarThenSeconds_run by (intros c' Hc'; apply Hclass; simpl; auto).
    reflexivity. }
  destruct ("Duration: " ++ String c g ++ " seconds" ++ rest) eqn:E;
    cbn [durationMatch]; rewrite Hm; reflexivity.
Qed.

(** What the matcher finds is in the text. *)
Lemma stripPrefix_sound (p s r : string) :
  stripPrefix p s = Some r -> s = p ++ r.
Proof.
  revert s. induction p as [|a p IH]; intros s H.
  - simpl in *. congruence.
  - destruct s as [|b s]; [discriminate H|]. cbn [stripPrefix] in H.
    destruct (Ascii.eqb_spec a b) as [->|]; [|discriminate H].
    simpl. f_equal. apply IH. exact H.
Qed.

Lemma classStarThenSeconds_sound (s g : string) :
  classStarThenSeconds s = Some g ->
  (forall c, In c (list_ascii_of_string g) -> isDigitOrDot c = true) /\
  exists rest, s = g ++ " seconds" ++ rest.
Proof.
  revert g. induction s as [|c s IH]; intros g H.
  - discriminate H.
  - cbn [classStarThenSeconds] in H.
    assert (Hstop : match stripPrefix " seconds" (String c s) with
                    | Some _ => Some ""
                    | None => None
                    end = Some g ->
                    (forall c, In c (list_ascii_of_string g) -> isDigitOrDot c = true) /\
                    exists rest, String c s = g ++ " seconds" ++ rest).
    { destruct (stripPrefix " seconds" (String c s)) as [rest|] eqn:E;
        [|discriminate].
      intros [= <-]. split; [intros ? []|].
      exists rest. apply stripPrefix_sound in E. exact E. }
    destruct (isDigitOrDot c) eqn:Hc; [|exact (Hstop H)].
    destruct (classStarThenSeconds s) as [taken|]; [|exact (Hstop H)].
    injection H as <-.
    destruct (IH taken eq_refl) as (Hclass & rest & ->).
    split.
    + intros c' [<-|Hin]; [exact Hc | exact (Hclass c' Hin)].
    + exists rest. reflexivity.
Qed.

(** A match is an occurrence of [Duration: ], a non-empty run of digits
    and dots, and [ seconds], and the group is that run. *)
Lemma durationMatch_sound (text g : string) :
  durationMatch text = Some g ->
  g <> "" /\
  (forall c, In c (list_ascii_of_string g) -> isDigitOrDot c = true) /\
  exists before rest, text = before ++ "Duration: " ++ g ++ " seconds" ++ rest.
Proof.
  assert (Hhere : forall s, matchHere s = Some g ->
            g <> "" /\
            (forall c, In c (list_ascii_of_string g) -> isDigitOrDot c = true) /\
            exists rest, s = "Duration: " ++ g ++ " seconds" ++ rest).
  { intros s H. unfold matchHere in H.
    destruct (stripPrefix "Duration: " s) as [[|c r]|] eqn:E; try discriminate H.
    destruct (isDigitOrDot c) eqn:Hc; [|discriminate H].
    destruct (classStarThenSeconds r) as [taken|] eqn:Et; [|discriminate H].
    injection H as <-.
    destruct (classStarThenSeconds_sound _ Et) as (Hclass & rest & ->).
    split; [discriminate|]. split.
    - intros c' [<-|Hin]; [exact Hc | exact (Hclass c' Hin)].
    - exists rest. apply stripPrefix_sound in E. exact E. }
  induction text as [|c text IH]; intros H; cbn [durationMatch] in H.
  - destruct (matchHere "") eqn:E; [|discriminate H].
    injection H as ->. destruct (Hhere _ E) as (Hne & Hclass & rest & Hrest).
    split; [exact Hne|]. split; [exact Hclass|]. exists "", rest. exact Hrest.
  - destruct (matchHere (String c text)) eqn:E.
    + injection H as ->. destruct (Hhere _ E) as (Hne & Hclass & rest & Hrest).
      split; [exact Hne|]. split; [exact Hclass|]. exists "", rest. exact Hrest.
    + destruct (IH H) as (Hne & Hclass & before & rest & ->).
      split; [exact Hne|]. split; [exact Hclass|].
      exists (String c before), rest. reflexivity.
Qed.

Ltac digit_bits c H :=
  destruct c as [[] [] [] [] [] [] [] []]; try discriminate H; try reflexivity.

Lemma digit_not_space (c : ascii) : isDigit c = true -> isWhiteSpace c = false.
Proof. intros H. digit_bits c H. Qed.

Lemma digit_no_sign (c : ascii) (r : string) :
  isDigit c = true ->
  match String c r with
  | String "-"%char r' => (true, r')
  | String "+"%char r' => (false, r')
  | _ => (false, String c r)
  end = (false, String c r).
Proof. intros H. digit_bits c H. Qed.

Lemma digit_not_infinity (c : ascii) (r : string) :
  isDigit c = true -> stripPrefix "Infinity" (String c r) = None.
Proof. intros H. digit_bits c H. Qed.

Lemma span_digits (ds rest : string) :
  (forall c, In c (list_ascii_of_string ds) -> isDigit c = true) ->
  match rest with String c _ => isDigit c = false | EmptyString => True end ->
  span isDigit (ds ++ rest) = (ds, rest).
Proof.
  intros Hds Hrest. induction ds as [|c ds IH].
  - simpl. destruct rest as [|c r]; [reflexivity|]. simpl. rewrite Hrest. reflexivity.
  - simpl. rewrite (Hds c) by (simpl; auto).
    rewrite IH by (intros c' Hc'; apply Hds; simpl; auto). reflexivity.
Qed.

(** [parseFloat] on digits, a dot and digits: the decimal value. *)
Lemma parseFloat_decimal (whole frac : string) :
  whole <> "" ->
  (forall c, In c (list_ascii_of_string whole) -> isDigit c = true) ->
  (forall c, In c (list_ascii_of_string frac) -> isDigit c = true) ->
  parseFloat (whole ++ "." ++ frac)
  = toDouble (scale10 (digitsValue (digitsValue 0 whole) frac)
                 (- Z.of_nat (String.length frac))).
Proof.
  intros Hne Hwhole Hfrac.
  destruct whole as [|c whole]; [contradiction|].
  assert (Hc : isDigit c = true) by (apply Hwhole; simpl; auto).
  unfold parseFloat.
  change (String c whole ++ "." ++ frac) with (String c (whole ++ "." ++ frac)).
  cbn [trimStart]. rewrite (@digit_not_space c Hc).
  rewrite (@digit_no_sign c _ Hc).
  rewrite (@digit_not_infinity c _ Hc).
  change (String c (whole ++ "." ++ frac)) with (String c whole ++ "." ++ frac).
  rewrite span_digits; [| exact Hwhole | reflexivity].
  change ("." ++ frac) with (String "."%char frac).
  cbv iota beta.
  rewrite <- (append_empty frac) at 1.
  rewrite span_digits; [| exact Hfrac | exact I].
  cbn [exponentPart]. reflexivity.
Qed.

Lemma in_append (a b : string) (c : ascii) :
  In c (list_ascii_of_string (a ++ b)) ->
  In c (list_ascii_of_string a) \/ In c (list_ascii_of_string b).
Proof.
  induction a as [|x a IH]; simpl; [auto|].
  intros [H|H]; [auto | destruct (IH H); auto].
Qed.

(** A probe output that starts with the duration line, the number
    written as digits, a dot and digits: the duration is that number. *)
Lemma audioDuration_decimal (whole frac rest : string) :
  whole <> "" ->
  (forall c, In c (list_ascii_of_string whole) -> isDigit c = true) ->
  (forall c, In c (list_ascii_of_string frac) -> isDigit c = true) ->
  audioDuration ("Duration: " ++ (whole ++ "." ++ frac) ++ " seconds" ++ rest)
  = toDouble (scale10 (digitsValue (digitsValue 0 whole) frac)
                 (- Z.of_nat (String.length frac))).
Proof.
  intros Hne Hwhole Hfrac. unfold audioDuration.
  rewrite durationMatch_front.
  - apply parseFloat_decimal; assumption.
  - destruct whole; [contradiction | discriminate].
  - intros c Hc. unfold isDigitOrDot.
    apply in_append in Hc as [Hc|Hc]; [rewrite (Hwhole c Hc); reflexivity|].
    simpl in Hc. destruct Hc as [<-|Hc]; [apply orb_true_r|].
    rewrite (Hfrac c Hc). reflexivity.
Qed.

(** Without a match the duration is [30]. *)
Lemma audioDuration_default (text : string) :
  durationMatch text = None -> audioDuration text = Num.of_Z 30.
Proof. intros H. unfold audioDuration. rewrite H. reflexivity. Qed.

Example audioDuration_45_2 :
  audioDuration "Duration: 45.2 seconds" = toDouble (452 # 10)%Q.
Proof. reflexivity. Qed.

Example audioDuration_inside_output :
  audioDuration "speech_all.wav
Duration: 45.2 seconds
done" = toDouble (452 # 10)%Q.
Proof. reflexivity. Qed.

Example audioDuration_no_pattern :
  audioDuration "Duration unknown" = Num.of_Z 30.
Proof. reflexivity. Qed.

(** C2.  The probe output [Duration: . seconds] matches the pattern, its
    group [.] is not a number, and the duration that comes out is NaN,
    not [30]. *)
Theorem audioDuration_unparsable :
  durationMatch "Duration: . seconds" = Some "." /\
  parseFloat "." = NaN /\
  audioDuration "Duration: . seconds" = NaN /\
  audioDuration "Duration: . seconds" <> Num.of_Z 30.
Proof.
  repeat split; try reflexivity. discriminate.
Qed.

(* ===================================================================== *)
(** * Properties of the promise of [executePythonScript] *)
(* ===================================================================== *)

(** Output events only fill the two buffers. *)
Lemma onEvent_data (events : list ProcEvent) (l : Listener) :
  forallb isData events = true ->
  fold_left onEvent events l
  = {| stdout := stdout l ++ stdoutOf events;
       stderr := stderr l ++ stderrOf events;
       promise := promise l |}.
Proof.
  revert l. induction events as [|ev events IH]; intros l H.
  - simpl. rewrite !append_empty. destruct l; reflexivity.
  - simpl in H. apply andb_prop in H as [Hev H].
    destruct ev; try discriminate Hev; cbn [fold_left onEvent];
      rewrite IH by exact H; cbn [stdout stderr promise stdoutOf stderrOf];
      rewrite ?append_assoc; reflexivity.
Qed.

(** A settled promise stays as it is. *)
Lemma onEvent_settled (events : list ProcEvent) (l : Listener) (s : Settlement) :
  promise l = Some s -> promise (fold_left onEvent events l) = Some s.
Proof.
  revert l. induction events as [|ev events IH]; intros l H.
  - exact H.
  - cbn [fold_left]. apply IH.
    destruct ev as [d|d|code|e]; cbn [onEvent promise]; try exact H.
    + destruct (isZero code); unfold resolve, reject; rewrite H; exact H.
    + unfold reject; rewrite H; exact H.
Qed.

(** C6, as amended.  After any output, the first ['close'] or ['error']
    event settles the promise for good: a close with code 0 resolves it
    with the trimmed text captured on standard output; a close with any
    other code rejects it with [new Error("Python script failed: " +
    stderr)], whose only content is the text captured on standard error
    (the exit code is not in it); an ['error'] event rejects it with the
    error object Node supplied, which is not an exit error. *)
Theorem execute_settles (events later : list ProcEvent) :
  forallb isData events = true ->
  execute (events ++ CloseEvent (Some 0%Z) :: later)
  = Some (Resolved (trim (stdoutOf events)))
  /\
  (forall code, isZero code = false ->
     execute (events ++ CloseEvent code :: later)
     = Some (Rejected (Error ("Python script failed: " ++ stderrOf events))))
  /\
  (forall error, execute (events ++ ErrorEvent error :: later) = Some (Rejected error))
  /\
  (forall syscall code text,
     Rejected (SystemError syscall code)
     <> Rejected (Error ("Python script failed: " ++ text))).
Proof.
  intros Hdata. unfold execute.
  repeat split.
  - rewrite fold_left_app, (onEvent_data _ _ Hdata). cbn [fold_left].
    apply onEvent_settled. reflexivity.
  - intros code Hcode.
    rewrite fold_left_app, (onEvent_data _ _ Hdata). cbn [fold_left onEvent].
    apply onEvent_settled. cbn [stdout stderr promise listening].
    rewrite Hcode. reflexivity.
  - intros error.
    rewrite fold_left_app, (onEvent_data _ _ Hdata). cbn [fold_left].
    apply onEvent_settled. reflexivity.
  - discriminate.
Qed.

Lemma execute_settles_witness :
  forallb isData [StdoutData " Duration: 3 "; StderrData "warn"; StdoutData "seconds
"] = true /\
  execute [StdoutData " Duration: 3 "; StderrData "warn"; StdoutData "seconds
"; CloseEvent (Some 0%Z)] = Some (Resolved "Duration: 3 seconds") /\
  execute [StdoutData " Duration: 3 "; StderrData "warn"; StdoutData "seconds
"; CloseEvent (Some 1%Z)] = Some (Rejected (Error "Python script failed: warn")).
Proof.
  split; [reflexivity|].
  pose proof (@execute_settles
                [StdoutData " Duration: 3 "; StderrData "warn"; StdoutData "seconds
"] [] eq_refl) as (H0 & H1 & _ & _).
  split; [exact H0 | exact (H1 (Some 1%Z) eq_refl)].
Defined.

(** C6, as stated, fails: the rejection of a failed run does not carry
    the exit code.  Runs that end with the codes 1 and 2 reject with the
    very same error, so no reading of the error gives the code back. *)
Lemma execute_exit_code_lost :
  execute [StderrData "boom"; CloseEvent (Some 1%Z)]
  = Some (Rejected (Error "Python script failed: boom")) /\
  execute [StderrData "boom"; CloseEvent (Some 2%Z)]
  = Some (Rejected (Error "Python script failed: boom")) /\
  ~ (exists codeOf : Exn -> option Z,
       forall code reason,
         isZero code = false ->
         execute [StderrData "boom"; CloseEvent code] = Some (Rejected reason) ->
         codeOf reason = code).
Proof.
  split; [reflexivity|]. split; [reflexivity|].
  intros (codeOf & H).
  pose proof (H (Some 1%Z) _ eq_refl eq_refl) as H1.
  pose proof (H (Some 2%Z) _ eq_refl eq_refl) as H2.
  rewrite H1 in H2. discriminate.
Qed.

(* ===================================================================== *)
(** * Properties of the generator and of the pipeline *)
(* ===================================================================== *)

Section PipelineFacts.

Variable ToString : JsValue -> string.
Variable path_join : string -> string -> string.
Variable path_resolve : string -> string.
Variable dirname : string.
Variable env : Env.

Local Abbreviation generateScript' := (generateScript ToString env).
Local Abbreviation saveScript' := (saveScript path_join dirname env).
Local Abbreviation generateAndSave' := (generateAndSave ToString path_join dirname env).
Local Abbreviation executePythonScript' := (executePythonScript path_join dirname env).
Local Abbreviation prepareBackgroundVideo' :=
  (prepareBackgroundVideo ToString path_join path_resolve dirname env).
Local Abbreviation runStep' := (runStep ToString path_join path_resolve dirname env).
Local Abbreviation runFullPipeline' :=
  (runFullPipeline ToString path_join path_resolve dirname env).
Local Abbreviation spawnOf' := (spawnOf path_join dirname).
Local Abbreviation call' := (call ToString path_join dirname env).
Local Abbreviation calls' := (calls ToString path_join dirname env).

(** ** What each method does to the world *)

Lemma generateScript_world (w : World) : snd (generateScript' w) = w.
Proof.
  unfold generateScript, lift. destruct (negb (truthy (model w))); reflexivity.
Qed.

Lemma saveScript_model (script : JsValue) (w : World) :
  model (snd (saveScript' script w)) = model w /\
  spawned (snd (saveScript' script w)) = spawned w.
Proof.
  unfold saveScript. destruct (writeJson env _ script); split; reflexivity.
Qed.

Lemma cleanup_world (w : World) : cleanup w = (Returned tt, w).
Proof.
  unfold cleanup. destruct (truthy (model w)); [|reflexivity].
  destruct (get (model w) "dispose") as [d| |]; try reflexivity.
  destruct (String.eqb (typeof d) "function"); reflexivity.
Qed.

Lemma initializeModel_model (w : World) :
  truthy (model (snd (initializeModel w))) = true /\
  spawned (snd (initializeModel w)) = spawned w.
Proof. split; reflexivity. Qed.

Lemma generateAndSave_model (w : World) :
  truthy (model (snd (generateAndSave' w))) = true.
Proof.
  unfold generateAndSave, andThen. cbn [initializeModel].
  set (w1 := {| model := JObj [("mock", JBool true)]; spawned := spawned w;
                written := written w |}).
  pose proof (generateScript_world w1) as Hg.
  destruct (generateScript' w1) as [[script| |] w2]; simpl in Hg; subst w2;
    try reflexivity.
  pose proof (saveScript_model script w1) as [Hs _].
  destruct (saveScript' script w1) as [[file| |] w3]; simpl in Hs |- *;
    rewrite Hs; reflexivity.
Qed.

(** ** No error of [validateScript] is the model-not-initialized error *)

Lemma get_throws (v : JsValue) (k : string) (e : Exn) :
  get v k = Threw e -> e = TypeError.
Proof. destruct v; simpl; congruence. Qed.

(** Case analysis on a property read inside a chain of [bind]s: the read
    gives a value, or it throws a TypeError, which is no [Error]. *)
Ltac read v k :=
  let E := fresh "E" in
  destruct (get v k) eqn:E; cbn [bind];
  [ | apply get_throws in E; subst; discriminate | discriminate ].

Lemma validateScene_not_model (script scene : JsValue) (k : nat) :
  validateScene ToString script scene k <> Threw (Error notInitialized).
Proof.
  unfold validateScene, notInitialized.
  read scene "start". read scene "end".
  destruct (_ || _); [simpl; discriminate|].
  read script "duration_seconds".
  destruct (_ || _); [simpl; discriminate|].
  read scene "voice".
  destruct (_ || _); [simpl; discriminate|].
  read scene "overlay".
  destruct (_ || _); [simpl; discriminate | discriminate].
Qed.

Lemma forEach_not_model (script : JsValue) (elems : list JsValue) (k : nat) :
  forEach (validateScene ToString script) elems k <> Threw (Error notInitialized).
Proof.
  revert k. induction elems as [|scene rest IH]; intros k; cbn [forEach].
  - discriminate.
  - pose proof (validateScene_not_model script scene k) as Hs.
    destruct (validateScene ToString script scene k) as [[]| |]; cbn [bind];
      [apply IH | exact Hs | discriminate].
Qed.

Lemma overlapLoop_not_model (elems : list JsValue) (n i : nat) :
  overlapLoop ToString elems i n <> Threw (Error notInitialized).
Proof.
  revert i. induction n as [|n IH]; intros i; cbn [overlapLoop].
  - discriminate.
  - read (index elems i) "start". read (index elems (i - 1)) "end".
    destruct (lessThan _ _); [unfold notInitialized; simpl; discriminate | apply IH].
Qed.

Lemma validateScript_not_model (script : JsValue) :
  validateScript ToString script <> Threw (Error notInitialized).
Proof.
  unfold validateScript.
  read script "title".
  destruct (_ || _); [discriminate|].
  read script "duration_seconds".
  destruct (_ || _); [discriminate|].
  read script "scenes".
  match goal with |- context [match ?sc with JArr _ => _ | _ => _ end] =>
    destruct sc as [| | | | |elems|]; try discriminate end.
  destruct (Nat.eqb _ 0); [discriminate|].
  pose proof (forEach_not_model script elems 0) as Hf.
  destruct (forEach (validateScene ToString script) elems 0) as [[]| |]; cbn [bind];
    [apply overlapLoop_not_model | exact Hf | discriminate].
Qed.

Lemma find_not_model (elems : list JsValue) :
  find env elems <> Threw (Error notInitialized).
Proof.
  induction elems as [|scene rest IH]; cbn [find].
  - discriminate.
  - read scene "id". read (scenesData env) "default_scene".
    destruct (strictEq _ _); [discriminate | exact IH].
Qed.

(** With a model in place, [generateScript] does not take the
    not-initialized branch. *)
Lemma generateScript_initialized (w : World) :
  truthy (model w) = true ->
  fst (generateScript' w) <> Threw (Error notInitialized).
Proof.
  intros Hm. unfold generateScript, lift. rewrite Hm. cbn [negb fst].
  read (scenesData env) "scenes".
  match goal with |- context [match ?sc with JArr _ => _ | _ => _ end] =>
    destruct sc as [| | | | |elems|]; try discriminate end.
  pose proof (find_not_model elems) as Hf.
  destruct (find env elems) as [found| |]; cbn [bind]; [| exact Hf | discriminate].
  match goal with |- context [get ?d "example_script"] => read d "example_script" end.
  match goal with |- context [get ?d "name"] => read d "name" end.
  unfold interpolate. destruct (toStringThrows _); cbn [bind]; [discriminate|].
  match goal with |- context [get ?d "title"] => read d "title" end.
  match goal with |- context [validateScript ToString ?script] =>
    pose proof (validateScript_not_model script) as Hv;
    destruct (validateScript ToString script) as [[]| |]; cbn [bind];
      [discriminate | intros H; apply Hv; congruence | discriminate] end.
Qed.

Lemma call_keeps_model (c : GeneratorCall) (w : World) :
  truthy (model w) = true -> truthy (model (call' c w)) = true.
Proof.
  intros Hm. destruct c; cbn [call].
  - reflexivity.
  - rewrite generateScript_world. exact Hm.
  - rewrite (proj1 (saveScript_model script w)). exact Hm.
  - rewrite cleanup_world. exact Hm.
  - apply generateAndSave_model.
Qed.

Lemma calls_keep_model (cs : list GeneratorCall) (w : World) :
  truthy (model w) = true -> truthy (model (calls' cs w)) = true.
Proof.
  revert w. induction cs as [|c cs IH]; intros w Hm; cbn [calls fold_left].
  - exact Hm.
  - apply IH. apply call_keeps_model. exact Hm.
Qed.

Lemma calls_without_initialize (cs : list GeneratorCall) (w : World) :
  forallb (fun c => negb (initializes c)) cs = true ->
  model (calls' cs w) = model w.
Proof.
  revert w. induction cs as [|c cs IH]; intros w H; cbn [calls fold_left].
  - reflexivity.
  - simpl in H. apply andb_prop in H as [Hc H].
    unfold calls in IH. rewrite (IH _ H).
    destruct c; try discriminate Hc; cbn [call].
    + rewrite generateScript_world. reflexivity.
    + apply saveScript_model.
    + rewrite cleanup_world. reflexivity.
Qed.

(** C10.  On a generator on which [initializeModel] has not run — a newly
    constructed one after any calls of the other methods —
    [generateScript] throws the model-not-initialized error and leaves
    the world as it is: there is no script.  Once [initializeModel] has
    run, no later sequence of calls brings that error back. *)
Theorem generateScript_model_guard :
  (forall cs,
     forallb (fun c => negb (initializes c)) cs = true ->
     generateScript' (calls' cs constructed)
     = (Threw (Error notInitialized), calls' cs constructed))
  /\
  (forall cs w,
     fst (generateScript' (calls' cs (snd (initializeModel w))))
     <> Threw (Error notInitialized)).
Proof.
  split.
  - intros cs Hcs. unfold generateScript.
    rewrite (calls_without_initialize _ constructed Hcs). reflexivity.
  - intros cs w. apply generateScript_initialized.
    apply calls_keep_model. reflexivity.
Qed.

Lemma andThen_lift {A B : Type} (r : Result A) (k : A -> Task B) (w : World) :
  andThen (lift r) k w
  = match r with
    | Returned a => k a w
    | Threw e => (Threw e, w)
    | Pending => (Pending, w)
    end.
Proof. unfold andThen, lift. destruct r; reflexivity. Qed.

Lemma runFullPipeline_children (inputVideo : option string) (w : World)
      (after : list Invocation) :
  after = spawned (snd (runFullPipeline' inputVideo w)) ->
  let synth := spawnOf' "synth.py" ["../output/script.json"; "../output/speech_all.wav"] in
  let probe := spawnOf' "audio_utils.py" ["../output/speech_all.wav"] in
  after = spawned w \/
  after = (spawned w ++ [synth])%list \/
  after = (spawned w ++ [synth; probe])%list \/
  exists out inputPath rest,
    await (execute (child env (S (List.length (spawned w))) probe)) = Returned out /\
    after = (spawned w ++ synth :: probe
               :: spawnOf' "prepare_video.py"
                    [inputPath; path_join (outputPath path_join dirname) "background.mp4";
                     ToString (JNum (audioDuration out))]
               :: rest)%list.
Proof.
  intros Hafter synth probe.
  unfold runFullPipeline in Hafter.
  match type of Hafter with context [andThen ?first _ w] =>
    assert (Hfirst : exists r, first = lift r)
      by (destruct (absent inputVideo); eexists; reflexivity);
    destruct Hfirst as [r Hr]; rewrite Hr in Hafter; clear Hr end.
  rewrite andThen_lift in Hafter. destruct r as [video| |]; [| left; exact Hafter ..].
  rewrite andThen_lift in Hafter.
  destruct (readSummary env video) as [[]| |]; [| left; exact Hafter ..].
  unfold andThen at 1 in Hafter. cbn [initializeModel] in Hafter.
  set (w1 := {| model := JObj [("mock", JBool true)]; spawned := spawned w;
                written := written w |}) in Hafter.
  unfold andThen at 1 in Hafter.
  pose proof (generateScript_world w1) as Hg.
  destruct (generateScript' w1) as [[script| |] w2]; simpl in Hg; subst w2;
    [| left; exact Hafter ..].
  unfold andThen at 1 in Hafter.
  pose proof (saveScript_model script w1) as [_ Hs].
  destruct (saveScript' script w1) as [[file| |] w3]; simpl in Hs;
    [| left; rewrite Hafter; exact Hs ..].
  unfold andThen at 1 in Hafter. rewrite cleanup_world in Hafter.
  unfold andThen at 1 in Hafter. unfold executePythonScript at 1 in Hafter.
  fold (spawnOf' "synth.py" ["../output/script.json"; "../output/speech_all.wav"]) in Hafter.
  fold synth in Hafter. rewrite Hs in Hafter.
  destruct (await (execute (child env (List.length (spawned w)) synth))) as [sout| |];
    [| right; left; exact Hafter ..].
  unfold andThen at 1 in Hafter. unfold executePythonScript at 1 in Hafter.
  cbn [spawned model written] in Hafter.
  fold (spawnOf' "audio_utils.py" ["../output/speech_all.wav"]) in Hafter.
  fold probe in Hafter.
  rewrite length_app, Nat.add_1_r in Hafter. cbn [List.length] in Hafter.
  rewrite <- app_assoc in Hafter. cbn [app] in Hafter.
  destruct (await (execute (child env (S (List.length (spawned w))) probe)))
    as [out| |] eqn:Eprobe; [| right; right; left; exact Hafter ..].
  right; right.
  unfold andThen at 1 in Hafter. unfold prepareBackgroundVideo in Hafter.
  rewrite andThen_lift in Hafter.
  destruct (resolvePath path_resolve video) as [inputPath| |];
    [| left; exact Hafter ..].
  right. exists out, inputPath.
  unfold executePythonScript at 1 in Hafter.
  cbn [spawned model written] in Hafter.
  fold (spawnOf' "prepare_video.py"
          [inputPath; path_join (outputPath path_join dirname) "background.mp4";
           ToString (JNum (audioDuration out))]) in Hafter.
  rewrite <- app_assoc in Hafter. cbn [app] in Hafter.
  match type of Hafter with context [match ?r with _ => _ end] =>
    destruct r as [vout| |] end;
    [| exists []; split; [reflexivity | exact Hafter] ..].
  unfold andThen in Hafter. unfold executePythonScript in Hafter.
  cbn [spawned model written] in Hafter.
  rewrite <- app_assoc in Hafter. cbn [app] in Hafter.
  eexists. split; [reflexivity|].
  match type of Hafter with context [match ?r with _ => _ end] =>
    destruct r end; exact Hafter.
Qed.

(** ** The claims on [runStep] and [runFullPipeline] *)

(** C7.  For a step name that is none of [generate], [synth],
    [prepare-video], [assemble], [runStep] throws an error whose message
    names the step and lists exactly these four names, and nothing is
    run.  For [prepare-video] without an input video (the argument is
    missing or empty) it throws the input-video-required error, again
    without running anything. *)
Theorem runStep_rejects (step : string) (inputVideo : option string) (w : World) :
  ~ In step validSteps ->
  runStep' step inputVideo w
  = (Threw (Error ("Unknown step: " ++ step ++ ". Available steps: "
                   ++ String.concat ", " validSteps)), w)
  /\
  (forall missing, absent missing = true ->
     runStep' "prepare-video" missing w
     = (Threw (Error "Input video path required for prepare-video step"), w)).
Proof.
  intros Hnot. split.
  - unfold runStep.
    destruct (String.eqb_spec step "generate") as [->|_];
      [exfalso; apply Hnot; simpl; auto|].
    destruct (String.eqb_spec step "synth") as [->|_];
      [exfalso; apply Hnot; simpl; auto|].
    destruct (String.eqb_spec step "prepare-video") as [->|_];
      [exfalso; apply Hnot; simpl; auto|].
    destruct (String.eqb_spec step "assemble") as [->|_];
      [exfalso; apply Hnot; simpl; auto 6|].
    reflexivity.
  - intros missing Hmissing. unfold runStep. cbn [String.eqb Ascii.eqb Bool.eqb].
    rewrite Hmissing. reflexivity.
Qed.

(** ** How far a run gets *)

Lemma extends_lift {A : Type} (r : Result A) : extends (lift r).
Proof. intros w. exists []. simpl. now rewrite app_nil_r. Qed.

Lemma extends_ret {A : Type} (a : A) : extends (ret a).
Proof. intros w. exists []. simpl. now rewrite app_nil_r. Qed.

Lemma extends_andThen {A B : Type} (t : Task A) (k : A -> Task B) :
  extends t -> (forall a, extends (k a)) -> extends (andThen t k).
Proof.
  intros Ht Hk w. unfold andThen.
  destruct (Ht w) as [l1 H1].
  destruct (t w) as [[a| |] w1]; simpl in H1; try (exists l1; exact H1).
  destruct (Hk a w1) as [l2 H2].
  exists (l1 ++ l2)%list. rewrite H2, H1, app_assoc. reflexivity.
Qed.

Lemma extends_executePythonScript (scriptName : string) (args : option (list string)) :
  extends (executePythonScript' scriptName args).
Proof. intros w. eexists. unfold executePythonScript. simpl. reflexivity. Qed.

Lemma extends_prepareBackgroundVideo (video : JsValue) (out : string) (d : number) :
  extends (prepareBackgroundVideo' video out d).
Proof.
  unfold prepareBackgroundVideo.
  apply extends_andThen; [apply extends_lift|].
  intros a. apply extends_executePythonScript.
Qed.

Local Abbreviation synth :=
  (spawnOf' "synth.py" ["../output/script.json"; "../output/speech_all.wav"]).
Local Abbreviation probe :=
  (spawnOf' "audio_utils.py" ["../output/speech_all.wav"]).
Local Abbreviation scriptFile :=
  (path_join (generator_outputPath path_join dirname) "script.json").

Lemma generateScript_pair (w : World) :
  generateScript' w = (fst (generateScript' w), w).
Proof.
  rewrite <- (generateScript_world w) at 3.
  destruct (generateScript' w); reflexivity.
Qed.

Lemma get_not_pending (v : JsValue) (k : string) : get v k <> Pending.
Proof. destruct v; discriminate. Qed.

(** Choosing the input video throws a TypeError or returns. *)
Lemma chosenVideo_cases (inputVideo : option string) :
  chosenVideo env inputVideo = Threw TypeError \/
  exists video, chosenVideo env inputVideo = Returned video.
Proof.
  unfold chosenVideo. destruct (absent inputVideo); [|eauto].
  destruct (get (config env) "video") as [section| |] eqn:E; cbn [bind].
  - destruct (get section "background_video") as [v| |] eqn:Ev; eauto.
    + left. apply get_throws in Ev. congruence.
    + exfalso. exact (get_not_pending _ _ Ev).
  - left. apply get_throws in E. congruence.
  - exfalso. exact (get_not_pending _ _ E).
Qed.

(** The stages of [runFullPipeline] after the script has been generated. *)
Local Abbreviation afterGeneration video script :=
  (andThen (saveScript' script) (fun _ =>
   andThen cleanup (fun _ =>
   andThen (executePythonScript' "synth.py"
              (Some ["../output/script.json"; "../output/speech_all.wav"])) (fun _ =>
   andThen (executePythonScript' "audio_utils.py"
              (Some ["../output/speech_all.wav"])) (fun audioDurationResult =>
   andThen (prepareBackgroundVideo' video "background.mp4"
              (audioDuration audioDurationResult)) (fun _ =>
   andThen (executePythonScript' "assemble.py"
              (Some ["../output/script.json"; "../output/background.mp4";
                     "../output/speech_all.wav"; "../output/short.mp4"])) (fun _ =>
   ret tt))))))).

(** [runFullPipeline] up to the generation of the script. *)
Lemma runFullPipeline_unfold (inputVideo : option string) (w : World) :
  runFullPipeline' inputVideo w
  = match chosenVideo env inputVideo with
    | Returned video =>
        match readSummary env video with
        | Returned _ =>
            match fst (generateScript' (snd (initializeModel w))) with
            | Returned script =>
                afterGeneration video script (snd (initializeModel w))
            | Threw e => (Threw e, snd (initializeModel w))
            | Pending => (Pending, snd (initializeModel w))
            end
        | Threw e => (Threw e, w)
        | Pending => (Pending, w)
        end
    | Threw e => (Threw e, w)
    | Pending => (Pending, w)
    end.
Proof.
  unfold runFullPipeline.
  match goal with |- context [andThen ?first _ w] =>
    replace first with (@lift JsValue (chosenVideo env inputVideo))
      by (unfold chosenVideo; destruct (absent inputVideo); reflexivity)
  end.
  rewrite andThen_lift.
  destruct (chosenVideo env inputVideo) as [video| |]; reflexivity.
Qed.

(** When the [generate] step returns, the script was generated and
    written. *)
Lemma runStep_generate_returned (inputVideo : option string) (w : World) :
  fst (runStep' "generate" inputVideo w) = Returned tt ->
  exists script,
    fst (generateScript' (snd (initializeModel w))) = Returned script /\
    writeJson env scriptFile script = Returned tt.
Proof.
  unfold runStep. cbn [String.eqb Ascii.eqb Bool.eqb].
  unfold andThen at 1. cbn [initializeModel snd].
  unfold andThen at 1. rewrite generateScript_pair.
  destruct (fst (generateScript' _)) as [script| |]; try discriminate.
  unfold andThen at 1. unfold saveScript.
  destruct (writeJson env _ script) as [[]| |] eqn:Hw; try discriminate.
  intros _. exists script. split; [reflexivity | exact Hw].
Qed.

(** The run from the synthesis stage on, once the stages before it have
    gone through. *)
Lemma runFullPipeline_from_synth (inputVideo : option string) (w : World)
      (video : JsValue) :
  chosenVideo env inputVideo = Returned video ->
  readSummary env video = Returned tt ->
  fst (runStep' "generate" inputVideo w) = Returned tt ->
  exists script,
    runFullPipeline' inputVideo w
    = match await (execute (child env (List.length (spawned w)) synth)) with
      | Returned _ =>
          andThen (executePythonScript' "audio_utils.py"
                     (Some ["../output/speech_all.wav"])) (fun audioDurationResult =>
          andThen (prepareBackgroundVideo' video "background.mp4"
                     (audioDuration audioDurationResult)) (fun _ =>
          andThen (executePythonScript' "assemble.py"
                     (Some ["../output/script.json"; "../output/background.mp4";
                            "../output/speech_all.wav"; "../output/short.mp4"])) (fun _ =>
          ret tt)))
            {| model := JObj [("mock", JBool true)];
               spawned := (spawned w ++ [synth])%list;
               written := (written w ++ [(scriptFile, script)])%list |}
      | Threw e =>
          (Threw e, {| model := JObj [("mock", JBool true)];
                       spawned := (spawned w ++ [synth])%list;
                       written := (written w ++ [(scriptFile, script)])%list |})
      | Pending =>
          (Pending, {| model := JObj [("mock", JBool true)];
                       spawned := (spawned w ++ [synth])%list;
                       written := (written w ++ [(scriptFile, script)])%list |})
      end.
Proof.
  intros Hvideo Hsum Hgen.
  destruct (runStep_generate_returned _ _ Hgen) as (script & Hscript & Hwrite).
  exists script.
  rewrite runFullPipeline_unfold, Hvideo, Hsum, Hscript.
  unfold andThen at 1. unfold saveScript. rewrite Hwrite.
  unfold andThen at 1. rewrite cleanup_world.
  unfold andThen at 1. unfold executePythonScript at 1.
  cbn [spawned model written initializeModel snd].
  destruct (await _); reflexivity.
Qed.

(** The synthesis child is started whenever the input video can be
    chosen, the configuration summary can be printed and the generation
    stage succeeds. *)
Lemma runFullPipeline_reaches_synth (inputVideo : option string) (w : World)
      (video : JsValue) :
  chosenVideo env inputVideo = Returned video ->
  readSummary env video = Returned tt ->
  fst (runStep' "generate" inputVideo w) = Returned tt ->
  exists later,
    spawned (snd (runFullPipeline' inputVideo w)) = (spawned w ++ synth :: later)%list.
Proof.
  intros Hvideo Hsum Hgen.
  destruct (runFullPipeline_from_synth _ _ Hvideo Hsum Hgen) as (script & ->).
  destruct (await _) as [sout| |]; [| exists []; reflexivity ..].
  match goal with |- context [snd (?rest ?w4)] =>
    assert (Hext : extends rest)
  end.
  { repeat (apply extends_andThen; [| intros ?]);
      first [ apply extends_executePythonScript
            | apply extends_prepareBackgroundVideo
            | apply extends_lift
            | apply extends_ret ]. }
  match goal with |- context [snd (?rest ?w4)] =>
    destruct (Hext w4) as [later Hlater]
  end.
  exists later. rewrite Hlater. cbn [spawned]. rewrite <- app_assoc. reflexivity.
Qed.


(** C8.  [runStep("synth")] starts the synthesis script with no argument
    after the script path.  [runFullPipeline] starts the same script as
    its first child with the script file and the audio file as its two
    arguments: it does so whenever the stages before the synthesis go
    through - the input video is chosen, the summary is printed, the
    generation stage succeeds - and in no run is its first child
    anything else. *)
Theorem synth_arguments (inputVideo : option string) (w : World) :
  spawned (snd (runStep' "synth" inputVideo w))
  = (spawned w ++ [spawnOf' "synth.py" []])%list
  /\
  (forall video,
     chosenVideo env inputVideo = Returned video ->
     readSummary env video = Returned tt ->
     fst (runStep' "generate" inputVideo w) = Returned tt ->
     exists later,
       spawned (snd (runFullPipeline' inputVideo w))
       = (spawned w
          ++ spawnOf' "synth.py" ["../output/script.json"; "../output/speech_all.wav"]
          :: later)%list)
  /\
  (spawned (snd (runFullPipeline' inputVideo w)) = spawned w
   \/
   exists later,
     spawned (snd (runFullPipeline' inputVideo w))
     = (spawned w
        ++ spawnOf' "synth.py" ["../output/script.json"; "../output/speech_all.wav"]
        :: later)%list).
Proof.
  split; [|split].
  - unfold runStep. cbn [String.eqb Ascii.eqb Bool.eqb].
    unfold andThen, executePythonScript.
    destruct (await _); reflexivity.
  - intros video Hvideo Hsum Hgen.
    exact (runFullPipeline_reaches_synth _ _ Hvideo Hsum Hgen).
  - destruct (@runFullPipeline_children inputVideo w _ eq_refl)
      as [H | [H | [H | (out & inputPath & rest & _ & H)]]].
    + left. exact H.
    + right. exists []. exact H.
    + right. eexists. exact H.
    + right. eexists. exact H.
Qed.


End PipelineFacts.

(** ** The pipeline on the sample runtime *)

Lemma publish_unknown : ~ In "publish" validSteps.
Proof. intros [H|[H|[H|[H|[]]]]]; discriminate H. Defined.

Lemma runStep_rejects_witness :
  ~ In "publish" validSteps /\
  runStep Sample.display Sample.join Sample.absolute Sample.dir Sample.env
          "publish" None constructed
  = (Threw (Error "Unknown step: publish. Available steps: generate, synth, prepare-video, assemble"),
     constructed) /\
  runStep Sample.display Sample.join Sample.absolute Sample.dir Sample.env
          "prepare-video" None constructed
  = (Threw (Error "Input video path required for prepare-video step"), constructed).
Proof.
  split; [exact publish_unknown|].
  pose proof (@runStep_rejects Sample.display Sample.join Sample.absolute Sample.dir
                Sample.env "publish" None constructed publish_unknown) as [H1 H2].
  split; [exact H1 | exact (H2 None eq_refl)].
Defined.

(** On the sample runtime the step starts the synthesis with the script
    path alone and the full run starts it with the two file names. *)
Lemma synth_arguments_witness :
  chosenVideo Sample.env None = Returned (JStr "minecraft_runner.mp4") /\
  readSummary Sample.env (JStr "minecraft_runner.mp4") = Returned tt /\
  fst (runStep Sample.display Sample.join Sample.absolute Sample.dir Sample.env
               "generate" None constructed) = Returned tt /\
  spawned (snd (runStep Sample.display Sample.join Sample.absolute Sample.dir Sample.env
                        "synth" None constructed))
  = [ {| command := "python"; argv := ["/app/node/src/../../python/synth.py"];
         cwd := "/app/node/src/../../python" |} ] /\
  exists later,
    spawned (snd (runFullPipeline Sample.display Sample.join Sample.absolute Sample.dir
                                  Sample.env None constructed))
    = {| command := "python";
         argv := ["/app/node/src/../../python/synth.py";
                  "../output/script.json"; "../output/speech_all.wav"];
         cwd := "/app/node/src/../../python" |} :: later.
Proof.
  do 3 (split; [reflexivity|]).
  pose proof (@synth_arguments Sample.display Sample.join Sample.absolute Sample.dir
                Sample.env None constructed) as (Hstep & Hfull & _).
  split; [exact Hstep|].
  exact (Hfull (JStr "minecraft_runner.mp4") eq_refl eq_refl eq_refl).
Defined.


Lemma generateScript_model_guard_witness :
  forallb (fun c => negb (initializes c)) [CallCleanup; CallGenerateScript] = true /\
  generateScript Sample.display Sample.env
    (calls Sample.display Sample.join Sample.dir Sample.env
           [CallCleanup; CallGenerateScript] constructed)
  = (Threw (Error notInitialized), constructed) /\
  fst (generateScript Sample.display Sample.env
         (calls Sample.display Sample.join Sample.dir Sample.env
                [CallCleanup] (snd (initializeModel constructed))))
  <> Threw (Error notInitialized).
Proof.
  split; [reflexivity|].
  pose proof (@generateScript_model_guard Sample.display Sample.join Sample.dir
                Sample.env) as [H1 H2].
  split.
  - exact (H1 [CallCleanup; CallGenerateScript] eq_refl).
  - exact (H2 [CallCleanup] constructed).
Defined.

(** A complete run: four children, the third with the probed duration. *)
Example runFullPipeline_sample :
  runFullPipeline Sample.display Sample.join Sample.absolute Sample.dir Sample.env
                  None constructed
  = (Returned tt,
     {| model := JObj [("mock", JBool true)];
        spawned :=
          [ {| command := "python";
               argv := ["/app/node/src/../../python/synth.py";
                        "../output/script.json"; "../output/speech_all.wav"];
               cwd := "/app/node/src/../../python" |};
            {| command := "python";
               argv := ["/app/node/src/../../python/audio_utils.py";
                        "../output/speech_all.wav"];
               cwd := "/app/node/src/../../python" |};
            {| command := "python";
               argv := ["/app/node/src/../../python/prepare_video.py";
                        "/work/minecraft_runner.mp4";
                        "/app/node/src/../../output/background.mp4"; "45"];
               cwd := "/app/node/src/../../python" |};
            {| command := "python";
               argv := ["/app/node/src/../../python/assemble.py";
                        "../output/script.json"; "../output/background.mp4";
                        "../output/speech_all.wav"; "../output/short.mp4"];
               cwd := "/app/node/src/../../python" |} ];
        written := [("/app/node/src/../../output/script.json",
                     scriptValue Sample.contiguous)] |}).
Proof. reflexivity. Qed.

Example runStep_synth_sample :
  spawned (snd (runStep Sample.display Sample.join Sample.absolute Sample.dir Sample.env
                        "synth" None constructed))
  = [ {| command := "python"; argv := ["/app/node/src/../../python/synth.py"];
         cwd := "/app/node/src/../../python" |} ].
Proof. reflexivity. Qed.

(* ===================================================================== *)
(** * Properties of the configuration store *)
(* ===================================================================== *)

Import ConfigStore.

Section StoreFacts.

Variable path_join : string -> string -> string.
Variable dirname : string.
Variable cwd : string.

Local Abbreviation possiblePaths' := (possiblePaths path_join dirname cwd).
Local Abbreviation loadConfig' := (loadConfig path_join dirname cwd).
Local Abbreviation reloadConfig' := (reloadConfig path_join dirname cwd).
Local Abbreviation tryBlock' := (tryBlock path_join dirname cwd).

(** What the loop over the candidates does, by the first candidate that
    exists. *)
Lemma forPaths_firstExisting (fs : string -> FileState) (paths : list string)
      (st : Store) :
  forPaths fs paths st
  = match firstExisting fs paths with
    | None | Some (_, Absent) => None
    | Some (p, Unreadable e) => Some (Threw e, noteRead p st)
    | Some (p, Malformed) => Some (Threw SyntaxError, noteRead p st)
    | Some (p, Parsed v) =>
        let '(parsed, st1) := allocate v (noteRead p st) in
        Some (Returned parsed, setCached parsed st1)
    end.
Proof.
  induction paths as [|p rest IH]; cbn [forPaths firstExisting].
  - reflexivity.
  - destruct (fs p); [exact IH | reflexivity ..].
Qed.

Lemma firstExisting_not_absent (fs : string -> FileState) (paths : list string)
      (p : string) :
  firstExisting fs paths <> Some (p, Absent).
Proof.
  induction paths as [|q rest IH]; cbn [firstExisting]; [discriminate|].
  destruct (fs q) eqn:E; [exact IH | congruence ..].
Qed.

Lemma allocate_cached (v : JsValue) (st : Store) :
  cachedConfig (snd (allocate v st)) = cachedConfig st /\
  reads (snd (allocate v st)) = reads st /\
  content_of (fst (allocate v st)) = v.
Proof. destruct v; repeat split; reflexivity. Qed.

(** [loadConfig] always returns: nothing is thrown to the caller and the
    call does not hang. *)
Lemma loadConfig_returns (fs : string -> FileState) (st : Store) :
  exists h st', loadConfig' fs st = (Returned h, st').
Proof.
  unfold loadConfig. destruct (holds (cachedConfig st)); [eauto|].
  unfold tryBlock. rewrite forPaths_firstExisting.
  destruct (firstExisting fs possiblePaths') as [[p [|e| |v]]|].
  - destruct (getDefaultConfig st); eauto.
  - destruct (getDefaultConfig (noteRead p st)); eauto.
  - destruct (getDefaultConfig (noteRead p st)); eauto.
  - destruct (allocate v (noteRead p st)); eauto.
  - destruct (getDefaultConfig st); eauto.
Qed.

(** Without a candidate file, or with a first candidate that cannot be
    read or parsed, the value returned is the built-in configuration. *)
Lemma loadConfig_defaults (fs : string -> FileState) (st : Store) :
  holds (cachedConfig st) = false ->
  (forall p v, firstExisting fs possiblePaths' <> Some (p, Parsed v)) ->
  exists h st', loadConfig' fs st = (Returned h, st') /\ content_of h = defaultConfig.
Proof.
  intros Hc Hfail. unfold loadConfig. rewrite Hc.
  unfold tryBlock. rewrite forPaths_firstExisting.
  destruct (firstExisting fs possiblePaths') as [[p [|e| |v]]|];
    try (cbn; eauto; fail).
  exfalso. apply (Hfail p v). reflexivity.
Qed.

(** A truthy memo is returned as it is: no file is looked at, nothing is
    created. *)
Lemma loadConfig_cached (fs : string -> FileState) (st : Store) :
  holds (cachedConfig st) = true ->
  loadConfig' fs st = (Returned (cachedConfig st), st).
Proof. intros H. unfold loadConfig. rewrite H. reflexivity. Qed.

(** When a call leaves a truthy memo behind, the next call returns the
    very instance the first one returned. *)
Lemma loadConfig_twice (fs1 fs2 : string -> FileState) (st st1 : Store) (h : Handle) :
  loadConfig' fs1 st = (Returned h, st1) ->
  holds (cachedConfig st1) = true ->
  loadConfig' fs2 st1 = (Returned h, st1).
Proof.
  intros Hload Hheld.
  rewrite (loadConfig_cached fs2 st1 Hheld). f_equal. f_equal.
  unfold loadConfig in Hload.
  destruct (holds (cachedConfig st)) eqn:Hc.
  - congruence.
  - unfold tryBlock in Hload. rewrite forPaths_firstExisting in Hload.
    destruct (firstExisting fs1 possiblePaths') as [[p [|e| |v]]|].
    + cbn in Hload. injection Hload as <- <-. reflexivity.
    + cbn in Hload. injection Hload as <- <-. cbn in Hheld. congruence.
    + cbn in Hload. injection Hload as <- <-. cbn in Hheld. congruence.
    + destruct (allocate v (noteRead p st)) as [parsed st2].
      injection Hload as <- <-. reflexivity.
    + cbn in Hload. injection Hload as <- <-. reflexivity.
Qed.

(** [reloadConfig] forgets the memo: it is [loadConfig] on a store whose
    memo is [null], so the candidates are looked at again and the first
    one that parses is read. *)
Lemma reloadConfig_reparses (fs : string -> FileState) (st : Store)
      (p : string) (v : JsValue) :
  firstExisting fs possiblePaths' = Some (p, Parsed v) ->
  exists h st',
    reloadConfig' fs st = (Returned h, st') /\
    content_of h = v /\
    reads st' = (reads st ++ [p])%list.
Proof.
  intros Hfirst. unfold reloadConfig, loadConfig. cbn [setCached cachedConfig holds truthy].
  unfold tryBlock. rewrite forPaths_firstExisting, Hfirst.
  pose proof (allocate_cached v (noteRead p (setCached (Prim JNull) st)))
    as (_ & Hr & Hv).
  destruct (allocate v (noteRead p (setCached (Prim JNull) st))) as [parsed st1].
  cbn [fst snd] in Hr, Hv.
  eexists _, _. split; [reflexivity|]. split; [exact Hv|].
  cbn [setCached reads]. rewrite Hr. reflexivity.
Qed.

(** When the first candidate cannot be read or parsed, the built-in
    configuration is returned as a new object and the memo stays as it
    was. *)
Lemma loadConfig_failure (fs : string -> FileState) (st : Store) (p : string)
      (found : FileState) :
  holds (cachedConfig st) = false ->
  firstExisting fs possiblePaths' = Some (p, found) ->
  (forall v, found <> Parsed v) ->
  loadConfig' fs st
  = (Returned (Object (nextAddress st) defaultConfig),
     {| cachedConfig := cachedConfig st; nextAddress := S (nextAddress st);
        reads := (reads st ++ [p])%list |}).
Proof.
  intros Hc Hfirst Hfail. unfold loadConfig. rewrite Hc.
  unfold tryBlock. rewrite forPaths_firstExisting, Hfirst.
  destruct found as [|e| |v].
  - exfalso. exact (firstExisting_not_absent _ _ Hfirst).
  - reflexivity.
  - reflexivity.
  - exfalso. apply (Hfail v). reflexivity.
Qed.

(** Two calls in a row on such a file system: two different objects. *)
Lemma loadConfig_failure_twice (fs : string -> FileState) (st : Store) (p : string)
      (found : FileState) :
  holds (cachedConfig st) = false ->
  firstExisting fs possiblePaths' = Some (p, found) ->
  (forall v, found <> Parsed v) ->
  exists h1 st1 h2 st2,
    loadConfig' fs st = (Returned h1, st1) /\
    loadConfig' fs st1 = (Returned h2, st2) /\
    identical h1 h2 = false /\
    reads st2 = (reads st ++ [p; p])%list.
Proof.
  intros Hc Hfirst Hfail.
  eexists _, _, _, _.
  split; [apply (@loadConfig_failure fs st p found Hc Hfirst Hfail)|].
  split.
  { apply (@loadConfig_failure fs
             {| cachedConfig := cachedConfig st; nextAddress := S (nextAddress st);
                reads := (reads st ++ [p])%list |} p found Hc Hfirst Hfail). }
  split.
  - cbn [identical nextAddress]. apply Nat.eqb_neq. lia.
  - cbn [reads]. rewrite <- app_assoc. reflexivity.
Qed.

End StoreFacts.

(** C5.  With a [config.json] that is not JSON, [loadConfig] does return
    the built-in configuration and throws nothing, but it does not keep
    it: the memo is still [null] afterwards, the second call reads and
    parses the file again, and the two calls return two different
    objects.  Without any file, the sibling path, the built-in
    configuration is kept and the second call returns the same object. *)
Theorem loadConfig_failure_not_memoised :
  exists h1 st1 h2 st2,
    loadConfig Sample.join Sample.dir Sample.cwd Sample.brokenFile initial
    = (Returned h1, st1) /\
    loadConfig Sample.join Sample.dir Sample.cwd Sample.brokenFile st1
    = (Returned h2, st2) /\
    content_of h1 = defaultConfig /\
    content_of h2 = defaultConfig /\
    cachedConfig st1 = Prim JNull /\
    identical h1 h2 = false /\
    reads st2 = ["config.json"; "config.json"] /\
    (exists k1 sk1,
       loadConfig Sample.join Sample.dir Sample.cwd Sample.noFiles initial
       = (Returned k1, sk1) /\
       loadConfig Sample.join Sample.dir Sample.cwd Sample.noFiles sk1
       = (Returned k1, sk1) /\
       identical k1 k1 = true).
Proof.
  eexists _, _, _, _.
  split; [reflexivity|]. split; [reflexivity|].
  repeat (split; [reflexivity|]).
  eexists _, _. repeat split; reflexivity.
Qed.

Example loadConfig_reads_file :
  exists h st,
    loadConfig Sample.join Sample.dir Sample.cwd Sample.goodFile initial
    = (Returned h, st) /\
    content_of h = JObj [("video", JObj [])] /\
    loadConfig Sample.join Sample.dir Sample.cwd Sample.brokenFile st
    = (Returned h, st) /\
    fst (reloadConfig Sample.join Sample.dir Sample.cwd Sample.noFiles st)
    = Returned (Object 1 defaultConfig).
Proof. eexists _, _. repeat split; reflexivity. Qed.

(* ===================================================================== *)
(** * Further properties of [validateScript] *)
(* ===================================================================== *)

Section ValidatorMore.

Variable ToString : JsValue -> string.

(** The callback on a scene of the declared type: the tests in their
    order. *)
Lemma validateScene_typed (s : YouTubeShortScript) (sc : ScriptScene) (k : nat) :
  validateScene ToString (scriptValue s) (sceneValue sc) k
  = if Num.ltb (start sc) Num.zero || Num.gtb (end_ sc) (duration_seconds s)
       || Num.geb (start sc) (end_ sc)
    then Threw (Error ("Scene " ++ ToString (JNum (Num.of_nat k))
                       ++ ": invalid timing (start: " ++ ToString (JNum (start sc))
                       ++ ", end: " ++ ToString (JNum (end_ sc))
                       ++ ") - must be within 0-"
                       ++ ToString (JNum (duration_seconds s)) ++ " seconds"))
    else if String.eqb (voice sc) ""
    then Threw (Error ("Scene " ++ ToString (JNum (Num.of_nat k))
                       ++ ": voice must be a non-empty string"))
    else if String.eqb (overlay sc) ""
    then Threw (Error ("Scene " ++ ToString (JNum (Num.of_nat k))
                       ++ ": overlay must be a non-empty string"))
    else Returned tt.
Proof.
  unfold validateScene, sceneValue, scriptValue; simpl.
  unfold greaterThan, greaterEq, lessThan, lessEq, Num.gtb, Num.geb; simpl.
  destruct (Num.ltb (start sc) Num.zero || Num.ltb (duration_seconds s) (end_ sc)
            || Num.leb (end_ sc) (start sc)); [reflexivity|].
  destruct (String.eqb (voice sc) ""); simpl; [reflexivity|].
  destruct (String.eqb (overlay sc) ""); reflexivity.
Qed.

Lemma validateScene_returned (s : YouTubeShortScript) (sc : ScriptScene) (k : nat) :
  validateScene ToString (scriptValue s) (sceneValue sc) k = Returned tt ->
  sceneAccepted (duration_seconds s) sc.
Proof.
  rewrite validateScene_typed. unfold sceneAccepted, labelled.
  destruct (Num.ltb (start sc) Num.zero); [discriminate|].
  destruct (Num.gtb (end_ sc) (duration_seconds s)); [discriminate|].
  destruct (Num.geb (start sc) (end_ sc)); [discriminate|]. cbn [orb].
  destruct (String.eqb_spec (voice sc) ""); [discriminate|].
  destruct (String.eqb_spec (overlay sc) ""); [discriminate|].
  intros _. repeat split; assumption.
Qed.

Lemma forEach_returned (s : YouTubeShortScript) (l : list ScriptScene) (k : nat) :
  forEach (validateScene ToString (scriptValue s)) (map sceneValue l) k = Returned tt ->
  Forall (sceneAccepted (duration_seconds s)) l.
Proof.
  revert k. induction l as [|sc l IH]; intros k H; [constructor|].
  cbn [map forEach] in H.
  destruct (validateScene ToString (scriptValue s) (sceneValue sc) k) as [[]| |] eqn:E;
    cbn [bind] in H; try discriminate.
  constructor; [exact (validateScene_returned _ _ _ E) | exact (IH _ H)].
Qed.

Lemma overlapLoop_returned (s : YouTubeShortScript) (n i : nat) :
  1 <= i -> i + n = List.length (scenes s) ->
  overlapLoop ToString (map sceneValue (scenes s)) i n = Returned tt ->
  forall j, i <= j < List.length (scenes s) -> ~ overlapsAt s j.
Proof.
  revert i. induction n as [|n IH]; intros i Hi Hlen H j Hj; [lia|].
  rewrite overlapLoop_step in H by lia.
  destruct (Num.ltb (start (sceneAt s i)) (end_ (sceneAt s (i - 1)))) eqn:E;
    [discriminate|].
  destruct (Nat.eq_dec j i) as [->|Hne].
  - unfold overlapsAt. congruence.
  - apply (IH (S i)); auto; lia.
Qed.

(** [validateScript] on a script of the declared type, step by step. *)
Lemma validateScript_typed (s : YouTubeShortScript) :
  validateScript ToString (scriptValue s)
  = if String.eqb (title s) "" then Threw (Error "Invalid or missing title")
    else if Num.leb (duration_seconds s) Num.zero
    then Threw (Error "Duration must be a positive number")
    else if Nat.eqb (List.length (scenes s)) 0
    then Threw (Error "Scenes must be a non-empty array")
    else bind (forEach (validateScene ToString (scriptValue s))
                       (map sceneValue (scenes s)) 0)
              (fun _ => overlapLoop ToString (map sceneValue (scenes s)) 1
                          (List.length (scenes s) - 1)).
Proof.
  unfold validateScript.
  rewrite get_title, get_duration, get_scenes. cbn [bind].
  cbn [truthy typeof lessEq negb orb].
  destruct (String.eqb (title s) ""); [reflexivity|].
  change (String.eqb "string" "string") with true.
  change (String.eqb "number" "number") with true. cbn [negb orb].
  destruct (Num.leb (duration_seconds s) Num.zero); [reflexivity|].
  rewrite length_map. reflexivity.
Qed.

(** X1.  The exact acceptance criterion, for scripts of the declared
    type: [validateScript] returns if and only if the title is not
    empty, the duration is not [<= 0], there is a scene, no scene fails
    one of the three timing tests or lacks a voice or an overlay, and no
    scene starts before its predecessor ends. *)
Theorem validateScript_returns_iff (s : YouTubeShortScript) :
  validateScript ToString (scriptValue s) = Returned tt
  <->
  accepted s /\
  forall i, 1 <= i < List.length (scenes s) -> ~ overlapsAt s i.
Proof.
  split.
  - intros H. rewrite validateScript_typed in H.
    destruct (String.eqb_spec (title s) "") as [|Ht]; [discriminate|].
    destruct (Num.leb (duration_seconds s) Num.zero) eqn:Hd; [discriminate|].
    destruct (Nat.eqb_spec (List.length (scenes s)) 0) as [|Hlen]; [discriminate|].
    destruct (forEach (validateScene ToString (scriptValue s))
                      (map sceneValue (scenes s)) 0) as [[]| |] eqn:Hf;
      cbn [bind] in H; try discriminate.
    split.
    + repeat split; auto.
      * intros E. rewrite E in Hlen. apply Hlen. reflexivity.
      * exact (forEach_returned _ _ _ Hf).
    + apply (@overlapLoop_returned s (List.length (scenes s) - 1) 1); auto; lia.
  - intros [Hacc Hclear].
    rewrite (validateScript_accepted ToString Hacc).
    apply overlapLoop_clear; auto.
    destruct Hacc as (_ & _ & Hne & _).
    destruct (scenes s); [contradiction | simpl; lia].
Qed.

(** ** What a validated value is known to hold *)

Lemma string_check (v : JsValue) :
  negb (truthy v) || negb (String.eqb (typeof v) "string") = false ->
  exists t, v = JStr t /\ t <> "".
Proof.
  destruct v; simpl; try discriminate.
  - destruct b; discriminate.
  - destruct (Num.toBoolean n); discriminate.
  - destruct (String.eqb_spec s ""); [discriminate|]. eauto.
Qed.

Lemma number_check (a b : JsValue) :
  negb (String.eqb (typeof a) "number") || negb (String.eqb (typeof b) "number") = false ->
  exists x y, a = JNum x /\ b = JNum y.
Proof. destruct a, b; simpl; try discriminate. eauto. Qed.

Lemma validateScene_checked (script scene : JsValue) (k : nat) (d : number) :
  get script "duration_seconds" = Returned (JNum d) ->
  validateScene ToString script scene k = Returned tt ->
  sceneChecked d scene.
Proof.
  intros Hd H. unfold validateScene in H. rewrite Hd in H.
  destruct (get scene "start") as [st| |] eqn:Es; cbn [bind] in H; try discriminate.
  destruct (get scene "end") as [en| |] eqn:Ee; cbn [bind] in H; try discriminate.
  destruct (negb (String.eqb (typeof st) "number")
            || negb (String.eqb (typeof en) "number")) eqn:Hn; [discriminate|].
  apply number_check in Hn as (x & y & -> & ->).
  cbn [bind] in H. unfold greaterThan, greaterEq, lessThan, lessEq in H.
  destruct (Num.ltb x Num.zero) eqn:H1; [discriminate|].
  destruct (Num.ltb d y) eqn:H2; [discriminate|].
  destruct (Num.leb y x) eqn:H3; [discriminate|]. cbn [orb] in H.
  destruct (get scene "voice") as [v| |] eqn:Ev; cbn [bind] in H; try discriminate.
  destruct (negb (truthy v) || negb (String.eqb (typeof v) "string")) eqn:Hv;
    [discriminate|].
  apply string_check in Hv as (tv & -> & Hv).
  destruct (get scene "overlay") as [o| |] eqn:Eo; cbn [bind] in H; try discriminate.
  destruct (negb (truthy o) || negb (String.eqb (typeof o) "string")) eqn:Ho;
    [discriminate|].
  apply string_check in Ho as (to & -> & Ho).
  exists x, y, tv, to. unfold Num.gtb, Num.geb. repeat split; assumption.
Qed.

Lemma forEach_checked (script : JsValue) (elems : list JsValue) (k : nat) (d : number) :
  get script "duration_seconds" = Returned (JNum d) ->
  forEach (validateScene ToString script) elems k = Returned tt ->
  Forall (sceneChecked d) elems.
Proof.
  intros Hd. revert k. induction elems as [|scene rest IH]; intros k H; [constructor|].
  cbn [forEach] in H.
  destruct (validateScene ToString script scene k) as [[]| |] eqn:E;
    cbn [bind] in H; try discriminate.
  constructor; [exact (validateScene_checked _ _ _ Hd E) | exact (IH _ H)].
Qed.

(** X2.  What a caller may rely on after [validateScript] has returned,
    for any parsed value: the title is a non-empty string, the duration
    is a number that is not [<= 0], [scenes] is a non-empty array, and
    every scene has numbers for [start] and [end] that pass the three
    timing tests and non-empty strings for [voice] and [overlay]. *)
Theorem validateScript_guarantees (script : JsValue) :
  validateScript ToString script = Returned tt ->
  exists t d elems,
    get script "title" = Returned (JStr t) /\ t <> "" /\
    get script "duration_seconds" = Returned (JNum d) /\
    Num.leb d Num.zero = false /\
    get script "scenes" = Returned (JArr elems) /\ elems <> [] /\
    Forall (sceneChecked d) elems.
Proof.
  intros H. unfold validateScript in H.
  destruct (get script "title") as [t| |] eqn:Et; cbn [bind] in H; try discriminate.
  destruct (negb (truthy t) || negb (String.eqb (typeof t) "string")) eqn:Ht;
    [discriminate|].
  apply string_check in Ht as (tt' & -> & Ht).
  destruct (get script "duration_seconds") as [d| |] eqn:Ed; cbn [bind] in H;
    try discriminate.
  destruct d as [| | |d| | |]; try discriminate H.
  cbn [typeof lessEq negb orb] in H.
  change (String.eqb "number" "number") with true in H. cbn [negb orb] in H.
  destruct (Num.leb d Num.zero) eqn:Hd; [discriminate|].
  destruct (get script "scenes") as [sc| |] eqn:Esc; cbn [bind] in H; try discriminate.
  destruct sc as [| | | | |elems|]; try discriminate H.
  destruct elems as [|e0 rest]; [discriminate H|].
  cbn [List.length Nat.eqb] in H.
  destruct (forEach (validateScene ToString script) (e0 :: rest) 0) as [[]| |] eqn:Hf;
    cbn [bind] in H; try discriminate.
  exists tt', d, (e0 :: rest). repeat split; auto; try discriminate.
  eapply forEach_checked; eassumption.
Qed.

(** ** The first three steps *)

(** X3.  A script whose [title] is missing, empty, or not a string is
    rejected with "Invalid or missing title", whatever its other fields
    hold. *)
Theorem validateScript_bad_title (script v : JsValue) :
  get script "title" = Returned v ->
  truthy v = false \/ typeof v <> "string" ->
  validateScript ToString script = Threw (Error "Invalid or missing title").
Proof.
  intros Hv Hbad. unfold validateScript. rewrite Hv. cbn [bind].
  destruct Hbad as [Hf|Hs].
  - rewrite Hf. reflexivity.
  - destruct (String.eqb_spec (typeof v) "string"); [contradiction|].
    rewrite orb_true_r. reflexivity.
Qed.

(** X4.  With a good title and a good duration, a [scenes] field that is
    missing, not an array, or an empty array is rejected with "Scenes
    must be a non-empty array". *)
Theorem validateScript_bad_scenes (script v : JsValue) (t : string) (d : number) :
  get script "title" = Returned (JStr t) -> t <> "" ->
  get script "duration_seconds" = Returned (JNum d) ->
  Num.leb d Num.zero = false ->
  get script "scenes" = Returned v ->
  isArray v = false \/ v = JArr [] ->
  validateScript ToString script = Threw (Error "Scenes must be a non-empty array").
Proof.
  intros Ht Hne Hd Hpos Hv Hbad. unfold validateScript.
  rewrite Ht. cbn [bind]. rewrite (nonempty_truthy Hne).
  cbn [typeof negb orb]. change (String.eqb "string" "string") with true.
  cbn [negb]. rewrite Hd. cbn [bind typeof lessEq].
  change (String.eqb "number" "number") with true. cbn [negb orb].
  rewrite Hpos, Hv. cbn [bind].
  destruct Hbad as [Hna| ->]; [|reflexivity].
  destruct v; try reflexivity. discriminate Hna.
Qed.

(** ** The first scene that fails *)

Lemma forEach_first_failure (callback : JsValue -> nat -> Result unit)
      (before after : list JsValue) (bad : JsValue) (k : nat) (e : Exn) :
  (forall i scene, nth_error before i = Some scene ->
                   callback scene (k + i) = Returned tt) ->
  callback bad (k + List.length before) = Threw e ->
  forEach callback (before ++ bad :: after)%list k = Threw e.
Proof.
  revert k. induction before as [|x before IH]; intros k Hok Hbad.
  - cbn [app forEach]. cbn [List.length] in Hbad.
    rewrite Nat.add_0_r in Hbad. rewrite Hbad. reflexivity.
  - cbn [app forEach].
    assert (Hx := Hok 0 x eq_refl). rewrite Nat.add_0_r in Hx. rewrite Hx.
    cbn [bind]. apply IH.
    + intros i scene Hi. rewrite Nat.add_succ_comm. apply Hok. exact Hi.
    + rewrite Nat.add_succ_comm. exact Hbad.
Qed.

(** X5.  Validation stops at the first scene the callback rejects: the
    error thrown is the one of that scene, at its index, whatever the
    scenes after it hold and whether or not scenes overlap. *)
Theorem validateScript_first_failing_scene
        (script bad : JsValue) (before after : list JsValue)
        (t : string) (d : number) (e : Exn) :
  get script "title" = Returned (JStr t) -> t <> "" ->
  get script "duration_seconds" = Returned (JNum d) ->
  Num.leb d Num.zero = false ->
  get script "scenes" = Returned (JArr (before ++ bad :: after)%list) ->
  (forall i scene, nth_error before i = Some scene ->
                   validateScene ToString script scene i = Returned tt) ->
  validateScene ToString script bad (List.length before) = Threw e ->
  validateScript ToString script = Threw e.
Proof.
  intros Ht Hne Hd Hpos Hsc Hok Hbad. unfold validateScript.
  rewrite Ht. cbn [bind]. rewrite (nonempty_truthy Hne).
  cbn [typeof negb orb]. change (String.eqb "string" "string") with true.
  cbn [negb]. rewrite Hd. cbn [bind typeof lessEq].
  change (String.eqb "number" "number") with true. cbn [negb orb].
  rewrite Hpos, Hsc. cbn [bind].
  rewrite length_app. cbn [List.length].
  replace (List.length before + S (List.length after) =? 0)%nat with false
    by (symmetry; apply Nat.eqb_neq; lia).
  rewrite (@forEach_first_failure _ before after bad 0 e); auto.
Qed.

(** The same for a script of the declared type. *)
Lemma validateScript_scene_throws (s : YouTubeShortScript)
      (before after : list ScriptScene) (bad : ScriptScene) (e : Exn) :
  title s <> "" ->
  Num.leb (duration_seconds s) Num.zero = false ->
  scenes s = (before ++ bad :: after)%list ->
  Forall (sceneAccepted (duration_seconds s)) before ->
  validateScene ToString (scriptValue s) (sceneValue bad) (List.length before) = Threw e ->
  validateScript ToString (scriptValue s) = Threw e.
Proof.
  intros Ht Hd Hsc Hbefore Hbad.
  rewrite validateScript_typed.
  destruct (String.eqb_spec (title s) ""); [contradiction|].
  rewrite Hd, Hsc, length_app. cbn [List.length].
  replace (List.length before + S (List.length after) =? 0)%nat with false
    by (symmetry; apply Nat.eqb_neq; lia).
  rewrite map_app. cbn [map].
  rewrite (@forEach_first_failure _ (map sceneValue before) (map sceneValue after)
             (sceneValue bad) 0 e).
  - reflexivity.
  - intros i scene Hi. cbn [Nat.add].
    rewrite nth_error_map in Hi.
    destruct (nth_error before i) as [sc|] eqn:Ei; [|discriminate Hi].
    injection Hi as <-. apply validateScene_accepted.
    rewrite Forall_forall in Hbefore. apply Hbefore.
    eapply nth_error_In. exact Ei.
  - rewrite length_map. exact Hbad.
Qed.

(** X6.  When every scene before scene [k] passes and scene [k] starts
    below 0, ends after the script, or does not start before it ends,
    the error is the invalid-timing error of scene [k], with its start,
    end and the duration in the message; the voice and overlay of that
    scene and everything after it play no part. *)
Theorem validateScript_invalid_timing (s : YouTubeShortScript)
        (before after : list ScriptScene) (bad : ScriptScene) :
  title s <> "" ->
  Num.leb (duration_seconds s) Num.zero = false ->
  scenes s = (before ++ bad :: after)%list ->
  Forall (sceneAccepted (duration_seconds s)) before ->
  Num.ltb (start bad) Num.zero = true \/
  Num.gtb (end_ bad) (duration_seconds s) = true \/
  Num.geb (start bad) (end_ bad) = true ->
  validateScript ToString (scriptValue s)
  = Threw (Error ("Scene " ++ ToString (JNum (Num.of_nat (List.length before)))
                  ++ ": invalid timing (start: " ++ ToString (JNum (start bad))
                  ++ ", end: " ++ ToString (JNum (end_ bad))
                  ++ ") - must be within 0-"
                  ++ ToString (JNum (duration_seconds s)) ++ " seconds")).
Proof.
  intros Ht Hd Hsc Hbefore Hbad.
  apply (@validateScript_scene_throws s before after bad); auto.
  rewrite validateScene_typed.
  destruct Hbad as [-> | [-> | ->]]; rewrite ?orb_true_r; reflexivity.
Qed.

(** X7.  When every scene before scene [k] passes and the timing of
    scene [k] is in order: an empty voice gives the voice error of scene
    [k], also when the overlay is empty too; a voice and an empty
    overlay give the overlay error of scene [k]. *)
Theorem validateScript_missing_label (s : YouTubeShortScript)
        (before after : list ScriptScene) (bad : ScriptScene) :
  title s <> "" ->
  Num.leb (duration_seconds s) Num.zero = false ->
  scenes s = (before ++ bad :: after)%list ->
  Forall (sceneAccepted (duration_seconds s)) before ->
  Num.ltb (start bad) Num.zero = false ->
  Num.gtb (end_ bad) (duration_seconds s) = false ->
  Num.geb (start bad) (end_ bad) = false ->
  (voice bad = "" ->
   validateScript ToString (scriptValue s)
   = Threw (Error ("Scene " ++ ToString (JNum (Num.of_nat (List.length before)))
                   ++ ": voice must be a non-empty string")))
  /\
  (voice bad <> "" -> overlay bad = "" ->
   validateScript ToString (scriptValue s)
   = Threw (Error ("Scene " ++ ToString (JNum (Num.of_nat (List.length before)))
                   ++ ": overlay must be a non-empty string"))).
Proof.
  intros Ht Hd Hsc Hbefore H1 H2 H3. split.
  - intros Hv.
    apply (@validateScript_scene_throws s before after bad); auto.
    rewrite validateScene_typed, H1, H2, H3, Hv. reflexivity.
  - intros Hv Ho.
    apply (@validateScript_scene_throws s before after bad); auto.
    rewrite validateScene_typed, H1, H2, H3, Ho. cbn [orb].
    destruct (String.eqb_spec (voice bad) ""); [contradiction | reflexivity].
Qed.

End ValidatorMore.

Lemma contiguous_clear :
  forall i, 1 <= i < List.length (scenes Sample.contiguous) ->
            ~ overlapsAt Sample.contiguous i.
Proof.
  intros i Hi. simpl in Hi. assert (i = 1) as -> by lia.
  unfold overlapsAt. simpl. discriminate.
Defined.

Lemma validateScript_returns_iff_witness :
  (accepted Sample.contiguous /\
   forall i, 1 <= i < List.length (scenes Sample.contiguous) ->
             ~ overlapsAt Sample.contiguous i) /\
  validateScript Sample.display (scriptValue Sample.contiguous) = Returned tt.
Proof.
  split; [exact (conj contiguous_accepted contiguous_clear)|].
  exact (proj2 (validateScript_returns_iff Sample.display Sample.contiguous)
               (conj contiguous_accepted contiguous_clear)).
Defined.

Lemma validateScript_guarantees_witness :
  validateScript Sample.display (scriptValue Sample.contiguous) = Returned tt /\
  exists t d elems,
    get (scriptValue Sample.contiguous) "title" = Returned (JStr t) /\ t <> "" /\
    get (scriptValue Sample.contiguous) "duration_seconds" = Returned (JNum d) /\
    Num.leb d Num.zero = false /\
    get (scriptValue Sample.contiguous) "scenes" = Returned (JArr elems) /\
    elems <> [] /\
    Forall (sceneChecked d) elems.
Proof.
  split; [reflexivity|].
  exact (@validateScript_guarantees Sample.display (scriptValue Sample.contiguous)
           eq_refl).
Defined.

Lemma validateScript_bad_title_witness :
  get Case.untitled "title" = Returned JUndefined /\
  (truthy JUndefined = false \/ typeof JUndefined <> "string") /\
  validateScript Sample.display Case.untitled
  = Threw (Error "Invalid or missing title").
Proof.
  split; [reflexivity|]. split; [left; reflexivity|].
  exact (@validateScript_bad_title Sample.display Case.untitled JUndefined
           eq_refl (or_introl eq_refl)).
Defined.

Lemma X_not_empty : "X" <> "".
Proof. discriminate. Defined.

Lemma validateScript_bad_scenes_witness :
  get Case.noScenes "title" = Returned (JStr "X") /\
  "X" <> "" /\
  get Case.noScenes "duration_seconds" = Returned (JNum (Num.of_Z 20)) /\
  Num.leb (Num.of_Z 20) Num.zero = false /\
  get Case.noScenes "scenes" = Returned (JArr []) /\
  (isArray (JArr []) = false \/ JArr [] = JArr []) /\
  validateScript Sample.display Case.noScenes
  = Threw (Error "Scenes must be a non-empty array").
Proof.
  repeat (split; [first [reflexivity | exact X_not_empty | right; reflexivity]|]).
  exact (@validateScript_bad_scenes Sample.display Case.noScenes (JArr []) "X"
           (Num.of_Z 20)
           eq_refl X_not_empty eq_refl eq_refl eq_refl (or_intror eq_refl)).
Defined.

Lemma lateScene_before :
  Forall (sceneAccepted (duration_seconds Case.lateScene))
         [ {| start := Num.of_Z 0; end_ := Num.of_Z 10; voice := "a"; overlay := "b" |} ].
Proof. repeat constructor; simpl; discriminate. Defined.

Lemma lateScene_before_pass :
  forall i scene,
    nth_error [sceneValue {| start := Num.of_Z 0; end_ := Num.of_Z 10;
                             voice := "a"; overlay := "b" |}] i = Some scene ->
    validateScene Sample.display (scriptValue Case.lateScene) scene i = Returned tt.
Proof.
  intros [|[|i]] scene H; simpl in H; try discriminate H.
  injection H as <-. reflexivity.
Defined.

Lemma validateScript_first_failing_scene_witness :
  validateScene Sample.display (scriptValue Case.lateScene)
    (sceneValue {| start := Num.of_Z 10; end_ := Num.of_Z 25; voice := "a"; overlay := "" |})
    1
  = Threw (Error "Scene 1: invalid timing (start: 10, end: 25) - must be within 0-20 seconds") /\
  validateScript Sample.display (scriptValue Case.lateScene)
  = Threw (Error "Scene 1: invalid timing (start: 10, end: 25) - must be within 0-20 seconds").
Proof.
  split; [reflexivity|].
  exact (@validateScript_first_failing_scene Sample.display
           (scriptValue Case.lateScene)
           (sceneValue {| start := Num.of_Z 10; end_ := Num.of_Z 25;
                          voice := "a"; overlay := "" |})
           [sceneValue {| start := Num.of_Z 0; end_ := Num.of_Z 10;
                          voice := "a"; overlay := "b" |}]
           [sceneValue {| start := Num.of_Z 5; end_ := Num.of_Z 20;
                          voice := "a"; overlay := "c" |}]
           "X" (Num.of_Z 20) _
           eq_refl X_not_empty eq_refl eq_refl eq_refl lateScene_before_pass eq_refl).
Defined.

Lemma validateScript_invalid_timing_witness :
  Num.gtb (Num.of_Z 25) (duration_seconds Case.lateScene) = true /\
  validateScript Sample.display (scriptValue Case.lateScene)
  = Threw (Error "Scene 1: invalid timing (start: 10, end: 25) - must be within 0-20 seconds").
Proof.
  split; [reflexivity|].
  exact (@validateScript_invalid_timing Sample.display Case.lateScene
           [ {| start := Num.of_Z 0; end_ := Num.of_Z 10; voice := "a"; overlay := "b" |} ]
           [ {| start := Num.of_Z 5; end_ := Num.of_Z 20; voice := "a"; overlay := "c" |} ]
           {| start := Num.of_Z 10; end_ := Num.of_Z 25; voice := "a"; overlay := "" |}
           X_not_empty eq_refl eq_refl lateScene_before
           (or_intror (or_introl eq_refl))).
Defined.

Lemma validateScript_missing_label_witness :
  voice {| start := Num.of_Z 10; end_ := Num.of_Z 20; voice := ""; overlay := "" |} = "" /\
  validateScript Sample.display (scriptValue Case.silentScene)
  = Threw (Error "Scene 1: voice must be a non-empty string").
Proof.
  split; [reflexivity|].
  exact (proj1 (@validateScript_missing_label Sample.display Case.silentScene
                  [ {| start := Num.of_Z 0; end_ := Num.of_Z 10; voice := "a"; overlay := "b" |} ]
                  []
                  {| start := Num.of_Z 10; end_ := Num.of_Z 20; voice := ""; overlay := "" |}
                  X_not_empty eq_refl eq_refl lateScene_before
                  eq_refl eq_refl eq_refl) eq_refl).
Defined.

(* ===================================================================== *)
(** * Further properties of the generator *)
(* ===================================================================== *)

Section GeneratorMore.

Variable ToString : JsValue -> string.
Variable path_join : string -> string -> string.
Variable dirname : string.
Variable env : Env.

Local Abbreviation generateScript' := (generateScript ToString env).
Local Abbreviation saveScript' := (saveScript path_join dirname env).
Local Abbreviation generateAndSave' := (generateAndSave ToString path_join dirname env).


Lemma generateScript_valid (w : World) (script : JsValue) :
  fst (generateScript' w) = Returned script ->
  truthy (model w) = true /\ validateScript ToString script = Returned tt.
Proof.
  unfold generateScript, lift.
  destruct (truthy (model w)); cbn [negb fst]; [|discriminate].
  intros H. split; [reflexivity|].
  destruct (get (scenesData env) "scenes") as [sc| |]; cbn [bind] in H; try discriminate.
  destruct sc as [| | | | |elems|]; try discriminate H.
  destruct (find env elems) as [found| |]; cbn [bind] in H; try discriminate.
  destruct (get _ "example_script") as [s0| |]; cbn [bind] in H; try discriminate.
  destruct (get _ "name") as [nm| |]; cbn [bind] in H; try discriminate.
  destruct (interpolate nm) as [[]| |]; cbn [bind] in H; try discriminate.
  destruct (get s0 "title") as [t| |]; cbn [bind] in H; try discriminate.
  destruct (validateScript ToString s0) as [[]| |] eqn:Hv; cbn [bind] in H;
    try discriminate.
  injection H as <-. exact Hv.
Qed.

Lemma generateScript_returns_validated_aux (w w' : World) (script : JsValue) :
  generateScript' w = (Returned script, w') ->
  w' = w /\ validateScript ToString script = Returned tt.
Proof.
  intros H. split.
  - rewrite <- (generateScript_world ToString env w), H. reflexivity.
  - apply (generateScript_valid w). rewrite H. reflexivity.
Qed.

(** X8.  [generateScript] hands out validated scripts only: when it
    returns a script, the model was initialized, [validateScript]
    returns on that script, and nothing else has changed. *)
Theorem generateScript_returns_validated (w w' : World) (script : JsValue) :
  generateScript' w = (Returned script, w') ->
  w' = w /\ truthy (model w) = true /\ validateScript ToString script = Returned tt.
Proof.
  intros H. split.
  - rewrite <- (generateScript_world ToString env w), H. reflexivity.
  - apply generateScript_valid. rewrite H. reflexivity.
Qed.

(** ** Which scene is taken *)






(** X11.  A catalog whose [scenes] is an empty array, or is no array at
    all, makes [generateScript] throw a TypeError, not an error of its
    own. *)
Theorem generateScript_empty_catalog (w : World) (v : JsValue) :
  truthy (model w) = true ->
  get (scenesData env) "scenes" = Returned v ->
  v = JArr [] \/ isArray v = false ->
  generateScript' w = (Threw TypeError, w).
Proof.
  intros Hm Hsc Hv. unfold generateScript, lift.
  rewrite Hm. cbn [negb]. rewrite Hsc. cbn [bind].
  destruct Hv as [->|Hna]; [reflexivity|].
  destruct v; try reflexivity. discriminate Hna.
Qed.

(** X12.  [generateAndSave] writes at most one file and starts no child.
    When it returns, its result is the path of [script.json] in the
    output directory and that file was written with a script that
    passes [validateScript]; when it does not return, nothing was
    written. *)
Theorem generateAndSave_writes (w : World) :
  spawned (snd (generateAndSave' w)) = spawned w /\
  match fst (generateAndSave' w) with
  | Returned outputFile =>
      outputFile = path_join (generator_outputPath path_join dirname) "script.json" /\
      exists script,
        validateScript ToString script = Returned tt /\
        written (snd (generateAndSave' w))
        = (written w ++ [(outputFile, script)])%list
  | _ => written (snd (generateAndSave' w)) = written w
  end.
Proof.
  unfold generateAndSave, andThen. cbn [initializeModel].
  set (w1 := {| model := JObj [("mock", JBool true)]; spawned := spawned w;
                written := written w |}).
  pose proof (generateScript_world ToString env w1) as Hw.
  pose proof (generateScript_valid w1) as Hv.
  destruct (generateScript' w1) as [[script| |] w2]; cbn [fst snd] in *; subst w2;
    [| split; reflexivity ..].
  destruct (Hv script eq_refl) as [_ Hvalid].
  unfold saveScript.
  destruct (writeJson env _ script); cbn [ret fst snd spawned written];
    [| split; reflexivity ..].
  split; [reflexivity|]. split; [reflexivity|].
  exists script. split; [exact Hvalid | reflexivity].
Qed.

End GeneratorMore.

(** ** Construction *)

Section ConstructionFacts.

Variable path_join : string -> string -> string.
Variable dirname : string.
Variable cwd : string.
Variable fs : string -> FileState.

(** [loadScenesData] returns the parsed document exactly when
    [scenes.json] exists, can be read and parses.  In every other case -
    no file, an unreadable file, text that is not JSON - it throws the
    same "required but not found" error. *)
Theorem loadScenesData_outcome :
  (forall v, loadScenesData path_join dirname fs = Returned v
             <-> fs (path_join dirname "../../scenes.json") = Parsed v)
  /\
  ((forall v, fs (path_join dirname "../../scenes.json") <> Parsed v) ->
   loadScenesData path_join dirname fs
   = Threw (Error "scenes.json file is required but not found")).
Proof.
  unfold loadScenesData, scenesTry. split.
  - intros v. destruct (fs _) as [|e| |v0]; split; intros H;
      try discriminate H; congruence.
  - intros Hno. destruct (fs _) as [|e| |v0]; try reflexivity.
    exfalso. apply (Hno v0). reflexivity.
Qed.

(** X13.  Whatever the configuration files hold, the constructor of the
    generator succeeds when the output directory can be made and
    [scenes.json] parses, and then holds the parsed catalog; when
    [scenes.json] does not parse, it throws the "required but not found"
    error. *)
Theorem newGenerator_outcome (ensureDirSync : string -> Result unit) (st : Store) :
  ensureDirSync (path_join dirname "../../output") = Returned tt ->
  (forall v, fs (path_join dirname "../../scenes.json") = Parsed v ->
     exists made st',
       newGenerator path_join dirname cwd fs ensureDirSync st = (Returned made, st') /\
       field_scenesData made = v /\
       field_outputPath made = path_join dirname "../../output")
  /\
  ((forall v, fs (path_join dirname "../../scenes.json") <> Parsed v) ->
   exists st',
     newGenerator path_join dirname cwd fs ensureDirSync st
     = (Threw (Error "scenes.json file is required but not found"), st')).
Proof.
  intros Hdir. unfold newGenerator.
  destruct (loadConfig_returns path_join dirname cwd fs st) as (h & st1 & ->).
  rewrite Hdir. unfold loadScenesData, scenesTry. split.
  - intros v ->. eexists _, _. repeat split.
  - intros Hno. destruct (fs _) as [|e| |v0]; eauto.
    exfalso. apply (Hno v0). reflexivity.
Qed.

End ConstructionFacts.

(* ===================================================================== *)
(** * Further properties of the promise and of index.ts *)
(* ===================================================================== *)

Lemma onEvent_pending (events : list ProcEvent) (l : Listener) :
  promise l = None ->
  (promise (fold_left onEvent events l) = None <-> forallb isData events = true).
Proof.
  revert l. induction events as [|ev events IH]; intros l Hl.
  - simpl. split; auto.
  - cbn [fold_left forallb].
    destruct ev as [d|d|code|e]; cbn [isData andb].
    + apply IH. exact Hl.
    + apply IH. exact Hl.
    + split; [|discriminate]. intros H.
      assert (Hs : exists s, promise (onEvent l (CloseEvent code)) = Some s).
      { cbn [onEvent]. destruct (isZero code); unfold resolve, reject;
          rewrite Hl; cbn [promise]; eauto. }
      destruct Hs as [s Hs]. rewrite (onEvent_settled events _ Hs) in H. discriminate.
    + split; [|discriminate]. intros H.
      assert (Hs : promise (onEvent l (ErrorEvent e)) = Some (Rejected e)).
      { cbn [onEvent]. unfold reject. rewrite Hl. reflexivity. }
      rewrite (onEvent_settled events _ Hs) in H. discriminate.
Qed.

(** X14.  The promise of [executePythonScript] stays pending exactly as
    long as the child has reported output only: without a ['close'] or
    an ['error'] event the awaiting caller waits for ever, and the first
    such event ends the wait. *)
Theorem execute_pending_iff (events : list ProcEvent) :
  execute events = None <-> forallb isData events = true.
Proof. unfold execute. apply onEvent_pending. reflexivity. Qed.

(** X15.  The promise is settled once: whatever the child reports after
    the event that settled it, another exit code or an error included,
    leaves the result as it is. *)
Theorem execute_settled_once (events later : list ProcEvent) (s : Settlement) :
  execute events = Some s -> execute (events ++ later) = Some s.
Proof.
  unfold execute. intros H. rewrite fold_left_app.
  apply onEvent_settled. exact H.
Qed.

Lemma execute_settled_once_witness :
  execute [ErrorEvent (SystemError "spawn python" "ENOENT")]
  = Some (Rejected (SystemError "spawn python" "ENOENT")) /\
  execute ([ErrorEvent (SystemError "spawn python" "ENOENT")]
           ++ [CloseEvent (Some (-2)%Z)])
  = Some (Rejected (SystemError "spawn python" "ENOENT")).
Proof.
  split; [reflexivity|].
  exact (@execute_settled_once [ErrorEvent (SystemError "spawn python" "ENOENT")]
           [CloseEvent (Some (-2)%Z)] _ eq_refl).
Defined.

Lemma execute_pending_iff_witness :
  forallb isData [StdoutData "working"; StderrData "still working"] = true /\
  execute [StdoutData "working"; StderrData "still working"] = None.
Proof.
  split; [reflexivity|].
  exact (proj2 (execute_pending_iff [StdoutData "working"; StderrData "still working"])
               eq_refl).
Defined.

Section OrchestratorFacts.

Variable ToString : JsValue -> string.
Variable path_join : string -> string -> string.
Variable path_resolve : string -> string.
Variable dirname : string.
Variable env : Env.

Variable ensureDirSync : string -> Result unit.

Local Abbreviation index_main' :=
  (index_main ToString path_join path_resolve dirname env ensureDirSync).
Local Abbreviation index_plan' := (index_plan ToString path_join path_resolve dirname).

(** X16.  [main] of index.ts constructs the orchestrator ahead of its
    [try]: when making the output directory throws, [main] throws that
    error and starts nothing.  Otherwise it never throws.  It starts the
    four steps - speech, audio processing, video preparation, assembly -
    in this order, each with its fixed arguments and each after the one
    before it has exited with code 0; the first step that fails is
    logged and ends the run with a normal return, a step that never
    ends leaves [main] waiting, and when all four succeed all four have
    been started. *)
Theorem index_main_children (w : World) :
  index_main' w
  = match ensureDirSync (outputPath path_join dirname) with
    | Returned _ =>
        let outcomes :=
          map (fun started : nat * Invocation =>
                 await (execute (child env (fst started) (snd started))))
              (combine (seq (List.length (spawned w)) 4) index_plan') in
        (snd (stepsRun outcomes),
         {| model := model w;
            spawned := (spawned w ++ firstn (fst (stepsRun outcomes)) index_plan')%list;
            written := written w |})
    | Threw e => (Threw e, w)
    | Pending => (Pending, w)
    end.
Proof.
  unfold index_main. rewrite andThen_lift. unfold newOrchestrator.
  destruct (ensureDirSync _) as [[]| |]; [| reflexivity ..].
  cbn [index_plan seq combine map fst snd].
  unfold tryCatchLog, generateTTS, processAudio, assembleVideo,
    prepareBackgroundVideo.
  unfold andThen at 1. unfold executePythonScript at 1.
  unfold spawnOf at 1. cbn [stepsRun].
  destruct (await _) as [r1| |]; [| reflexivity ..].
  unfold andThen at 1. unfold executePythonScript at 1.
  cbn [spawned model written].
  rewrite length_app, Nat.add_1_r. cbn [List.length].
  unfold spawnOf at 1.
  destruct (await _) as [r2| |];
    [| cbn [fst snd firstn]; rewrite <- app_assoc; reflexivity ..].
  unfold andThen at 1. rewrite andThen_lift.
  cbn [resolvePath]. unfold executePythonScript at 1.
  cbn [spawned model written].
  rewrite !length_app, !Nat.add_1_r. cbn [List.length].
  unfold spawnOf at 1.
  destruct (await _) as [r3| |];
    [| cbn [fst snd firstn]; rewrite <- !app_assoc; reflexivity ..].
  unfold andThen, executePythonScript, ret.
  cbn [spawned model written].
  rewrite !length_app, !Nat.add_1_r. cbn [List.length].
  unfold spawnOf.
  destruct (await _) as [r4| |];
    cbn [fst snd firstn]; rewrite <- !app_assoc; reflexivity.
Qed.

End OrchestratorFacts.

(* ===================================================================== *)
(** * Further properties of the pipeline *)
(* ===================================================================== *)

Lemma andThen_returned {A B : Type} (t : Task A) (k : A -> Task B)
      (w w' : World) (b : B) :
  andThen t k w = (Returned b, w') ->
  exists a w1, t w = (Returned a, w1) /\ k a w1 = (Returned b, w').
Proof.
  unfold andThen. destruct (t w) as [[a| |] w1]; intros H;
    [eauto | discriminate H | discriminate H].
Qed.

Section PipelineMore.

Variable ToString : JsValue -> string.
Variable path_join : string -> string -> string.
Variable path_resolve : string -> string.
Variable dirname : string.
Variable env : Env.

Local Abbreviation generateScript' := (generateScript ToString env).
Local Abbreviation generateAndSave' := (generateAndSave ToString path_join dirname env).
Local Abbreviation runStep' := (runStep ToString path_join path_resolve dirname env).
Local Abbreviation runFullPipeline' :=
  (runFullPipeline ToString path_join path_resolve dirname env).
Local Abbreviation spawnOf' := (spawnOf path_join dirname).
Local Abbreviation scriptFile :=
  (path_join (generator_outputPath path_join dirname) "script.json").
Local Abbreviation synth :=
  (spawnOf' "synth.py" ["../output/script.json"; "../output/speech_all.wav"]).
Local Abbreviation probe :=
  (spawnOf' "audio_utils.py" ["../output/speech_all.wav"]).
Local Abbreviation prepare video out :=
  (spawnOf' "prepare_video.py"
     [path_resolve video; path_join (outputPath path_join dirname) "background.mp4";
      ToString (JNum (audioDuration out))]).
Local Abbreviation assemble :=
  (spawnOf' "assemble.py"
     ["../output/script.json"; "../output/background.mp4";
      "../output/speech_all.wav"; "../output/short.mp4"]).
Local Abbreviation mock := (JObj [("mock", JBool true)]).

(** X17.  A run of the full pipeline that returns has done all of this,
    in this order: written one file, [script.json], with a script that
    passes [validateScript]; started exactly four children - synthesis,
    duration probe, video preparation, assembly - each after the one
    before it had exited with code 0; and given the video preparation
    the input video (the argument, or the configured background video
    when there is none) and the duration read from the probe's output. *)
Theorem runFullPipeline_success (inputVideo : option string) (w : World) :
  fst (runFullPipeline' inputVideo w) = Returned tt ->
  exists video script out,
    ((inputVideo = Some video /\ video <> "") \/
     (absent inputVideo = true /\
      exists section, get (config env) "video" = Returned section /\
                      get section "background_video" = Returned (JStr video))) /\
    validateScript ToString script = Returned tt /\
    await (execute (child env (S (List.length (spawned w))) probe)) = Returned out /\
    snd (runFullPipeline' inputVideo w)
    = {| model := mock;
         spawned := (spawned w ++ [synth; probe; prepare video out; assemble])%list;
         written := (written w ++ [(scriptFile, script)])%list |}.
Proof.
  intros Hret.
  destruct (runFullPipeline' inputVideo w) as [r w'] eqn:Hrun.
  cbn [fst snd] in *. subst r.
  unfold runFullPipeline in Hrun.
  apply andThen_returned in Hrun as (chosen & w1 & Hchosen & Hrun).
  apply andThen_returned in Hrun as ([] & w2 & Hsum & Hrun).
  apply andThen_returned in Hrun as ([] & w3 & Hinit & Hrun).
  apply andThen_returned in Hrun as (script & w4 & Hgen & Hrun).
  apply andThen_returned in Hrun as (file & w5 & Hsave & Hrun).
  apply andThen_returned in Hrun as ([] & w6 & Hclean & Hrun).
  apply andThen_returned in Hrun as (s1 & w7 & Hsynth & Hrun).
  apply andThen_returned in Hrun as (out & w8 & Hprobe & Hrun).
  apply andThen_returned in Hrun as (s3 & w9 & Hprep & Hrun).
  apply andThen_returned in Hrun as (s4 & w10 & Hasm & Hrun).
  unfold ret in Hrun. injection Hrun as <-.
  unfold lift in Hsum. injection Hsum as _ <-.
  cbn [initializeModel] in Hinit. injection Hinit as <-.
  destruct (generateScript_returns_validated_aux ToString env _ Hgen) as (-> & Hvalid).
  unfold saveScript in Hsave.
  destruct (writeJson env _ script); try discriminate Hsave.
  injection Hsave as _ <-.
  rewrite cleanup_world in Hclean. injection Hclean as <-.
  unfold executePythonScript in Hsynth, Hprobe, Hasm.
  injection Hsynth as _ <-. injection Hprobe as Hout <-. injection Hasm as _ <-.
  unfold prepareBackgroundVideo in Hprep.
  apply andThen_returned in Hprep as (inputPath & w8' & Hres & Hprep).
  unfold lift in Hres. injection Hres as Hres <-.
  unfold executePythonScript in Hprep. injection Hprep as _ <-.
  cbn [spawned model written] in *.
  destruct chosen as [| | | |video| |]; try discriminate Hres.
  cbn [resolvePath] in Hres. injection Hres as <-.
  exists video, script, out.
  split; [| split; [exact Hvalid | split]].
  - destruct (absent inputVideo) eqn:Habs.
    + right. split; [reflexivity|].
      unfold lift in Hchosen. injection Hchosen as Hchosen _.
      destruct (get (config env) "video") as [section| |]; cbn [bind] in Hchosen;
        try discriminate Hchosen.
      exists section. split; [reflexivity | exact Hchosen].
    + left. unfold ret in Hchosen. injection Hchosen as Hchosen _.
      destruct inputVideo as [s|]; [|discriminate Habs].
      injection Hchosen as ->. split; [reflexivity|].
      intros ->. discriminate Habs.
  - rewrite <- Hout. f_equal. f_equal.
    assert (Hw : w1 = w).
    { destruct (absent inputVideo); [unfold lift in Hchosen | unfold ret in Hchosen];
        injection Hchosen as _ <-; reflexivity. }
    subst w1. rewrite length_app, Nat.add_1_r. reflexivity.
  - assert (Hw : w1 = w).
    { destruct (absent inputVideo); [unfold lift in Hchosen | unfold ret in Hchosen];
        injection Hchosen as _ <-; reflexivity. }
    subst w1. rewrite <- !app_assoc. reflexivity.
Qed.

Local Abbreviation chosenVideo' := (chosenVideo env).
Local Abbreviation readSummary' := (readSummary env).
Local Abbreviation runFullPipeline_unfold' :=
  (runFullPipeline_unfold ToString path_join path_resolve dirname env).

(** X18.  When the generation stage fails - the catalog cannot be used or
    the script does not pass [validateScript] - the full pipeline, with
    or without an input video, throws that error and stops there: no
    file has been written and no child has been started. *)
Theorem runFullPipeline_generation_fails
        (inputVideo : option string) (video : JsValue) (w : World) (e : Exn) :
  chosenVideo' inputVideo = Returned video ->
  readSummary' video = Returned tt ->
  fst (generateScript' (snd (initializeModel w))) = Threw e ->
  runFullPipeline' inputVideo w
  = (Threw e, {| model := mock; spawned := spawned w; written := written w |}).
Proof.
  intros Hvideo Hsum Hgen.
  rewrite runFullPipeline_unfold', Hvideo, Hsum, Hgen. reflexivity.
Qed.

(** X19.  When the synthesis child fails, the full pipeline, with or
    without an input video, throws the error of that child and starts
    no other child; the script file written by the generation stage
    stays. *)
Theorem runFullPipeline_synth_fails
        (inputVideo : option string) (video : JsValue) (w : World)
        (script : JsValue) (e : Exn) :
  chosenVideo' inputVideo = Returned video ->
  readSummary' video = Returned tt ->
  fst (generateScript' (snd (initializeModel w))) = Returned script ->
  writeJson env scriptFile script = Returned tt ->
  await (execute (child env (List.length (spawned w)) synth)) = Threw e ->
  runFullPipeline' inputVideo w
  = (Threw e, {| model := mock; spawned := (spawned w ++ [synth])%list;
                 written := (written w ++ [(scriptFile, script)])%list |}).
Proof.
  intros Hvideo Hsum Hgen Hwrite Hsynth.
  rewrite runFullPipeline_unfold', Hvideo, Hsum, Hgen.
  unfold andThen at 1. unfold saveScript. rewrite Hwrite.
  unfold andThen at 1. rewrite cleanup_world.
  unfold andThen at 1. unfold executePythonScript at 1.
  cbn [spawned model written initializeModel snd].
  fold synth. rewrite Hsynth. reflexivity.
Qed.

(** Without a [script] section, or with one and without a [tts]
    section, the summary cannot be printed. *)
Lemma readSummary_config_section (video : JsValue) :
  get (config env) "script" = Returned JUndefined \/
  ((exists props, get (config env) "script" = Returned (JObj props)) /\
   get (config env) "tts" = Returned JUndefined) ->
  readSummary' video = Threw TypeError.
Proof.
  intros Hcfg. unfold readSummary.
  destruct Hcfg as [-> | [(props & ->) ->]]; [reflexivity|].
  cbn [bind get]. unfold interpolate.
  destruct (toStringThrows _); reflexivity.
Qed.

(** X20.  A configuration without a [script] section, or with one and
    without a [tts] section, makes the full pipeline, with or without
    an input video, throw a TypeError before its first stage: nothing
    is generated, written or started. *)
Theorem runFullPipeline_config_section (inputVideo : option string) (w : World) :
  get (config env) "script" = Returned JUndefined \/
  ((exists props, get (config env) "script" = Returned (JObj props)) /\
   get (config env) "tts" = Returned JUndefined) ->
  runFullPipeline' inputVideo w = (Threw TypeError, w).
Proof.
  intros Hcfg. rewrite runFullPipeline_unfold'.
  destruct (chosenVideo_cases env inputVideo) as [-> | [video ->]]; [reflexivity|].
  rewrite (readSummary_config_section video Hcfg). reflexivity.
Qed.

(** X21.  Without an input video and with a configured [video] section
    whose [background_video] is not a string but can be printed in the
    summary - a number, a boolean, [null], nothing at all, a plain
    object or array - the full pipeline notices only at its third
    stage: the script is written, the synthesis and the probe have run,
    and then a TypeError is thrown. *)
Theorem runFullPipeline_video_missing
        (inputVideo : option string) (w : World) (section v script : JsValue)
        (synthResult out : string) :
  absent inputVideo = true ->
  get (config env) "video" = Returned section ->
  get section "background_video" = Returned v ->
  (forall s, v <> JStr s) ->
  readSummary' v = Returned tt ->
  fst (generateScript' (snd (initializeModel w))) = Returned script ->
  writeJson env scriptFile script = Returned tt ->
  await (execute (child env (List.length (spawned w)) synth)) = Returned synthResult ->
  await (execute (child env (S (List.length (spawned w))) probe)) = Returned out ->
  runFullPipeline' inputVideo w
  = (Threw TypeError,
     {| model := mock; spawned := (spawned w ++ [synth; probe])%list;
        written := (written w ++ [(scriptFile, script)])%list |}).
Proof.
  intros Habs Hsec Hv Hnot Hsum Hgen Hwrite Hsynth Hprobe.
  assert (Hvideo : chosenVideo' inputVideo = Returned v).
  { unfold chosenVideo. rewrite Habs, Hsec. cbn [bind]. exact Hv. }
  rewrite runFullPipeline_unfold', Hvideo, Hsum, Hgen.
  unfold andThen at 1. unfold saveScript. rewrite Hwrite.
  unfold andThen at 1. rewrite cleanup_world.
  unfold andThen at 1. unfold executePythonScript at 1.
  cbn [spawned model written initializeModel snd]. fold synth. rewrite Hsynth.
  unfold andThen at 1. unfold executePythonScript at 1.
  cbn [spawned model written]. fold probe.
  rewrite length_app, Nat.add_1_r. cbn [List.length]. rewrite Hprobe.
  unfold andThen at 1. unfold prepareBackgroundVideo. rewrite andThen_lift.
  assert (Hres : resolvePath path_resolve v = Threw TypeError).
  { destruct v; try reflexivity. exfalso. apply (Hnot s). reflexivity. }
  rewrite Hres. rewrite <- app_assoc. reflexivity.
Qed.

(** X22.  The [generate] step of [runStep] is [generateAndSave]: both
    leave the same world behind, and the step returns, throws or hangs
    as [generateAndSave] does. *)
Theorem runStep_generate (inputVideo : option string) (w : World) :
  snd (runStep' "generate" inputVideo w) = snd (generateAndSave' w) /\
  fst (runStep' "generate" inputVideo w)
  = match fst (generateAndSave' w) with
    | Returned _ => Returned tt
    | Threw e => Threw e
    | Pending => Pending
    end.
Proof.
  unfold runStep, generateAndSave. cbn [String.eqb Ascii.eqb Bool.eqb].
  unfold andThen. cbn [initializeModel].
  destruct (generateScript' _) as [[script| |] w2]; [| split; reflexivity ..].
  destruct (saveScript path_join dirname env script w2) as [[file| |] w3];
    [| split; reflexivity ..].
  rewrite cleanup_world. split; reflexivity.
Qed.

End PipelineMore.

(* ===================================================================== *)
(** * Further properties of the configuration store *)
(* ===================================================================== *)

Section StoreMore.

Variable path_join : string -> string -> string.
Variable dirname : string.
Variable cwd : string.

Local Abbreviation possiblePaths' := (possiblePaths path_join dirname cwd).
Local Abbreviation loadConfig' := (loadConfig path_join dirname cwd).
Local Abbreviation reloadConfig' := (reloadConfig path_join dirname cwd).
Local Abbreviation loadConfigs' := (loadConfigs path_join dirname cwd).

(** X23.  [loadConfig] always returns a value: it neither throws nor
    hangs.  With a truthy memo the value is the memo and nothing
    changes; otherwise its content is what the first existing candidate
    parses to, and the built-in configuration when there is no
    candidate or the first one cannot be read or parsed. *)
Theorem loadConfig_outcome (fs : string -> FileState) (st : Store) :
  exists h st',
    loadConfig' fs st = (Returned h, st') /\
    (holds (cachedConfig st) = true -> h = cachedConfig st /\ st' = st) /\
    (holds (cachedConfig st) = false ->
     content_of h = match firstExisting fs possiblePaths' with
                    | Some (_, Parsed v) => v
                    | _ => defaultConfig
                    end).
Proof.
  unfold loadConfig. destruct (holds (cachedConfig st)) eqn:Hc.
  - eexists _, _. split; [reflexivity|]. split; [auto | discriminate].
  - unfold tryBlock. rewrite forPaths_firstExisting.
    destruct (firstExisting fs possiblePaths') as [[p [|e| |v]]|];
      try (eexists _, _; split; [reflexivity|]; split; [discriminate | reflexivity]).
    pose proof (allocate_cached v (noteRead p st)) as (_ & _ & Hv).
    destruct (allocate v (noteRead p st)) as [parsed st1].
    eexists _, _. split; [reflexivity|]. split; [discriminate|].
    intros _. exact Hv.
Qed.

(** X24.  The first existing candidate wins: when it parses, that file
    alone is read, its value is returned as it is - nothing of the
    built-in configuration is added to it - and it becomes the memo. *)
Theorem loadConfig_first_candidate (fs : string -> FileState) (st : Store)
        (p : string) (v : JsValue) :
  holds (cachedConfig st) = false ->
  firstExisting fs possiblePaths' = Some (p, Parsed v) ->
  exists h st',
    loadConfig' fs st = (Returned h, st') /\
    content_of h = v /\
    reads st' = (reads st ++ [p])%list /\
    cachedConfig st' = h.
Proof.
  intros Hc Hfirst. unfold loadConfig. rewrite Hc.
  unfold tryBlock. rewrite forPaths_firstExisting, Hfirst.
  pose proof (allocate_cached v (noteRead p st)) as (_ & Hr & Hv).
  destruct (allocate v (noteRead p st)) as [parsed st1]. cbn [fst snd] in *.
  eexists _, _. split; [reflexivity|]. split; [exact Hv|].
  split; [cbn [setCached reads]; rewrite Hr; reflexivity | reflexivity].
Qed.

(** X25.  A first existing candidate that cannot be read or parsed hides
    the candidates after it: only that file is read, the built-in
    configuration is returned, and the memo is left as it was. *)
Theorem loadConfig_broken_candidate (fs : string -> FileState) (st : Store)
        (p : string) (found : FileState) :
  holds (cachedConfig st) = false ->
  firstExisting fs possiblePaths' = Some (p, found) ->
  (forall v, found <> Parsed v) ->
  exists h st',
    loadConfig' fs st = (Returned h, st') /\
    content_of h = defaultConfig /\
    reads st' = (reads st ++ [p])%list /\
    cachedConfig st' = cachedConfig st.
Proof.
  intros Hc Hfirst Hfail.
  rewrite (@loadConfig_failure path_join dirname cwd fs st p found Hc Hfirst Hfail).
  eexists _, _. repeat split.
Qed.

(** X26.  Once the memo is truthy, every later [loadConfig] returns it,
    whatever has become of the files in the meantime, and the store is
    not touched: no file is read and no object is made. *)
Theorem loadConfigs_memo (fss : list (string -> FileState)) (st : Store) :
  holds (cachedConfig st) = true ->
  loadConfigs' fss st = (map (fun _ => Returned (cachedConfig st)) fss, st).
Proof.
  intros Hc. induction fss as [|fs fss IH]; [reflexivity|].
  cbn [loadConfigs map].
  rewrite (loadConfig_cached path_join dirname cwd fs st Hc), IH. reflexivity.
Qed.

(** X27.  [reloadConfig] does not look at the memo: with a truthy memo
    in place and a first existing candidate that parses to an object, it
    reads that file again, returns a new object with the file's value,
    and makes it the memo. *)
Theorem reloadConfig_refreshes (fs : string -> FileState) (st : Store)
        (p : string) (props : list (string * JsValue)) :
  firstExisting fs possiblePaths' = Some (p, Parsed (JObj props)) ->
  reloadConfig' fs st
  = (Returned (Object (nextAddress st) (JObj props)),
     {| cachedConfig := Object (nextAddress st) (JObj props);
        nextAddress := S (nextAddress st);
        reads := (reads st ++ [p])%list |}).
Proof.
  intros Hfirst. unfold reloadConfig, loadConfig.
  cbn [setCached cachedConfig holds truthy].
  unfold tryBlock. rewrite forPaths_firstExisting, Hfirst. reflexivity.
Qed.

(** X28.  A configuration file whose text parses to a falsy value
    ([null], [false], [0], the empty string) is returned as the
    configuration, and since the memo it leaves is falsy, the next call
    reads the file again. *)
Theorem loadConfig_falsy_document (fs : string -> FileState) (st : Store)
        (p : string) (v : JsValue) :
  holds (cachedConfig st) = false ->
  firstExisting fs possiblePaths' = Some (p, Parsed v) ->
  truthy v = false ->
  loadConfigs' [fs; fs] st
  = ([Returned (Prim v); Returned (Prim v)],
     {| cachedConfig := Prim v; nextAddress := nextAddress st;
        reads := (reads st ++ [p; p])%list |}).
Proof.
  intros Hc Hfirst Hv.
  assert (Hload : forall st0, holds (cachedConfig st0) = false ->
            loadConfig' fs st0
            = (Returned (Prim v),
               {| cachedConfig := Prim v; nextAddress := nextAddress st0;
                  reads := (reads st0 ++ [p])%list |})).
  { intros st0 Hc0. unfold loadConfig. rewrite Hc0.
    unfold tryBlock. rewrite forPaths_firstExisting, Hfirst.
    destruct v; try discriminate Hv; reflexivity. }
  cbn [loadConfigs]. rewrite (Hload st Hc).
  rewrite (Hload {| cachedConfig := Prim v; nextAddress := nextAddress st;
                    reads := (reads st ++ [p])%list |} Hv).
  cbn [reads nextAddress].
  rewrite <- app_assoc. reflexivity.
Qed.

End StoreMore.

(* ===================================================================== *)
(** * Further properties of the duration probe *)
(* ===================================================================== *)

Lemma durationMatch_complete (before g rest : string) :
  g <> "" ->
  (forall c, In c (list_ascii_of_string g) -> isDigitOrDot c = true) ->
  durationMatch (before ++ "Duration: " ++ g ++ " seconds" ++ rest) <> None.
Proof.
  intros Hne Hclass. induction before as [|c before IH].
  - change ("" ++ "Duration: " ++ g ++ " seconds" ++ rest)
      with ("Duration: " ++ g ++ " seconds" ++ rest).
    rewrite durationMatch_front by assumption. discriminate.
  - change (String c before ++ "Duration: " ++ g ++ " seconds" ++ rest)
      with (String c (before ++ "Duration: " ++ g ++ " seconds" ++ rest)).
    cbn [durationMatch].
    destruct (matchHere _); [discriminate | exact IH].
Qed.

(** X29.  The duration falls back to the default exactly when the probe
    output holds no occurrence of [Duration: ], a non-empty run of
    digits and dots, and [ seconds]: [match] gives [null] if and only if
    there is no such occurrence, and a match's group is such a run that
    occurs in the text. *)
Theorem durationMatch_occurrence (text : string) :
  (durationMatch text = None <-> forall g, ~ occursIn text g) /\
  (forall g, durationMatch text = Some g -> occursIn text g).
Proof.
  split; [split|].
  - intros Hnone g (Hne & Hclass & before & rest & ->).
    exact (durationMatch_complete before rest Hne Hclass Hnone).
  - intros Hno. destruct (durationMatch text) as [g|] eqn:E; [|reflexivity].
    exfalso. apply (Hno g). exact (durationMatch_sound _ E).
  - intros g E. exact (durationMatch_sound _ E).
Qed.

Lemma dot_not_digit : isDigit "."%char = false.
Proof. reflexivity. Qed.

(** [parseFloat] stops at a second dot. *)
Lemma parseFloat_second_dot (whole frac more : string) :
  whole <> "" ->
  (forall c, In c (list_ascii_of_string whole) -> isDigit c = true) ->
  (forall c, In c (list_ascii_of_string frac) -> isDigit c = true) ->
  parseFloat (whole ++ "." ++ frac ++ "." ++ more)
  = toDouble (scale10 (digitsValue (digitsValue 0 whole) frac)
                 (- Z.of_nat (String.length frac))).
Proof.
  intros Hne Hwhole Hfrac.
  destruct whole as [|c whole]; [contradiction|].
  assert (Hc : isDigit c = true) by (apply Hwhole; simpl; auto).
  unfold parseFloat.
  change (String c whole ++ "." ++ frac ++ "." ++ more)
    with (String c (whole ++ "." ++ frac ++ "." ++ more)).
  cbn [trimStart]. rewrite (@digit_not_space c Hc).
  rewrite (@digit_no_sign c _ Hc).
  rewrite (@digit_not_infinity c _ Hc).
  change (String c (whole ++ "." ++ frac ++ "." ++ more))
    with (String c whole ++ "." ++ frac ++ "." ++ more).
  rewrite span_digits; [| exact Hwhole | reflexivity].
  change ("." ++ frac ++ "." ++ more) with (String "."%char (frac ++ "." ++ more)).
  cbv iota beta.
  rewrite span_digits; [| exact Hfrac | reflexivity].
  reflexivity.
Qed.

(** X30.  A duration line whose number has more than one dot, such as
    [1.2.3], is read up to the second dot: the duration is the double
    nearest to the value of the digits, dot, digits in front -
    [Infinity] when that value is beyond the doubles - and what follows
    is dropped without any error. *)
Theorem audioDuration_second_dot (whole frac more rest : string) :
  whole <> "" ->
  (forall c, In c (list_ascii_of_string whole) -> isDigit c = true) ->
  (forall c, In c (list_ascii_of_string frac) -> isDigit c = true) ->
  (forall c, In c (list_ascii_of_string more) -> isDigitOrDot c = true) ->
  audioDuration ("Duration: " ++ (whole ++ "." ++ frac ++ "." ++ more)
                 ++ " seconds" ++ rest)
  = toDouble (scale10 (digitsValue (digitsValue 0 whole) frac)
                 (- Z.of_nat (String.length frac))).
Proof.
  intros Hne Hwhole Hfrac Hmore. unfold audioDuration.
  rewrite durationMatch_front.
  - apply parseFloat_second_dot; assumption.
  - destruct whole; [contradiction | discriminate].
  - intros c Hc. unfold isDigitOrDot.
    apply in_append in Hc as [Hc|Hc]; [rewrite (Hwhole c Hc); reflexivity|].
    simpl in Hc. destruct Hc as [<-|Hc]; [apply orb_true_r|].
    apply in_append in Hc as [Hc|Hc]; [rewrite (Hfrac c Hc); reflexivity|].
    simpl in Hc. destruct Hc as [<-|Hc]; [apply orb_true_r|].
    exact (Hmore c Hc).
Qed.

(* ===================================================================== *)
(** * The further properties on the sample data *)
(* ===================================================================== *)

(** The example run of index.ts on the sample runtime: all four steps
    when nothing fails, the first step alone when it fails, and nothing
    at all when the output directory cannot be made. *)
Lemma index_main_children_witness :
  index_main Sample.display Sample.join Sample.absolute Sample.dir Sample.env
             (fun _ => Returned tt) constructed
  = (Returned tt,
     {| model := JNull;
        spawned :=
          [ {| command := "python";
               argv := ["/app/node/src/../../python/tts_generator.py";
                        "Hello, this is a test of the TTS system!";
                        "/app/node/src/../../output/test_audio.wav"];
               cwd := "/app/node/src/../../python" |};
            {| command := "python";
               argv := ["/app/node/src/../../python/audio_processor.py";
                        "/app/node/src/../../output/test_audio.wav";
                        "/app/node/src/../../output/processed_audio.wav"];
               cwd := "/app/node/src/../../python" |};
            {| command := "python";
               argv := ["/app/node/src/../../python/prepare_video.py";
                        "/work/minecraft_runner.mp4";
                        "/app/node/src/../../output/background.mp4"; "30"];
               cwd := "/app/node/src/../../python" |};
            {| command := "python";
               argv := ["/app/node/src/../../python/assemble.py";
                        "/app/node/src/../../output/script.json";
                        "/app/node/src/../../output/background.mp4";
                        "/app/node/src/../../output/speech_all.wav";
                        "/app/node/src/../../output/short.mp4"];
               cwd := "/app/node/src/../../python" |} ];
        written := [] |}) /\
  index_main Sample.display Sample.join Sample.absolute Sample.dir Case.failingSynth
             (fun _ => Returned tt) constructed
  = (Returned tt,
     {| model := JNull;
        spawned :=
          [ {| command := "python";
               argv := ["/app/node/src/../../python/tts_generator.py";
                        "Hello, this is a test of the TTS system!";
                        "/app/node/src/../../output/test_audio.wav"];
               cwd := "/app/node/src/../../python" |} ];
        written := [] |}) /\
  index_main Sample.display Sample.join Sample.absolute Sample.dir Sample.env
             (fun _ => Threw (SystemError "mkdir" "EACCES")) constructed
  = (Threw (SystemError "mkdir" "EACCES"), constructed).
Proof.
  split; [|split].
  - exact (@index_main_children Sample.display Sample.join Sample.absolute Sample.dir
             Sample.env (fun _ => Returned tt) constructed).
  - exact (@index_main_children Sample.display Sample.join Sample.absolute Sample.dir
             Case.failingSynth (fun _ => Returned tt) constructed).
  - exact (@index_main_children Sample.display Sample.join Sample.absolute Sample.dir
             Sample.env (fun _ => Threw (SystemError "mkdir" "EACCES")) constructed).
Defined.

Lemma generateScript_returns_validated_witness :
  generateScript Sample.display Sample.env (snd (initializeModel constructed))
  = (Returned (scriptValue Sample.contiguous), snd (initializeModel constructed)) /\
  truthy (model (snd (initializeModel constructed))) = true /\
  validateScript Sample.display (scriptValue Sample.contiguous) = Returned tt.
Proof.
  split; [reflexivity|].
  exact (proj2 (@generateScript_returns_validated Sample.display Sample.env
                  (snd (initializeModel constructed)) _ _ eq_refl)).
Defined.





Lemma generateScript_empty_catalog_witness :
  get (scenesData (Case.withCatalog Case.emptyCatalog)) "scenes" = Returned (JArr []) /\
  generateScript Sample.display (Case.withCatalog Case.emptyCatalog)
                 (snd (initializeModel constructed))
  = (Threw TypeError, snd (initializeModel constructed)).
Proof.
  split; [reflexivity|].
  exact (@generateScript_empty_catalog Sample.display (Case.withCatalog Case.emptyCatalog)
           (snd (initializeModel constructed)) (JArr [])
           eq_refl eq_refl (or_introl eq_refl)).
Defined.

Lemma loadScenesData_outcome_witness :
  Case.scenesOnly (Sample.join Sample.dir "../../scenes.json")
  = Parsed Sample.catalog /\
  loadScenesData Sample.join Sample.dir Case.scenesOnly = Returned Sample.catalog /\
  loadScenesData Sample.join Sample.dir Sample.noFiles
  = Threw (Error "scenes.json file is required but not found").
Proof.
  split; [reflexivity|]. split.
  - exact (proj2 (proj1 (loadScenesData_outcome Sample.join Sample.dir Case.scenesOnly)
                        Sample.catalog) eq_refl).
  - apply (proj2 (loadScenesData_outcome Sample.join Sample.dir Sample.noFiles)).
    intros v H. discriminate H.
Defined.

Lemma newGenerator_outcome_witness :
  (fun _ : string => Returned tt) (Sample.join Sample.dir "../../output") = Returned tt /\
  exists made st',
    newGenerator Sample.join Sample.dir Sample.cwd Case.scenesOnly
                 (fun _ => Returned tt) initial = (Returned made, st') /\
    field_scenesData made = Sample.catalog /\
    field_outputPath made = Sample.join Sample.dir "../../output".
Proof.
  split; [reflexivity|].
  exact (proj1 (@newGenerator_outcome Sample.join Sample.dir Sample.cwd Case.scenesOnly
                  (fun _ => Returned tt) initial eq_refl)
               Sample.catalog eq_refl).
Defined.

Lemma runFullPipeline_success_witness :
  fst (runFullPipeline Sample.display Sample.join Sample.absolute Sample.dir Sample.env
                       None constructed) = Returned tt /\
  exists video script out,
    ((None = Some video /\ video <> "") \/
     (absent None = true /\
      exists section, get (config Sample.env) "video" = Returned section /\
                      get section "background_video" = Returned (JStr video))) /\
    validateScript Sample.display script = Returned tt /\
    await (execute (child Sample.env (S (List.length (spawned constructed)))
                      (spawnOf Sample.join Sample.dir "audio_utils.py"
                         ["../output/speech_all.wav"]))) = Returned out /\
    snd (runFullPipeline Sample.display Sample.join Sample.absolute Sample.dir Sample.env
                         None constructed)
    = {| model := JObj [("mock", JBool true)];
         spawned :=
           (spawned constructed
            ++ [spawnOf Sample.join Sample.dir "synth.py"
                  ["../output/script.json"; "../output/speech_all.wav"];
                spawnOf Sample.join Sample.dir "audio_utils.py"
                  ["../output/speech_all.wav"];
                spawnOf Sample.join Sample.dir "prepare_video.py"
                  [Sample.absolute video;
                   Sample.join (outputPath Sample.join Sample.dir) "background.mp4";
                   Sample.display (JNum (audioDuration out))];
                spawnOf Sample.join Sample.dir "assemble.py"
                  ["../output/script.json"; "../output/background.mp4";
                   "../output/speech_all.wav"; "../output/short.mp4"]])%list;
         written :=
           (written constructed
            ++ [(Sample.join (generator_outputPath Sample.join Sample.dir) "script.json",
                 script)])%list |}.
Proof.
  split; [reflexivity|].
  exact (@runFullPipeline_success Sample.display Sample.join Sample.absolute Sample.dir
           Sample.env None constructed eq_refl).
Defined.

Lemma runFullPipeline_generation_fails_witness :
  chosenVideo (Case.withCatalog Case.overlapCatalog) None
  = Returned (JStr "minecraft_runner.mp4") /\
  readSummary (Case.withCatalog Case.overlapCatalog) (JStr "minecraft_runner.mp4")
  = Returned tt /\
  runFullPipeline Sample.display Sample.join Sample.absolute Sample.dir
                  (Case.withCatalog Case.overlapCatalog) None constructed
  = (Threw (Error "Scene 1 overlaps with previous scene"),
     {| model := JObj [("mock", JBool true)]; spawned := []; written := [] |}) /\
  runFullPipeline Sample.display Sample.join Sample.absolute Sample.dir
                  (Case.withCatalog Case.oddName) (Some "clip.mp4") constructed
  = (Threw TypeError,
     {| model := JObj [("mock", JBool true)]; spawned := []; written := [] |}).
Proof.
  split; [reflexivity|]. split; [reflexivity|]. split.
  - exact (@runFullPipeline_generation_fails Sample.display Sample.join Sample.absolute
             Sample.dir (Case.withCatalog Case.overlapCatalog) None
             (JStr "minecraft_runner.mp4") constructed _
             eq_refl eq_refl eq_refl).
  - exact (@runFullPipeline_generation_fails Sample.display Sample.join Sample.absolute
             Sample.dir (Case.withCatalog Case.oddName) (Some "clip.mp4")
             (JStr "clip.mp4") constructed _
             eq_refl eq_refl eq_refl).
Defined.

Lemma runFullPipeline_synth_fails_witness :
  chosenVideo Case.failingSynth None = Returned (JStr "minecraft_runner.mp4") /\
  readSummary Case.failingSynth (JStr "minecraft_runner.mp4") = Returned tt /\
  runFullPipeline Sample.display Sample.join Sample.absolute Sample.dir
                  Case.failingSynth None constructed
  = (Threw (Error "Python script failed: no voice"),
     {| model := JObj [("mock", JBool true)];
        spawned := [spawnOf Sample.join Sample.dir "synth.py"
                      ["../output/script.json"; "../output/speech_all.wav"]];
        written := [(Sample.join (generator_outputPath Sample.join Sample.dir)
                                 "script.json",
                     scriptValue Sample.contiguous)] |}).
Proof.
  split; [reflexivity|]. split; [reflexivity|].
  exact (@runFullPipeline_synth_fails Sample.display Sample.join Sample.absolute
           Sample.dir Case.failingSynth None (JStr "minecraft_runner.mp4") constructed
           (scriptValue Sample.contiguous) _
           eq_refl eq_refl eq_refl eq_refl eq_refl).
Defined.

Lemma runFullPipeline_config_section_witness :
  get (config (Case.withConfig (JObj [("video", JObj [])]))) "script"
  = Returned JUndefined /\
  runFullPipeline Sample.display Sample.join Sample.absolute Sample.dir
                  (Case.withConfig (JObj [("video", JObj [])]))
                  (Some "clip.mp4") constructed
  = (Threw TypeError, constructed) /\
  runFullPipeline Sample.display Sample.join Sample.absolute Sample.dir
                  (Case.withConfig (JObj [("video", JObj [])]))
                  None constructed
  = (Threw TypeError, constructed).
Proof.
  split; [reflexivity|]. split.
  - exact (@runFullPipeline_config_section Sample.display Sample.join Sample.absolute
             Sample.dir (Case.withConfig (JObj [("video", JObj [])]))
             (Some "clip.mp4") constructed (or_introl eq_refl)).
  - exact (@runFullPipeline_config_section Sample.display Sample.join Sample.absolute
             Sample.dir (Case.withConfig (JObj [("video", JObj [])]))
             None constructed (or_introl eq_refl)).
Defined.

Lemma undefined_no_string : forall s, JUndefined <> JStr s.
Proof. intros s H. discriminate H. Defined.

Lemma runFullPipeline_video_missing_witness :
  absent None = true /\
  get (config (Case.withConfig Case.noBackground)) "video" = Returned (JObj []) /\
  get (JObj []) "background_video" = Returned JUndefined /\
  readSummary (Case.withConfig Case.noBackground) JUndefined = Returned tt /\
  runFullPipeline Sample.display Sample.join Sample.absolute Sample.dir
                  (Case.withConfig Case.noBackground) None constructed
  = (Threw TypeError,
     {| model := JObj [("mock", JBool true)];
        spawned := [spawnOf Sample.join Sample.dir "synth.py"
                      ["../output/script.json"; "../output/speech_all.wav"];
                    spawnOf Sample.join Sample.dir "audio_utils.py"
                      ["../output/speech_all.wav"]];
        written := [(Sample.join (generator_outputPath Sample.join Sample.dir)
                                 "script.json",
                     scriptValue Sample.contiguous)] |}).
Proof.
  repeat (split; [reflexivity|]).
  exact (@runFullPipeline_video_missing Sample.display Sample.join Sample.absolute
           Sample.dir (Case.withConfig Case.noBackground) None constructed
           (JObj []) JUndefined (scriptValue Sample.contiguous)
           "Duration: 45 seconds" "Duration: 45 seconds"
           eq_refl eq_refl eq_refl undefined_no_string eq_refl eq_refl eq_refl
           eq_refl eq_refl).
Defined.

Lemma loadConfig_outcome_witness :
  exists h st',
    loadConfig Sample.join Sample.dir Sample.cwd Sample.brokenFile initial
    = (Returned h, st') /\
    (holds (cachedConfig initial) = true -> h = cachedConfig initial /\ st' = initial) /\
    (holds (cachedConfig initial) = false ->
     content_of h
     = match firstExisting Sample.brokenFile
               (possiblePaths Sample.join Sample.dir Sample.cwd) with
       | Some (_, Parsed v) => v
       | _ => defaultConfig
       end).
Proof.
  exact (loadConfig_outcome Sample.join Sample.dir Sample.cwd Sample.brokenFile initial).
Defined.

Lemma loadConfig_first_candidate_witness :
  holds (cachedConfig initial) = false /\
  firstExisting Sample.goodFile (possiblePaths Sample.join Sample.dir Sample.cwd)
  = Some ("config.json", Parsed (JObj [("video", JObj [])])) /\
  exists h st',
    loadConfig Sample.join Sample.dir Sample.cwd Sample.goodFile initial
    = (Returned h, st') /\
    content_of h = JObj [("video", JObj [])] /\
    reads st' = (reads initial ++ ["config.json"])%list /\
    cachedConfig st' = h.
Proof.
  split; [reflexivity|]. split; [reflexivity|].
  exact (@loadConfig_first_candidate Sample.join Sample.dir Sample.cwd Sample.goodFile
           initial "config.json" (JObj [("video", JObj [])]) eq_refl eq_refl).
Defined.

Lemma malformed_not_parsed : forall v, Malformed <> Parsed v.
Proof. intros v H. discriminate H. Defined.

Lemma loadConfig_broken_candidate_witness :
  holds (cachedConfig initial) = false /\
  firstExisting Case.shadowed (possiblePaths Sample.join Sample.dir Sample.cwd)
  = Some ("/app/config.json", Malformed) /\
  Case.shadowed "config.json" = Parsed (JObj [("video", JObj [])]) /\
  exists h st',
    loadConfig Sample.join Sample.dir Sample.cwd Case.shadowed initial
    = (Returned h, st') /\
    content_of h = defaultConfig /\
    reads st' = (reads initial ++ ["/app/config.json"])%list /\
    cachedConfig st' = cachedConfig initial.
Proof.
  split; [reflexivity|]. split; [reflexivity|]. split; [reflexivity|].
  exact (@loadConfig_broken_candidate Sample.join Sample.dir Sample.cwd Case.shadowed
           initial "/app/config.json" Malformed eq_refl eq_refl malformed_not_parsed).
Defined.

Lemma loadConfigs_memo_witness :
  holds (cachedConfig (snd (loadConfig Sample.join Sample.dir Sample.cwd
                                       Sample.noFiles initial))) = true /\
  loadConfigs Sample.join Sample.dir Sample.cwd
              [Sample.goodFile; Sample.brokenFile]
              (snd (loadConfig Sample.join Sample.dir Sample.cwd Sample.noFiles initial))
  = ([Returned (Object 0 defaultConfig); Returned (Object 0 defaultConfig)],
     snd (loadConfig Sample.join Sample.dir Sample.cwd Sample.noFiles initial)).
Proof.
  split; [reflexivity|].
  exact (@loadConfigs_memo Sample.join Sample.dir Sample.cwd
           [Sample.goodFile; Sample.brokenFile]
           (snd (loadConfig Sample.join Sample.dir Sample.cwd Sample.noFiles initial))
           eq_refl).
Defined.

Lemma reloadConfig_refreshes_witness :
  firstExisting Sample.goodFile (possiblePaths Sample.join Sample.dir Sample.cwd)
  = Some ("config.json", Parsed (JObj [("video", JObj [])])) /\
  reloadConfig Sample.join Sample.dir Sample.cwd Sample.goodFile
    (snd (loadConfig Sample.join Sample.dir Sample.cwd Sample.noFiles initial))
  = (Returned (Object 1 (JObj [("video", JObj [])])),
     {| cachedConfig := Object 1 (JObj [("video", JObj [])]);
        nextAddress := 2; reads := ["config.json"] |}).
Proof.
  split; [reflexivity|].
  exact (@reloadConfig_refreshes Sample.join Sample.dir Sample.cwd Sample.goodFile
           (snd (loadConfig Sample.join Sample.dir Sample.cwd Sample.noFiles initial))
           "config.json" [("video", JObj [])] eq_refl).
Defined.

Lemma loadConfig_falsy_document_witness :
  holds (cachedConfig initial) = false /\
  firstExisting Case.nullFile (possiblePaths Sample.join Sample.dir Sample.cwd)
  = Some ("config.json", Parsed JNull) /\
  truthy JNull = false /\
  loadConfigs Sample.join Sample.dir Sample.cwd [Case.nullFile; Case.nullFile] initial
  = ([Returned (Prim JNull); Returned (Prim JNull)],
     {| cachedConfig := Prim JNull; nextAddress := 0;
        reads := ["config.json"; "config.json"] |}).
Proof.
  repeat (split; [reflexivity|]).
  exact (@loadConfig_falsy_document Sample.join Sample.dir Sample.cwd Case.nullFile
           initial "config.json" JNull eq_refl eq_refl eq_refl).
Defined.

Lemma durationMatch_occurrence_witness :
  durationMatch "Duration: 45.2 seconds" = Some "45.2" /\
  occursIn "Duration: 45.2 seconds" "45.2".
Proof.
  split; [reflexivity|].
  exact (proj2 (durationMatch_occurrence "Duration: 45.2 seconds") "45.2" eq_refl).
Defined.

Lemma one_is_digit : forall c, In c (list_ascii_of_string "1") -> isDigit c = true.
Proof. intros c [<-|[]]. reflexivity. Defined.

Lemma two_is_digit : forall c, In c (list_ascii_of_string "2") -> isDigit c = true.
Proof. intros c [<-|[]]. reflexivity. Defined.

Lemma three_in_class :
  forall c, In c (list_ascii_of_string "3") -> isDigitOrDot c = true.
Proof. intros c [<-|[]]. reflexivity. Defined.

Lemma one_not_empty : "1" <> "".
Proof. discriminate. Defined.

Lemma audioDuration_second_dot_witness :
  "1" <> "" /\
  audioDuration "Duration: 1.2.3 seconds"
  = Fin (5404319552844595 # 4503599627370496)%Q.
Proof.
  split; [exact one_not_empty|].
  exact (@audioDuration_second_dot "1" "2" "3" "" one_not_empty
           one_is_digit two_is_digit three_in_class).
Defined.

(** A number beyond the doubles is read as [Infinity], and the integer
    after [2^53] as [2^53]. *)
Example audioDuration_overflow :
  audioDuration ("Duration: 1" ++ Case.zeros 309 ++ ".5.7 seconds") = PosInf /\
  audioDuration "Duration: 9007199254740993.0.1 seconds"
  = Fin (inject_Z 9007199254740992).
Proof. split; vm_compute; reflexivity. Qed.
